(** * DirectSend transaction locking (src/instantx.cpp)

    A shallow embedding of the transaction-lock engine [CDirectSend] and of
    the classes it manipulates ([CTxLockRequest], [CTxLockVote],
    [COutPointLock], [CTxLockCandidate]), followed by the properties of the
    engine that the specification states.

    Conventions of the embedding.
    - [uint256] values, amounts, heights and times are integers of [Z].
      Where the C++ code converts between integer types the conversion is
      written out: the [int] deadline of the orphan-vote rate limiter, the
      unsigned division of [GetAverageMasternodeOrphanVoteTime] and the
      unsigned product of [GetMinFee].  [CAmount] is [int64_t]: the sums, the
      product and the difference that [CTxLockRequest::IsValid] takes of
      amounts are written with their 64-bit two's complement wrap-around.
      Differences of block heights are taken in [Z].
    - A [std::map] is the list of its entries in increasing key order; a
      [std::set] is the list of its elements in increasing order.  The C++
      iteration order is therefore the order of the list.
    - Calls into the collaborators that the engine cannot observe again
      (relay, PoSe ban, peer requests, wallet and script notifications) are
      appended to the [events] trace of the state.
    - The collaborators that the engine only reads (UTXO set, chain, mempool,
      masternode registry, sporks, clock) are the fields of [Env]; one engine
      operation runs against one [Env].
    - [None] as the result of an engine function stands for an execution
      that has no defined result: the C++ code dereferences an end iterator or
      a dangling reference, or the recursion budget of the model is used up. *)

From Stdlib Require Import ZArith List Bool Lia String.
Import ListNotations.
Local Open Scope Z_scope.

Set Implicit Arguments.

(** ** Ordered keys and [std::map] *)

Class OrdKey (K : Type) := {
    keqb : K -> K -> bool;
    kltb : K -> K -> bool;
    keqb_eq : forall a b, keqb a b = true <-> a = b
  }.

Lemma keqb_refl {K} `{OrdKey K} (a : K) : keqb a a = true.
Proof. apply keqb_eq. reflexivity. Qed.

Lemma keqb_neq {K} `{OrdKey K} (a b : K) : keqb a b = false <-> a <> b.
Proof.
  split.
  - intros E Hab. apply keqb_eq in Hab. congruence.
  - intros N. destruct (keqb a b) eqn:E; [apply keqb_eq in E; contradiction | reflexivity].
Qed.

Lemma keqb_sym {K} `{OrdKey K} (a b : K) : keqb a b = keqb b a.
Proof.
  destruct (keqb a b) eqn:E.
  - apply keqb_eq in E. subst. symmetry. apply keqb_refl.
  - symmetry. apply keqb_neq. apply keqb_neq in E. congruence.
Qed.

Definition uint256 := Z.

#[export] Instance OrdKey_uint256 : OrdKey uint256 :=
  {| keqb := Z.eqb; kltb := Z.ltb; keqb_eq := Z.eqb_eq |}.

Module StdMap.
Section Ops.
Context {K V : Type} `{OrdKey K}.

Definition t := list (K * V).

(** [m.find(k)], [None] for [end()]. *)
Fixpoint find (k : K) (m : t) : option V :=
  match m with
  | [] => None
  | (k', v) :: m' => if keqb k k' then Some v else find k m'
  end.

(** [m.count(k)] as a truth value. *)
Definition count (k : K) (m : t) : bool :=
  match find k m with Some _ => true | None => false end.

(** Placement of a fresh entry at its position in key order. *)
Fixpoint put (k : K) (v : V) (m : t) : t :=
  match m with
  | [] => [(k, v)]
  | (k', v') :: m' =>
      if kltb k k' then (k, v) :: m else (k', v') :: put k v m'
  end.

(** [m.insert(make_pair(k, v))]: an existing entry is kept. *)
Definition insert (k : K) (v : V) (m : t) : t :=
  if count k m then m else put k v m.

(** In-place modification of the entry found at [k] (through an iterator
    or a reference); nothing happens when there is none. *)
Fixpoint update (k : K) (f : V -> V) (m : t) : t :=
  match m with
  | [] => []
  | (k', v) :: m' =>
      if keqb k k' then (k', f v) :: update k f m' else (k', v) :: update k f m'
  end.

(** [m[k] = v]. *)
Definition set (k : K) (v : V) (m : t) : t :=
  if count k m then update k (fun _ => v) m else put k v m.

(** [m.erase(k)]. *)
Definition erase (k : K) (m : t) : t :=
  filter (fun e => negb (keqb k (fst e))) m.

Definition keys (m : t) : list K := map fst m.

Definition size (m : t) : Z := Z.of_nat (List.length m).

(** *** Lookup after each operation *)

Lemma count_find k m : count k m = true <-> exists v, find k m = Some v.
Proof.
  unfold count. destruct (find k m); split; intros; eauto; try discriminate.
  destruct H0; discriminate.
Qed.

Lemma count_false k m : count k m = false <-> find k m = None.
Proof. unfold count. destruct (find k m); split; intros; congruence. Qed.

Lemma find_In k v m : find k m = Some v -> In (k, v) m.
Proof.
  induction m as [|[k' v'] m IH]; simpl; [discriminate|].
  destruct (keqb k k') eqn:E.
  - intros [= ->]. apply keqb_eq in E. subst. auto.
  - auto.
Qed.

Lemma In_find k v m : In (k, v) m -> exists v', find k m = Some v'.
Proof.
  induction m as [|[k' v'] m IH]; simpl; [tauto|].
  intros [[= -> ->]|Hin].
  - rewrite keqb_refl. eauto.
  - destruct (keqb k k'); eauto.
Qed.

Lemma find_put_other k v m k' :
  keqb k' k = false -> find k' (put k v m) = find k' m.
Proof.
  intros E. induction m as [|[k0 v0] m IH]; simpl.
  - rewrite E. reflexivity.
  - destruct (kltb k k0); simpl.
    + rewrite E. reflexivity.
    + rewrite IH. reflexivity.
Qed.

Lemma find_put_same k v m : find k m = None -> find k (put k v m) = Some v.
Proof.
  induction m as [|[k0 v0] m IH]; simpl.
  - rewrite keqb_refl. reflexivity.
  - destruct (keqb k k0) eqn:E; [discriminate|]. intros Hf.
    destruct (kltb k k0); simpl.
    + rewrite keqb_refl. reflexivity.
    + rewrite E. auto.
Qed.

Lemma find_insert k v m k' :
  find k' (insert k v m) =
    if keqb k' k then match find k m with Some w => Some w | None => Some v end
    else find k' m.
Proof.
  unfold insert. destruct (count k m) eqn:C.
  - destruct (keqb k' k) eqn:E; [|reflexivity].
    apply keqb_eq in E. subst. apply count_find in C. destruct C as [w Hw].
    rewrite Hw. reflexivity.
  - apply count_false in C. destruct (keqb k' k) eqn:E.
    + apply keqb_eq in E. subst. rewrite C. apply find_put_same. exact C.
    + apply find_put_other. exact E.
Qed.

Lemma find_update k f m k' :
  find k' (update k f m) =
    if keqb k' k then option_map f (find k' m) else find k' m.
Proof.
  induction m as [|[k0 v0] m IH]; simpl.
  - destruct (keqb k' k); reflexivity.
  - destruct (keqb k k0) eqn:E0; simpl; destruct (keqb k' k0) eqn:E1; simpl;
      try exact IH.
    + apply keqb_eq in E0. apply keqb_eq in E1. subst.
      rewrite keqb_refl. reflexivity.
    + assert (keqb k' k = false) as ->; [|reflexivity].
      apply keqb_eq in E1. subst k0. rewrite keqb_sym. exact E0.
Qed.

Lemma find_erase k m k' :
  find k' (erase k m) = if keqb k' k then None else find k' m.
Proof.
  unfold erase. induction m as [|[k0 v0] m IH]; simpl.
  - destruct (keqb k' k); reflexivity.
  - destruct (keqb k k0) eqn:E0; simpl.
    + rewrite IH. destruct (keqb k' k) eqn:E; [reflexivity|].
      apply keqb_eq in E0. subst k0. rewrite E. reflexivity.
    + destruct (keqb k' k0) eqn:E1; [|apply IH].
      destruct (keqb k' k) eqn:E; [|reflexivity].
      apply keqb_eq in E. apply keqb_eq in E1. subst.
      rewrite keqb_refl in E0. discriminate.
Qed.

Lemma find_set k v m k' :
  find k' (set k v m) = if keqb k' k then Some v else find k' m.
Proof.
  unfold set. destruct (count k m) eqn:C.
  - rewrite find_update. destruct (keqb k' k) eqn:E; [|reflexivity].
    apply keqb_eq in E. subst. apply count_find in C. destruct C as [w ->].
    reflexivity.
  - apply count_false in C. destruct (keqb k' k) eqn:E.
    + apply keqb_eq in E. subst. apply find_put_same. exact C.
    + apply find_put_other. exact E.
Qed.

Lemma find_filter_Some (p : K * V -> bool) k v m :
  find k (filter p m) = Some v -> In (k, v) m /\ p (k, v) = true.
Proof.
  induction m as [|[k0 v0] m IH]; simpl; [discriminate|].
  destruct (p (k0, v0)) eqn:Hp; simpl.
  - destruct (keqb k k0) eqn:E.
    + intros [= ->]. apply keqb_eq in E. subst. auto.
    + intros Hf. destruct (IH Hf). auto.
  - intros Hf. destruct (IH Hf). auto.
Qed.

(** *** Entries after each operation *)

Lemma In_put e k v m : In e (put k v m) <-> e = (k, v) \/ In e m.
Proof.
  induction m as [|[k0 v0] m IH]; simpl.
  - intuition congruence.
  - destruct (kltb k k0); simpl; [intuition congruence|].
    rewrite IH. intuition congruence.
Qed.

Lemma In_insert e k v m : In e (insert k v m) -> e = (k, v) \/ In e m.
Proof.
  unfold insert. destruct (count k m); [auto|]. apply In_put.
Qed.

Lemma In_update e k f m :
  In e (update k f m) -> In e m \/ exists v, In (k, v) m /\ e = (k, f v).
Proof.
  induction m as [|[k0 v0] m IH]; simpl; [tauto|].
  destruct (keqb k k0) eqn:E; simpl.
  - apply keqb_eq in E. subst k0. intros [<-|Hin]; [right; eauto|].
    destruct (IH Hin) as [?|[v [? ?]]]; [auto|right; eauto].
  - intros [<-|Hin]; [auto|].
    destruct (IH Hin) as [?|[v [? ?]]]; [auto|right; eauto].
Qed.

Lemma In_set e k v m : In e (set k v m) -> e = (k, v) \/ In e m.
Proof.
  unfold set. destruct (count k m).
  - intros Hin. apply In_update in Hin. destruct Hin as [?|[w [? ->]]]; auto.
  - apply In_put.
Qed.

Lemma In_erase e k m : In e (erase k m) -> In e m /\ fst e <> k.
Proof.
  unfold erase. intros Hin. apply filter_In in Hin. destruct Hin as [Hin Hk].
  split; [assumption|]. apply negb_true_iff in Hk. apply keqb_neq in Hk. congruence.
Qed.

(** *** Keys *)

Lemma keys_update k f m : keys (update k f m) = keys m.
Proof.
  unfold keys. induction m as [|[k0 v0] m IH]; simpl; [reflexivity|].
  destruct (keqb k k0); simpl; rewrite IH; reflexivity.
Qed.

Lemma find_None_keys k m : find k m = None <-> ~ In k (keys m).
Proof.
  unfold keys. induction m as [|[k0 v0] m IH]; simpl; [tauto|].
  destruct (keqb k k0) eqn:E.
  - apply keqb_eq in E. subst. split; [discriminate | intros N; exfalso; auto].
  - apply keqb_neq in E. rewrite IH. split; [intros N [?|?]; [congruence|contradiction] | tauto].
Qed.

Lemma NoDup_keys_put k v m :
  find k m = None -> NoDup (keys m) -> NoDup (keys (put k v m)).
Proof.
  unfold keys. induction m as [|[k0 v0] m IH]; simpl; intros Hf Hnd.
  - constructor; [simpl; tauto | constructor].
  - destruct (keqb k k0) eqn:E; [discriminate|].
    destruct (kltb k k0); simpl.
    + constructor; [|assumption].
      simpl. intros [Heq|Hin]; [apply keqb_neq in E; congruence|].
      apply find_None_keys in Hf. apply Hf. exact Hin.
    + inversion Hnd as [|? ? Hn Hnd']; subst.
      constructor; [|auto].
      intros Hin. apply in_map_iff in Hin. destruct Hin as [[k1 v1] [Hk Hin]].
      simpl in Hk. subst k1. apply In_put in Hin. destruct Hin as [[= -> ->]|Hin].
      * apply keqb_neq in E. congruence.
      * apply Hn. apply in_map_iff. exists (k0, v1). auto.
Qed.

Lemma NoDup_keys_insert k v m : NoDup (keys m) -> NoDup (keys (insert k v m)).
Proof.
  unfold insert. destruct (count k m) eqn:C; [auto|].
  apply count_false in C. apply NoDup_keys_put. exact C.
Qed.

Lemma NoDup_keys_find k v m : NoDup (keys m) -> In (k, v) m -> find k m = Some v.
Proof.
  unfold keys. induction m as [|[k0 v0] m IH]; simpl; [tauto|].
  intros Hnd [[= -> ->]|Hin].
  - rewrite keqb_refl. reflexivity.
  - inversion Hnd as [|? ? Hn Hnd']; subst.
    destruct (keqb k k0) eqn:E; [|auto].
    apply keqb_eq in E. subst k0. exfalso. apply Hn.
    apply in_map_iff. exists (k, v). auto.
Qed.
End Ops.
Arguments t : clear implicits.
End StdMap.

Import StdMap.

(** ** Outpoints *)

Module COutPoint.
Record t := mk { hash : uint256; n : Z }.

Definition eqb (a b : t) : bool := (hash a =? hash b) && (n a =? n b).

(** [operator<]: by transaction hash, then by output index. *)
Definition ltb (a b : t) : bool :=
  (hash a <? hash b) || ((hash a =? hash b) && (n a <? n b)).

Lemma eqb_eq a b : eqb a b = true <-> a = b.
Proof.
  unfold eqb. destruct a as [h1 n1], b as [h2 n2]; simpl.
  rewrite andb_true_iff, !Z.eqb_eq. split.
  - intros [-> ->]. reflexivity.
  - intros [= -> ->]. auto.
Qed.
End COutPoint.

#[export] Instance OrdKey_COutPoint : OrdKey COutPoint.t :=
  {| keqb := COutPoint.eqb; kltb := COutPoint.ltb; keqb_eq := COutPoint.eqb_eq |}.

(** [insert] into a [std::set<uint256>], an increasing list: an element
    that is there is not added again. *)
Fixpoint set_insert (h : uint256) (s : list uint256) : list uint256 :=
  match s with
  | [] => [h]
  | x :: s' => if h =? x then s else if h <? x then h :: s else x :: set_insert h s'
  end.

Definition CScript := list Z.
Definition Signature := list Z.
Definition CPubKey := list Z.

(** ** Constants and pure helpers declared outside instantx.cpp

    The constants come from instantx.h, chainparams and protocol.h, the
    script predicates from script.h, the printers from uint256.h and
    primitives/transaction.h, and [SerializeHash3] is the [CHashWriter] digest
    of the three identity fields of a vote.  None of them is in the source
    file under study, so the engine is parametric in them. *)

Class Params := {
    SIGNATURES_TOTAL : Z;
    SIGNATURES_REQUIRED : Z;
    DIRECTSEND_LOCK_TIMEOUT_SECONDS : Z;
    DIRECTSEND_FAILED_TIMEOUT_SECONDS : Z;
    DIRECTSEND_CONFIRMATIONS_REQUIRED : Z;
    nDirectSendKeepLock : Z;
    MIN_FEE : Z;
    COIN : Z;
    MIN_DIRECTSEND_PROTO_VERSION : Z;
    TXLOCKVOTE : string;
    SerializeHash3 : uint256 -> COutPoint.t -> COutPoint.t -> uint256;
    hashNullTx : uint256;
    uint256_ToString : uint256 -> string;
    COutPoint_ToStringShort : COutPoint.t -> string;
    IsNormalPaymentScript : CScript -> bool;
    IsUnspendable : CScript -> bool
  }.

(** The unspent coin that [GetUTXOCoins(outpoint, coins)] hands back: the
    height of the creating transaction and the value of the output
    [coins.vout[outpoint.n]]. *)
Record CCoins := { coin_nHeight : Z; coin_nValue : Z }.

(** ** The collaborators read by the engine *)

Record Env := {
    fLiteMode : bool;
    fMasterNode : bool;
    fEnableDirectSend : bool;
    fLargeWorkForkFound : bool;
    fLargeWorkInvalidChainFound : bool;
    fDIP0001ActiveAtTip : bool;
    SPORK_2_DIRECTSEND_ENABLED : bool;
    SPORK_3_DIRECTSEND_BLOCK_FILTERING : bool;
    SPORK_5_DIRECTSEND_MAX_VALUE : Z;
    IsMasternodeListSynced : bool;
    GetTime : Z;
    chainActive_Height : Z;
    GetUTXOCoins : COutPoint.t -> option CCoins;
    mapNextTx : COutPoint.t -> option uint256;
    (** [GetTransaction(hash, ..., hashBlock, true)]: [None] when it fails,
        the containing block hash (null when unconfirmed) otherwise. *)
    GetTransaction : uint256 -> option uint256;
    mapBlockIndex : uint256 -> option Z;
    CheckFinalTx : uint256 -> bool;
    mnodeman_Has : COutPoint.t -> bool;
    GetMasternodeRank : COutPoint.t -> Z -> Z -> option Z;
    GetMasternodeInfo : COutPoint.t -> option CPubKey;
    VerifyMessage : CPubKey -> Signature -> string -> bool;
    activeMasternode_outpoint : COutPoint.t;
    activeMasternode_pubKeyMasternode : CPubKey;
    SignMessage : string -> option Signature;
    pwalletMain : bool;
    UpdatedTransaction : uint256 -> bool;
    directsendnotify : string
  }.

(** [GetUTXOHeight]: the height of the coin, [-1] when it is not unspent. *)
Definition GetUTXOHeight (E : Env) (o : COutPoint.t) : Z :=
  match GetUTXOCoins E o with Some c => coin_nHeight c | None => -1 end.

(** ** Calls that leave the engine *)

Inductive Event :=
  | EvRelayVote (nVoteHash : uint256)
  | EvPoSeBan (mn : COutPoint.t)
  | EvAskForMN (mn : COutPoint.t)
  | EvNotifyTransactionLock (txHash : uint256)
  | EvRunCommand (strCmd : string) (txHash : uint256).

(** ** CTxLockVote *)

Module CTxLockVote.
Record t := mk {
    txHash : uint256;
    outpoint : COutPoint.t;
    outpointMasternode : COutPoint.t;
    vchMasternodeSignature : Signature;
    nConfirmedHeight : Z;
    nTimeCreated : Z
  }.

Section WithParams.
Context {P : Params}.

Definition GetTxHash (v : t) := txHash v.
Definition GetOutpoint (v : t) := outpoint v.
Definition GetMasternodeOutpoint (v : t) := outpointMasternode v.

Definition GetHash (v : t) : uint256 :=
  SerializeHash3 (txHash v) (outpoint v) (outpointMasternode v).

(** Modelled from the spec: the constructors of instantx.h are not in the
    source file; section 3 gives a vote [confirmed_height = -1] and a
    creation time, which a node sets to its clock. *)
Definition create (now : Z) (txHashIn : uint256) (outpointIn mnIn : COutPoint.t) : t :=
  mk txHashIn outpointIn mnIn [] (-1) now.

(** Modelled from the spec: the default constructor is in instantx.h.  This
    is the vote that [operator[]] inserts under a new key: null hash and
    outpoints, the defaults of [create] for the rest. *)
Definition null (now : Z) : t :=
  mk 0 (COutPoint.mk 0 (-1)) (COutPoint.mk 0 (-1)) [] (-1) now.

(** Modelled from the spec: the setter is an inline member of instantx.h;
    section 4.8 has the confirmed height written into a vote. *)
Definition SetConfirmedHeight (h : Z) (v : t) : t :=
  mk (txHash v) (outpoint v) (outpointMasternode v) (vchMasternodeSignature v)
     h (nTimeCreated v).

Definition strMessage (v : t) : string :=
  String.append (uint256_ToString (txHash v)) (COutPoint_ToStringShort (outpoint v)).

Definition CheckSignature (E : Env) (v : t) : bool :=
  match GetMasternodeInfo E (outpointMasternode v) with
  | None => false
  | Some pubKeyMasternode =>
      VerifyMessage E pubKeyMasternode (vchMasternodeSignature v) (strMessage v)
  end.

(** [Sign]: [None] when signing or the check of the fresh signature fails. *)
Definition Sign (E : Env) (v : t) : option t :=
  match SignMessage E (strMessage v) with
  | None => None
  | Some sig =>
      if VerifyMessage E (activeMasternode_pubKeyMasternode E) sig (strMessage v)
      then Some (mk (txHash v) (outpoint v) (outpointMasternode v) sig
                    (nConfirmedHeight v) (nTimeCreated v))
      else None
  end.

(** [IsValid]: the verdict, and the request for the unknown masternode
    that the first test sends. *)
Definition IsValid (E : Env) (v : t) : bool * list Event :=
  if negb (mnodeman_Has E (outpointMasternode v)) then
    (false, [EvAskForMN (outpointMasternode v)])
  else
    match GetUTXOCoins E (outpoint v) with
    | None => (false, [])
    | Some coins =>
        let nLockInputHeight := coin_nHeight coins + 4 in
        match GetMasternodeRank E (outpointMasternode v) nLockInputHeight
                                MIN_DIRECTSEND_PROTO_VERSION with
        | None => (false, [])
        | Some nRank =>
            if nRank >? SIGNATURES_TOTAL then (false, [])
            else if negb (CheckSignature E v) then (false, [])
            else (true, [])
        end
    end.

Definition IsExpired (nHeight : Z) (v : t) : bool :=
  negb (nConfirmedHeight v =? -1) && (nHeight - nConfirmedHeight v >? nDirectSendKeepLock).

Definition IsTimedOut (E : Env) (v : t) : bool :=
  GetTime E - nTimeCreated v >? DIRECTSEND_LOCK_TIMEOUT_SECONDS.
End WithParams.
End CTxLockVote.

(** ** COutPointLock *)

Module COutPointLock.
Record t := mk {
    outpoint : COutPoint.t;
    mapMasternodeVotes : StdMap.t COutPoint.t CTxLockVote.t;
    fAttacked : bool
  }.

Definition create (o : COutPoint.t) : t := mk o [] false.

Definition AddVote (vote : CTxLockVote.t) (L : t) : t * bool :=
  if count (CTxLockVote.GetMasternodeOutpoint vote) (mapMasternodeVotes L) then
    (L, false)
  else
    (mk (outpoint L)
        (insert (CTxLockVote.GetMasternodeOutpoint vote) vote (mapMasternodeVotes L))
        (fAttacked L),
     true).

Definition GetVotes (L : t) : list CTxLockVote.t := map snd (mapMasternodeVotes L).

Definition HasMasternodeVoted (mn : COutPoint.t) (L : t) : bool :=
  count mn (mapMasternodeVotes L).

(** Modelled from the spec: [CountVotes] is an inline member of
    instantx.h, which is not in the source file.  Section 4.1: [count()] is
    the number of votes. *)
Definition CountVotes (L : t) : Z := size (mapMasternodeVotes L).

(** Modelled from the spec: [IsReady] is an inline member of instantx.h.
    Section 4.1: [is_ready()] is [count >= SIGS_REQUIRED].  The properties
    below take readiness as a hypothesis and do not depend on how it is
    computed. *)
Definition IsReady {P : Params} (L : t) : bool :=
  CountVotes L >=? SIGNATURES_REQUIRED.

(** Modelled from the spec: [MarkAsAttacked] is an inline member of
    instantx.h.  Section 4.1: [mark_attacked()] sets [attacked = true]. *)
Definition MarkAsAttacked (L : t) : t :=
  mk (outpoint L) (mapMasternodeVotes L) true.

Definition Relay {P : Params} (L : t) : list Event :=
  map (fun v => EvRelayVote (CTxLockVote.GetHash v)) (GetVotes L).
End COutPointLock.

(** ** Machine integers that the code converts between *)

Definition to_uint64 (z : Z) : Z := z mod 2 ^ 64.
Definition to_int64 (z : Z) : Z := (z + 2 ^ 63) mod 2 ^ 64 - 2 ^ 63.
Definition to_int32 (z : Z) : Z := (z + 2 ^ 31) mod 2 ^ 32 - 2 ^ 31.

Lemma to_uint64_small z : 0 <= z < 2 ^ 64 -> to_uint64 z = z.
Proof. intros Hz. unfold to_uint64. apply Z.mod_small. exact Hz. Qed.

Lemma to_int64_small z : - 2 ^ 63 <= z < 2 ^ 63 -> to_int64 z = z.
Proof. intros Hz. unfold to_int64. rewrite Z.mod_small; lia. Qed.

(** ** CTxLockRequest *)

Record CTxIn := { prevout : COutPoint.t }.
Record CTxOut := { nValue : Z; scriptPubKey : CScript }.

Module CTxLockRequest.
(** A transaction: [txid] is its [GetHash()]. *)
Record t := mk { txid : uint256; vin : list CTxIn; vout : list CTxOut }.

Section WithParams.
Context {P : Params}.

Definition GetHash (r : t) : uint256 := txid r.

(** [CTxLockRequest()], the request of a candidate created for an orphan
    vote. *)
Definition null : t := mk hashNullTx [] [].

(** Modelled from the spec: [operator bool] is declared in instantx.h; the
    request of a candidate "may be absent" (section 3), which the code
    tests as [!txLockRequest]: the request is the default-constructed one. *)
Definition is_set (r : t) : bool := negb (txid r =? hashNullTx).

Definition GetMinFee (E : Env) (r : t) : Z :=
  let nMinFee := if fDIP0001ActiveAtTip E then Z.quot MIN_FEE 10 else MIN_FEE in
  Z.max nMinFee
        (to_int64 (to_uint64 (to_uint64 (Z.of_nat (List.length (vin r)))
                              * to_uint64 nMinFee))).

Definition GetMaxSignatures (r : t) : Z :=
  Z.of_nat (List.length (vin r)) * SIGNATURES_TOTAL.

(** The loop over [vout]: [None] is its [return false].  [nValueOut] is a
    [CAmount], and [nValueOut += txout.nValue] an addition of [int64_t]. *)
Fixpoint sum_vout (outs : list CTxOut) (nValueOut : Z) : option Z :=
  match outs with
  | [] => Some nValueOut
  | txout :: rest =>
      if negb (IsNormalPaymentScript (scriptPubKey txout))
         && negb (IsUnspendable (scriptPubKey txout))
      then None
      else sum_vout rest (to_int64 (nValueOut + nValue txout))
  end.

(** The loop over [vin]: [None] is its [return false].  [nValueIn] is a
    [CAmount] as well. *)
Fixpoint sum_vin (E : Env) (ins : list CTxIn) (nValueIn : Z) : option Z :=
  match ins with
  | [] => Some nValueIn
  | txin :: rest =>
      match GetUTXOCoins E (prevout txin) with
      | None => None
      | Some coins =>
          let nTxAge := chainActive_Height E - coin_nHeight coins + 1 in
          let nConfirmationsRequired := DIRECTSEND_CONFIRMATIONS_REQUIRED - 1 in
          if nTxAge <? nConfirmationsRequired then None
          else sum_vin E rest (to_int64 (nValueIn + coin_nValue coins))
      end
  end.

(** The spork value and [COIN] are [int64_t], and so are their product and
    the difference [nValueIn - nValueOut]. *)
Definition IsValid (E : Env) (r : t) : bool :=
  if Z.of_nat (List.length (vout r)) <? 1 then false
  else if negb (CheckFinalTx E (txid r)) then false
  else
    match sum_vout (vout r) 0 with
    | None => false
    | Some nValueOut =>
        match sum_vin E (vin r) 0 with
        | None => false
        | Some nValueIn =>
            if nValueIn >? to_int64 (SPORK_5_DIRECTSEND_MAX_VALUE E * COIN) then false
            else if to_int64 (nValueIn - nValueOut) <? GetMinFee E r then false
            else true
        end
    end.
End WithParams.
End CTxLockRequest.

(** ** CTxLockCandidate *)

Module CTxLockCandidate.
Record t := mk {
    txLockRequest : CTxLockRequest.t;
    mapOutPointLocks : StdMap.t COutPoint.t COutPointLock.t;
    nConfirmedHeight : Z;
    nTimeCreated : Z
  }.

Section WithParams.
Context {P : Params}.

(** Modelled from the spec: the constructor is in instantx.h; the source
    calls it as [CTxLockCandidate(txLockRequest)], and section 3 gives a new
    candidate no outpoint locks, [confirmed_height = -1] and its creation
    time. *)
Definition create (now : Z) (r : CTxLockRequest.t) : t := mk r [] (-1) now.

(** [GetHash] is an inline member of instantx.h.  The source builds a
    candidate from its request alone and takes
    [txLockCandidate.txLockRequest.GetHash()] for the hash of the candidate in
    [TryToFinalizeLockCandidate]: the hash of a candidate is that of its
    request. *)
Definition GetHash (c : t) : uint256 := CTxLockRequest.GetHash (txLockRequest c).

Definition set_locks (c : t) (locks : StdMap.t COutPoint.t COutPointLock.t) : t :=
  mk (txLockRequest c) locks (nConfirmedHeight c) (nTimeCreated c).

Definition set_request (r : CTxLockRequest.t) (c : t) : t :=
  mk r (mapOutPointLocks c) (nConfirmedHeight c) (nTimeCreated c).

Definition AddOutPointLock (o : COutPoint.t) (c : t) : t :=
  set_locks c (insert o (COutPointLock.create o) (mapOutPointLocks c)).

Definition MarkOutpointAsAttacked (o : COutPoint.t) (c : t) : t :=
  set_locks c (update o COutPointLock.MarkAsAttacked (mapOutPointLocks c)).

Definition AddVote (vote : CTxLockVote.t) (c : t) : t * bool :=
  match find (CTxLockVote.GetOutpoint vote) (mapOutPointLocks c) with
  | None => (c, false)
  | Some L =>
      let (L', ok) := COutPointLock.AddVote vote L in
      (set_locks c (update (CTxLockVote.GetOutpoint vote) (fun _ => L')
                           (mapOutPointLocks c)),
       ok)
  end.

Definition IsAllOutPointsReady (c : t) : bool :=
  match mapOutPointLocks c with
  | [] => false
  | locks => forallb (fun e => COutPointLock.IsReady (snd e)) locks
  end.

Definition HasMasternodeVoted (o mn : COutPoint.t) (c : t) : bool :=
  match find o (mapOutPointLocks c) with
  | None => false
  | Some L => COutPointLock.HasMasternodeVoted mn L
  end.

Definition CountVotes (c : t) : Z :=
  fold_left (fun acc e => acc + COutPointLock.CountVotes (snd e)) (mapOutPointLocks c) 0.

Definition IsExpired (nHeight : Z) (c : t) : bool :=
  negb (nConfirmedHeight c =? -1) && (nHeight - nConfirmedHeight c >? nDirectSendKeepLock).

Definition IsTimedOut (E : Env) (c : t) : bool :=
  GetTime E - nTimeCreated c >? DIRECTSEND_LOCK_TIMEOUT_SECONDS.

(** Modelled from the spec: [SetConfirmedHeight] is an inline member of
    instantx.h, which is not in the source file.  Section 4.2:
    [set_confirmed_height(h)] sets the height of the candidate and "also
    propagates [h] to every contained vote", the votes that the outpoint
    locks of the candidate hold. *)
Definition SetConfirmedHeight (h : Z) (c : t) : t :=
  mk (txLockRequest c)
     (map (fun e =>
             (fst e,
              COutPointLock.mk
                (COutPointLock.outpoint (snd e))
                (map (fun ev => (fst ev, CTxLockVote.SetConfirmedHeight h (snd ev)))
                     (COutPointLock.mapMasternodeVotes (snd e)))
                (COutPointLock.fAttacked (snd e))))
          (mapOutPointLocks c))
     h (nTimeCreated c).

Definition Relay (c : t) : list Event :=
  flat_map (fun e => COutPointLock.Relay (snd e)) (mapOutPointLocks c).
End WithParams.
End CTxLockCandidate.

(** The peer a message comes from, as far as the engine touches it. *)
Record CNode := { nVersion : Z; setAskFor : list uint256 }.

(** ** CDirectSend *)

Module CDirectSend.
Record t := mk {
    mapLockRequestAccepted : StdMap.t uint256 CTxLockRequest.t;
    mapLockRequestRejected : StdMap.t uint256 CTxLockRequest.t;
    mapTxLockVotes : StdMap.t uint256 CTxLockVote.t;
    mapTxLockVotesOrphan : StdMap.t uint256 CTxLockVote.t;
    mapTxLockCandidates : StdMap.t uint256 CTxLockCandidate.t;
    mapVotedOutpoints : StdMap.t COutPoint.t (list uint256);
    mapLockedOutpoints : StdMap.t COutPoint.t uint256;
    mapMasternodeOrphanVotes : StdMap.t COutPoint.t Z;
    nCachedBlockHeight : Z;
    nCompleteTXLocks : Z;
    events : list Event
  }.

Definition empty : t := mk [] [] [] [] [] [] [] [] 0 0 [].

Definition set_accepted f (s : t) : t :=
  mk (f (mapLockRequestAccepted s)) (mapLockRequestRejected s) (mapTxLockVotes s)
     (mapTxLockVotesOrphan s) (mapTxLockCandidates s) (mapVotedOutpoints s)
     (mapLockedOutpoints s) (mapMasternodeOrphanVotes s) (nCachedBlockHeight s)
     (nCompleteTXLocks s) (events s).
Definition set_rejected f (s : t) : t :=
  mk (mapLockRequestAccepted s) (f (mapLockRequestRejected s)) (mapTxLockVotes s)
     (mapTxLockVotesOrphan s) (mapTxLockCandidates s) (mapVotedOutpoints s)
     (mapLockedOutpoints s) (mapMasternodeOrphanVotes s) (nCachedBlockHeight s)
     (nCompleteTXLocks s) (events s).
Definition set_votes f (s : t) : t :=
  mk (mapLockRequestAccepted s) (mapLockRequestRejected s) (f (mapTxLockVotes s))
     (mapTxLockVotesOrphan s) (mapTxLockCandidates s) (mapVotedOutpoints s)
     (mapLockedOutpoints s) (mapMasternodeOrphanVotes s) (nCachedBlockHeight s)
     (nCompleteTXLocks s) (events s).
Definition set_orphans f (s : t) : t :=
  mk (mapLockRequestAccepted s) (mapLockRequestRejected s) (mapTxLockVotes s)
     (f (mapTxLockVotesOrphan s)) (mapTxLockCandidates s) (mapVotedOutpoints s)
     (mapLockedOutpoints s) (mapMasternodeOrphanVotes s) (nCachedBlockHeight s)
     (nCompleteTXLocks s) (events s).
Definition set_candidates f (s : t) : t :=
  mk (mapLockRequestAccepted s) (mapLockRequestRejected s) (mapTxLockVotes s)
     (mapTxLockVotesOrphan s) (f (mapTxLockCandidates s)) (mapVotedOutpoints s)
     (mapLockedOutpoints s) (mapMasternodeOrphanVotes s) (nCachedBlockHeight s)
     (nCompleteTXLocks s) (events s).
Definition set_voted f (s : t) : t :=
  mk (mapLockRequestAccepted s) (mapLockRequestRejected s) (mapTxLockVotes s)
     (mapTxLockVotesOrphan s) (mapTxLockCandidates s) (f (mapVotedOutpoints s))
     (mapLockedOutpoints s) (mapMasternodeOrphanVotes s) (nCachedBlockHeight s)
     (nCompleteTXLocks s) (events s).
Definition set_locked f (s : t) : t :=
  mk (mapLockRequestAccepted s) (mapLockRequestRejected s) (mapTxLockVotes s)
     (mapTxLockVotesOrphan s) (mapTxLockCandidates s) (mapVotedOutpoints s)
     (f (mapLockedOutpoints s)) (mapMasternodeOrphanVotes s) (nCachedBlockHeight s)
     (nCompleteTXLocks s) (events s).
Definition set_mnorphans f (s : t) : t :=
  mk (mapLockRequestAccepted s) (mapLockRequestRejected s) (mapTxLockVotes s)
     (mapTxLockVotesOrphan s) (mapTxLockCandidates s) (mapVotedOutpoints s)
     (mapLockedOutpoints s) (f (mapMasternodeOrphanVotes s)) (nCachedBlockHeight s)
     (nCompleteTXLocks s) (events s).
Definition set_height (h : Z) (s : t) : t :=
  mk (mapLockRequestAccepted s) (mapLockRequestRejected s) (mapTxLockVotes s)
     (mapTxLockVotesOrphan s) (mapTxLockCandidates s) (mapVotedOutpoints s)
     (mapLockedOutpoints s) (mapMasternodeOrphanVotes s) h
     (nCompleteTXLocks s) (events s).
Definition set_complete (c : Z) (s : t) : t :=
  mk (mapLockRequestAccepted s) (mapLockRequestRejected s) (mapTxLockVotes s)
     (mapTxLockVotesOrphan s) (mapTxLockCandidates s) (mapVotedOutpoints s)
     (mapLockedOutpoints s) (mapMasternodeOrphanVotes s) (nCachedBlockHeight s)
     c (events s).
Definition emit (evs : list Event) (s : t) : t :=
  mk (mapLockRequestAccepted s) (mapLockRequestRejected s) (mapTxLockVotes s)
     (mapTxLockVotesOrphan s) (mapTxLockCandidates s) (mapVotedOutpoints s)
     (mapLockedOutpoints s) (mapMasternodeOrphanVotes s) (nCachedBlockHeight s)
     (nCompleteTXLocks s) (events s ++ evs).

Section WithParams.
Context {P : Params}.

Definition GetLockedOutPointTxHash (s : t) (o : COutPoint.t) : option uint256 :=
  find o (mapLockedOutpoints s).

Definition IsLockedDirectSendTransaction (E : Env) (s : t) (txHash : uint256) : bool :=
  if negb (fEnableDirectSend E) || fLargeWorkForkFound E
     || fLargeWorkInvalidChainFound E || negb (SPORK_3_DIRECTSEND_BLOCK_FILTERING E)
  then false
  else
    match find txHash (mapTxLockCandidates s) with
    | None => false
    | Some c =>
        match CTxLockCandidate.mapOutPointLocks c with
        | [] => false
        | locks =>
            forallb (fun e =>
                       match GetLockedOutPointTxHash s (fst e) with
                       | None => false
                       | Some hashLocked => hashLocked =? txHash
                       end) locks
        end
    end.

(** [CTxLockVote::IsFailed], which reads the engine. *)
Definition IsFailed (E : Env) (s : t) (v : CTxLockVote.t) : bool :=
  (GetTime E - CTxLockVote.nTimeCreated v >? DIRECTSEND_FAILED_TIMEOUT_SECONDS)
  && negb (IsLockedDirectSendTransaction E s (CTxLockVote.GetTxHash v)).

(** The quotient is [None] where the C++ division has a zero divisor.  The
    sum is an [int64_t]; it meets the [size_t] count as an unsigned 64-bit
    number and the quotient goes back to [int64_t]. *)
Definition GetAverageMasternodeOrphanVoteTime (s : t) : option Z :=
  match mapMasternodeOrphanVotes s with
  | [] => Some 0
  | m =>
      let total := fold_left (fun acc e => to_int64 (acc + snd e)) m 0 in
      let d := size m in
      if d =? 0 then None else Some (to_int64 (to_uint64 total / d))
  end.

(** *** CheckAndRemove *)

Definition erase_candidate (k : uint256) (c : CTxLockCandidate.t) (s : t) : t :=
  let outs := keys (CTxLockCandidate.mapOutPointLocks c) in
  let txHash := CTxLockCandidate.GetHash c in
  set_candidates (erase k)
    (set_rejected (erase txHash)
       (set_accepted (erase txHash)
          (set_voted (fun m => fold_left (fun m o => erase o m) outs m)
             (set_locked (fun m => fold_left (fun m o => erase o m) outs m) s)))).

(** First loop: the candidates are visited in key order; [cs] is what is
    left to visit. *)
Fixpoint remove_expired_candidates (cs : list (uint256 * CTxLockCandidate.t)) (s : t) : t :=
  match cs with
  | [] => s
  | (k, c) :: rest =>
      remove_expired_candidates rest
        (if CTxLockCandidate.IsExpired (nCachedBlockHeight s) c
         then erase_candidate k c s else s)
  end.

(** Third loop: a timed out orphan vote leaves both vote maps. *)
Fixpoint remove_timed_out_orphans (E : Env) (os : list (uint256 * CTxLockVote.t)) (s : t) : t :=
  match os with
  | [] => s
  | (k, v) :: rest =>
      remove_timed_out_orphans E rest
        (if CTxLockVote.IsTimedOut E v
         then set_orphans (erase k) (set_votes (erase k) s) else s)
  end.

Definition CheckAndRemove (E : Env) (s : t) : t :=
  if negb (IsMasternodeListSynced E) then s
  else
    let s1 := remove_expired_candidates (mapTxLockCandidates s) s in
    let s2 := set_votes
                (filter (fun e => negb (CTxLockVote.IsExpired (nCachedBlockHeight s1) (snd e))))
                s1 in
    let s3 := remove_timed_out_orphans E (mapTxLockVotesOrphan s2) s2 in
    let s4 := set_votes (filter (fun e => negb (IsFailed E s3 (snd e)))) s3 in
    set_mnorphans (filter (fun e => negb (snd e <? GetTime E))) s4.

(** *** Finalization *)

Definition LockTransactionInputs (E : Env) (c : CTxLockCandidate.t) (s : t) : t :=
  if negb (SPORK_2_DIRECTSEND_ENABLED E) then s
  else if negb (CTxLockCandidate.IsAllOutPointsReady c) then s
  else
    let txHash := CTxLockCandidate.GetHash c in
    set_locked (fun m => fold_left (fun m o => insert o txHash m)
                                   (keys (CTxLockCandidate.mapOutPointLocks c)) m) s.

Definition UpdateLockedTransaction (E : Env) (c : CTxLockCandidate.t) (s : t) : t :=
  let txHash := CTxLockCandidate.GetHash c in
  if negb (IsLockedDirectSendTransaction E s txHash) then s
  else
    let s1 :=
      if pwalletMain E && UpdatedTransaction E txHash then
        let s' := set_complete (nCompleteTXLocks s + 1) s in
        if String.eqb (directsendnotify E) EmptyString then s'
        else emit [EvRunCommand (directsendnotify E) txHash] s'
      else s in
    emit [EvNotifyTransactionLock (CTxLockRequest.GetHash (CTxLockCandidate.txLockRequest c))] s1.

(** The two [SetConfirmedHeight(0)] calls of [ResolveConflicts]. *)
Definition expire_both (txHash hashConflicting : uint256) (s : t) : t :=
  set_candidates (update hashConflicting (CTxLockCandidate.SetConfirmedHeight 0))
    (set_candidates (update txHash (CTxLockCandidate.SetConfirmedHeight 0)) s).

(** The branch of [ResolveConflicts] for a completed lock of another
    transaction on one of the inputs. *)
Definition drop_both (E : Env) (txHash hashConflicting : uint256) (s : t) : t * bool :=
  match find txHash (mapTxLockCandidates s),
        find hashConflicting (mapTxLockCandidates s) with
  | Some c1, Some c2 =>
      let txLockRequest := CTxLockCandidate.txLockRequest c1 in
      let txLockRequestConflicting := CTxLockCandidate.txLockRequest c2 in
      let s3 := CheckAndRemove E (expire_both txHash hashConflicting s) in
      let s4 := set_rejected (insert txHash txLockRequest) s3 in
      (set_rejected (insert hashConflicting txLockRequestConflicting) s4, false)
  | _, _ => (s, false)
  end.

(** The first loop of [ResolveConflicts] over the inputs: [Some r] when the
    loop returns [r], [None] when it runs to its end. *)
Fixpoint scan_conflicts (E : Env) (txHash : uint256) (ins : list CTxIn) (s : t)
  : option (t * bool) :=
  match ins with
  | [] => None
  | txin :: rest =>
      let locked_by_other :=
        match GetLockedOutPointTxHash s (prevout txin) with
        | Some hashConflicting =>
            if negb (txHash =? hashConflicting) then Some hashConflicting else None
        | None => None
        end in
      match locked_by_other with
      | Some hashConflicting => Some (drop_both E txHash hashConflicting s)
      | None =>
          match mapNextTx E (prevout txin) with
          | Some hashConflicting =>
              if txHash =? hashConflicting then scan_conflicts E txHash rest s
              else Some (s, false)
          | None => scan_conflicts E txHash rest s
          end
      end
  end.

Definition ResolveConflicts (E : Env) (c : CTxLockCandidate.t) (s : t) : t * bool :=
  let txHash := CTxLockCandidate.GetHash c in
  if negb (CTxLockCandidate.IsAllOutPointsReady c) then (s, false)
  else
    match scan_conflicts E txHash (CTxLockRequest.vin (CTxLockCandidate.txLockRequest c)) s with
    | Some r => r
    | None =>
        let in_block :=
          match GetTransaction E txHash with
          | Some hashBlock => negb (hashBlock =? 0)
          | None => false
          end in
        if in_block then (s, true)
        else
          (s, forallb (fun txin =>
                         match GetUTXOCoins E (prevout txin) with
                         | Some _ => true
                         | None => false
                         end)
                      (CTxLockRequest.vin (CTxLockCandidate.txLockRequest c)))
    end.

(** [c] is the candidate that the reference argument designates. *)
Definition TryToFinalizeLockCandidate (E : Env) (c : CTxLockCandidate.t) (s : t) : t :=
  if negb (SPORK_2_DIRECTSEND_ENABLED E) then s
  else
    let txHash := CTxLockRequest.GetHash (CTxLockCandidate.txLockRequest c) in
    if CTxLockCandidate.IsAllOutPointsReady c
       && negb (IsLockedDirectSendTransaction E s txHash)
    then
      let (s1, ok) := ResolveConflicts E c s in
      if ok then UpdateLockedTransaction E c (LockTransactionInputs E c s1) else s1
    else s.

(** *** Candidates *)

Definition add_inputs (ins : list CTxIn) (c : CTxLockCandidate.t) : CTxLockCandidate.t :=
  fold_left (fun c txin => CTxLockCandidate.AddOutPointLock (prevout txin) c) (rev ins) c.

Definition CreateTxLockCandidate (E : Env) (txLockRequest : CTxLockRequest.t) (s : t)
  : t * bool :=
  if negb (CTxLockRequest.IsValid E txLockRequest) then (s, false)
  else
    let txHash := CTxLockRequest.GetHash txLockRequest in
    match find txHash (mapTxLockCandidates s) with
    | None =>
        let c := add_inputs (CTxLockRequest.vin txLockRequest)
                            (CTxLockCandidate.create (GetTime E) txLockRequest) in
        (set_candidates (insert txHash c) s, true)
    | Some c =>
        if negb (CTxLockRequest.is_set (CTxLockCandidate.txLockRequest c)) then
          let s1 := set_candidates
                      (update txHash (CTxLockCandidate.set_request txLockRequest)) s in
          if CTxLockCandidate.IsTimedOut E c then (s1, false)
          else
            (set_candidates
               (update txHash (add_inputs (CTxLockRequest.vin txLockRequest))) s1,
             true)
        else (s, true)
    end.

Definition CreateEmptyTxLockCandidate (E : Env) (txHash : uint256) (s : t) : t :=
  match find txHash (mapTxLockCandidates s) with
  | Some _ => s
  | None =>
      set_candidates
        (insert txHash (CTxLockCandidate.create (GetTime E) CTxLockRequest.null)) s
  end.

(** *** Votes of this node *)

(** The scan of [mapVotedOutpoints[o]] in [Vote]: has this masternode a
    vote on [o] in one of the candidates?  The code dereferences the result
    of [find(hash)] unchecked: [None] when it is [end()]. *)
Fixpoint already_voted (E : Env) (o : COutPoint.t) (hashes : list uint256) (s : t)
  : option bool :=
  match hashes with
  | [] => Some false
  | hash :: rest =>
      match find hash (mapTxLockCandidates s) with
      | None => None
      | Some c2 =>
          if CTxLockCandidate.HasMasternodeVoted o (activeMasternode_outpoint E) c2
          then Some true
          else already_voted E o rest s
      end
  end.

Definition add_voted (o : COutPoint.t) (txHash : uint256) (s : t) : t :=
  match find o (mapVotedOutpoints s) with
  | None => set_voted (insert o [txHash]) s
  | Some _ => set_voted (update o (set_insert txHash)) s
  end.

(** The loop of [Vote] over the outpoint locks of the candidate stored at
    [key]; [outs] are the outpoints still to visit. *)
Fixpoint vote_outpoints (E : Env) (key txHash : uint256) (outs : list COutPoint.t) (s : t)
  : option t :=
  match outs with
  | [] => Some s
  | o :: rest =>
      let nPrevoutHeight := GetUTXOHeight E o in
      if nPrevoutHeight =? -1 then Some s
      else
        let nLockInputHeight := nPrevoutHeight + 4 in
        match GetMasternodeRank E (activeMasternode_outpoint E) nLockInputHeight
                                MIN_DIRECTSEND_PROTO_VERSION with
        | None => vote_outpoints E key txHash rest s
        | Some nRank =>
            if nRank >? SIGNATURES_TOTAL then vote_outpoints E key txHash rest s
            else
              let fAlreadyVoted :=
                match find o (mapVotedOutpoints s) with
                | None => Some false
                | Some hashes => already_voted E o hashes s
                end in
              match fAlreadyVoted with
              | None => None
              | Some true => vote_outpoints E key txHash rest s
              | Some false =>
                  match CTxLockVote.Sign E
                          (CTxLockVote.create (GetTime E) txHash o
                                              (activeMasternode_outpoint E)) with
                  | None => Some s
                  | Some vote =>
                      if negb (CTxLockVote.CheckSignature E vote) then Some s
                      else
                        let nVoteHash := CTxLockVote.GetHash vote in
                        let s1 := set_votes (insert nVoteHash vote) s in
                        match find key (mapTxLockCandidates s1) with
                        | None => None
                        | Some c =>
                            let (c', ok) := CTxLockCandidate.AddVote vote c in
                            let s2 := set_candidates (update key (fun _ => c')) s1 in
                            if ok then
                              vote_outpoints E key txHash rest
                                (emit [EvRelayVote nVoteHash] (add_voted o txHash s2))
                            else vote_outpoints E key txHash rest s2
                        end
                  end
              end
        end
  end.

(** [Vote] on the candidate stored at [key]. *)
Definition Vote (E : Env) (key : uint256) (s : t) : option t :=
  if negb (fMasterNode E) then Some s
  else if negb (SPORK_2_DIRECTSEND_ENABLED E) then Some s
  else
    match find key (mapTxLockCandidates s) with
    | None => None
    | Some c =>
        vote_outpoints E key (CTxLockCandidate.GetHash c)
                       (keys (CTxLockCandidate.mapOutPointLocks c)) s
    end.

(** *** Orphan votes *)

(** The count stops at the threshold; the result is whether it got there. *)
Definition IsEnoughOrphanVotesForTxAndOutPoint (s : t) (txHash : uint256) (o : COutPoint.t)
  : bool :=
  Z.of_nat (List.length
              (filter (fun e => (CTxLockVote.GetTxHash (snd e) =? txHash)
                                && keqb (CTxLockVote.GetOutpoint (snd e)) o)
                      (mapTxLockVotesOrphan s)))
  >=? Z.max 1 SIGNATURES_REQUIRED.

Definition IsEnoughOrphanVotesForTx (s : t) (r : CTxLockRequest.t) : bool :=
  forallb (fun txin =>
             IsEnoughOrphanVotesForTxAndOutPoint s (CTxLockRequest.GetHash r) (prevout txin))
          (CTxLockRequest.vin r).

(** The rate limiter on orphan votes at the end of the orphan branch. *)
Definition orphan_rate_limit (E : Env) (vote : CTxLockVote.t) (s : t) : option (t * bool) :=
  let mn := CTxLockVote.GetMasternodeOutpoint vote in
  let nMasternodeOrphanExpireTime := to_int32 (GetTime E + 60 * 10) in
  match find mn (mapMasternodeOrphanVotes s) with
  | None => Some (set_mnorphans (set mn nMasternodeOrphanExpireTime) s, true)
  | Some nPrevOrphanVote =>
      if nPrevOrphanVote >? GetTime E then
        match GetAverageMasternodeOrphanVoteTime s with
        | None => None
        | Some avg =>
            if nPrevOrphanVote >? avg then Some (s, false)
            else Some (set_mnorphans (set mn nMasternodeOrphanExpireTime) s, true)
        end
      else Some (set_mnorphans (set mn nMasternodeOrphanExpireTime) s, true)
  end.

(** *** Attaching a vote to its candidate *)

(** The loop over the transactions that already have votes on the
    outpoint of [vote]: a candidate other than [txHash] in which the same
    masternode voted on the same outpoint makes both attacked and the
    masternode banned. *)
Fixpoint mark_conflicts (vote : CTxLockVote.t) (txHash : uint256) (hashes : list uint256)
         (s : t) : t :=
  match hashes with
  | [] => s
  | hash :: rest =>
      let s' :=
        if negb (hash =? txHash) then
          match find hash (mapTxLockCandidates s) with
          | Some c2 =>
              if CTxLockCandidate.HasMasternodeVoted (CTxLockVote.GetOutpoint vote)
                   (CTxLockVote.GetMasternodeOutpoint vote) c2
              then
                emit [EvPoSeBan (CTxLockVote.GetMasternodeOutpoint vote)]
                  (set_candidates
                     (update hash
                        (CTxLockCandidate.MarkOutpointAsAttacked (CTxLockVote.GetOutpoint vote)))
                     (set_candidates
                        (update txHash
                           (CTxLockCandidate.MarkOutpointAsAttacked
                              (CTxLockVote.GetOutpoint vote)))
                        s))
              else s
          | None => s
          end
        else s in
      mark_conflicts vote txHash rest s'
  end.

(** Lines 361 to 396 of [ProcessTxLockVote]: the conflict scan, the record
    in [mapVotedOutpoints] and [txLockCandidate.AddVote(vote)] on the
    candidate stored at [txHash]. *)
Definition attach_vote (vote : CTxLockVote.t) (txHash : uint256) (s : t) : t * bool :=
  let o := CTxLockVote.GetOutpoint vote in
  let s1 :=
    match find o (mapVotedOutpoints s) with
    | Some hashes =>
        set_voted (update o (set_insert txHash)) (mark_conflicts vote txHash hashes s)
    | None => set_voted (insert o [txHash]) s
    end in
  match find txHash (mapTxLockCandidates s1) with
  | None => (s1, false)
  | Some c =>
      let (c', ok) := CTxLockCandidate.AddVote vote c in
      (set_candidates (update txHash (fun _ => c')) s1, ok)
  end.

(** *** Requests and votes from the network *)

(** [ProcessTxLockRequest], [ProcessOrphanTxLockVotes] and
    [ProcessTxLockVote] call each other.  The first two are written over the
    vote processor [pv] they call; [ProcessTxLockVote] ties the knot with a
    recursion budget. *)

Definition VoteProcessor := Env -> CTxLockVote.t -> t -> option (t * bool).

(** The orphan votes are visited in key order.  [ks] are the keys that
    were in the map when the loop started and are still to visit: an entry
    that a nested [CheckAndRemove] erased before its turn is not visited;
    when the entry under the iterator itself is gone after the call, the
    iterator is invalid and the step has no defined result. *)
Fixpoint process_orphans (pv : VoteProcessor) (E : Env) (ks : list uint256) (s : t)
  : option t :=
  match ks with
  | [] => Some s
  | k :: rest =>
      match find k (mapTxLockVotesOrphan s) with
      | None => process_orphans pv E rest s
      | Some vote =>
          match pv E vote s with
          | None => None
          | Some (s', ok) =>
              match find k (mapTxLockVotesOrphan s') with
              | None => None
              | Some _ =>
                  process_orphans pv E rest (if ok then set_orphans (erase k) s' else s')
              end
          end
      end
  end.

Definition ProcessOrphanTxLockVotes_with (pv : VoteProcessor) (E : Env) (s : t) : option t :=
  process_orphans pv E (keys (mapTxLockVotesOrphan s)) s.

(** The two surveys at the head of [ProcessTxLockRequest] only write to the
    log.  The candidate reference taken after [CreateTxLockCandidate] is read
    again for [TryToFinalizeLockCandidate]: when the candidate is gone by
    then the reference dangles. *)
Definition ProcessTxLockRequest_with (pv : VoteProcessor) (E : Env)
           (txLockRequest : CTxLockRequest.t) (s : t) : option (t * bool) :=
  let txHash := CTxLockRequest.GetHash txLockRequest in
  let (s1, ok) := CreateTxLockCandidate E txLockRequest s in
  if negb ok then Some (s1, false)
  else
    match Vote E txHash s1 with
    | None => None
    | Some s2 =>
        match ProcessOrphanTxLockVotes_with pv E s2 with
        | None => None
        | Some s3 =>
            match find txHash (mapTxLockCandidates s3) with
            | None => None
            | Some c => Some (TryToFinalizeLockCandidate E c s3, true)
            end
        end
    end.

Fixpoint ProcessTxLockVote (fuel : nat) (E : Env) (vote : CTxLockVote.t) (s : t)
  : option (t * bool) :=
  match fuel with
  | O => None
  | S fuel' =>
      let txHash := CTxLockVote.GetTxHash vote in
      let (valid, asked) := CTxLockVote.IsValid E vote in
      if negb valid then Some (emit asked s, false)
      else
        let s := emit [EvRelayVote (CTxLockVote.GetHash vote)] s in
        let attached :=
          match find txHash (mapTxLockCandidates s) with
          | Some c =>
              if CTxLockRequest.is_set (CTxLockCandidate.txLockRequest c)
              then Some c else None
          | None => None
          end in
        match attached with
        | None =>
            if negb (count (CTxLockVote.GetHash vote) (mapTxLockVotesOrphan s)) then
              let s1 := CreateEmptyTxLockCandidate E txHash s in
              let s2 := set_orphans (set (CTxLockVote.GetHash vote) vote) s1 in
              let itLockRequest :=
                match find txHash (mapLockRequestAccepted s2) with
                | Some r => Some r
                | None => find txHash (mapLockRequestRejected s2)
                end in
              match itLockRequest with
              | Some r =>
                  if IsEnoughOrphanVotesForTx s2 r then
                    match ProcessTxLockRequest_with (ProcessTxLockVote fuel') E r s2 with
                    | None => None
                    | Some (s3, _) => Some (s3, true)
                    end
                  else orphan_rate_limit E vote s2
              | None => orphan_rate_limit E vote s2
              end
            else orphan_rate_limit E vote s
        | Some c =>
            if CTxLockCandidate.IsTimedOut E c then Some (s, false)
            else
              let (s1, ok) := attach_vote vote txHash s in
              if negb ok then Some (s1, false)
              else
                match find txHash (mapTxLockCandidates s1) with
                | None => None
                | Some c' => Some (TryToFinalizeLockCandidate E c' s1, true)
                end
        end
  end.

Definition ProcessTxLockRequest (fuel : nat) : Env -> CTxLockRequest.t -> t -> option (t * bool) :=
  ProcessTxLockRequest_with (ProcessTxLockVote fuel).

Definition ProcessOrphanTxLockVotes (fuel : nat) : Env -> t -> option t :=
  ProcessOrphanTxLockVotes_with (ProcessTxLockVote fuel).

(** [ProcessMessage] after [vRecv >> vote]; the peer comes back with the
    vote hash taken off its [setAskFor]. *)
Definition ProcessMessage (fuel : nat) (E : Env) (pfrom : CNode) (strCommand : string)
           (vote : CTxLockVote.t) (s : t) : option (CNode * t) :=
  if fLiteMode E then Some (pfrom, s)
  else if negb (SPORK_2_DIRECTSEND_ENABLED E) then Some (pfrom, s)
  else if negb (IsMasternodeListSynced E) then Some (pfrom, s)
  else if String.eqb strCommand TXLOCKVOTE then
    if nVersion pfrom <? MIN_DIRECTSEND_PROTO_VERSION then Some (pfrom, s)
    else
      let nVoteHash := CTxLockVote.GetHash vote in
      let pfrom' := {| nVersion := nVersion pfrom;
                       setAskFor := filter (fun h => negb (h =? nVoteHash)) (setAskFor pfrom) |} in
      if count nVoteHash (mapTxLockVotes s) then Some (pfrom', s)
      else
        match ProcessTxLockVote fuel E vote (set_votes (insert nVoteHash vote) s) with
        | None => None
        | Some (s', _) => Some (pfrom', s')
        end
  else Some (pfrom, s).

(** *** Chain notifications *)

Definition UpdatedBlockTip (nHeight : Z) (s : t) : t := set_height nHeight s.

Definition AcceptLockRequest (r : CTxLockRequest.t) (s : t) : t :=
  set_accepted (insert (CTxLockRequest.GetHash r) r) s.

Definition RejectLockRequest (r : CTxLockRequest.t) (s : t) : t :=
  set_rejected (insert (CTxLockRequest.GetHash r) r) s.

(** The votes of the outpoint locks of [c], in iteration order. *)
Definition candidate_votes (c : CTxLockCandidate.t) : list CTxLockVote.t :=
  flat_map (fun e => COutPointLock.GetVotes (snd e)) (CTxLockCandidate.mapOutPointLocks c).

(** [SyncTransaction] for the transaction [txHash]; [pblock] is the hash of
    the block it is found in, if any. *)
Definition SyncTransaction (E : Env) (txHash : uint256) (IsCoinBase : bool)
           (pblock : option uint256) (s : t) : t :=
  if IsCoinBase then s
  else
    let found :=
      match pblock with
      | None => Some (-1)
      | Some blockHash => mapBlockIndex E blockHash
      end in
    match found with
    | None => s
    | Some nHeightNew =>
        let s1 :=
          match find txHash (mapTxLockCandidates s) with
          | None => s
          | Some _ =>
              let s' := set_candidates
                          (update txHash (CTxLockCandidate.SetConfirmedHeight nHeightNew)) s in
              match find txHash (mapTxLockCandidates s') with
              | None => s'
              | Some c' =>
                  fold_left (fun st v =>
                               set_votes (update (CTxLockVote.GetHash v)
                                                 (CTxLockVote.SetConfirmedHeight nHeightNew)) st)
                            (candidate_votes c') s'
              end
          end in
        fold_left (fun st e =>
                     if CTxLockVote.GetTxHash (snd e) =? txHash then
                       set_votes (fun m =>
                                    update (fst e) (CTxLockVote.SetConfirmedHeight nHeightNew)
                                           (insert (fst e) (CTxLockVote.null (GetTime E)) m)) st
                     else st)
                  (mapTxLockVotesOrphan s1) s1
    end.

(** *** Queries *)

Definition AlreadyHave (s : t) (hash : uint256) : bool :=
  count hash (mapLockRequestAccepted s)
  || count hash (mapLockRequestRejected s)
  || count hash (mapTxLockVotes s).

(** [GetTxLockRequest]: [None] is [return false], otherwise the request
    written to [txLockRequestRet]. *)
Definition GetTxLockRequest (s : t) (txHash : uint256) : option CTxLockRequest.t :=
  match find txHash (mapTxLockCandidates s) with
  | None => None
  | Some c => Some (CTxLockCandidate.txLockRequest c)
  end.

Definition HasTxLockRequest (s : t) (txHash : uint256) : bool :=
  match GetTxLockRequest s txHash with Some _ => true | None => false end.

(** [GetTxLockVote]: [None] is [return false]. *)
Definition GetTxLockVote (s : t) (hash : uint256) : option CTxLockVote.t :=
  find hash (mapTxLockVotes s).

Definition IsDirectSendReadyToLock (E : Env) (s : t) (txHash : uint256) : bool :=
  if negb (fEnableDirectSend E) || fLargeWorkForkFound E
     || fLargeWorkInvalidChainFound E || negb (SPORK_2_DIRECTSEND_ENABLED E)
  then false
  else
    match find txHash (mapTxLockCandidates s) with
    | None => false
    | Some c => CTxLockCandidate.IsAllOutPointsReady c
    end.

Definition GetTransactionLockSignatures (E : Env) (s : t) (txHash : uint256) : Z :=
  if negb (fEnableDirectSend E) then -1
  else if fLargeWorkForkFound E || fLargeWorkInvalidChainFound E then -2
  else if negb (SPORK_2_DIRECTSEND_ENABLED E) then -3
  else
    match find txHash (mapTxLockCandidates s) with
    | Some c => CTxLockCandidate.CountVotes c
    | None => -1
    end.

(** [nDirectSendDepth] is the global set from the command line. *)
Definition GetConfirmations (E : Env) (nDirectSendDepth : Z) (s : t) (nTXHash : uint256) : Z :=
  if IsLockedDirectSendTransaction E s nTXHash then nDirectSendDepth else 0.

Definition IsTxLockCandidateTimedOut (E : Env) (s : t) (txHash : uint256) : bool :=
  if negb (fEnableDirectSend E) then false
  else
    match find txHash (mapTxLockCandidates s) with
    | Some c =>
        negb (CTxLockCandidate.IsAllOutPointsReady c) && CTxLockCandidate.IsTimedOut E c
    | None => false
    end.

(** The loop of [IsEnoughOrphanVotesForTxAndOutPoint] as it is written, with
    its counter and its early return; [m] is what is left of
    [mapTxLockVotesOrphan]. *)
Fixpoint orphan_votes_loop (txHash : uint256) (o : COutPoint.t)
         (m : list (uint256 * CTxLockVote.t)) (nCountVotes : Z) : bool :=
  match m with
  | [] => false
  | e :: rest =>
      if (CTxLockVote.GetTxHash (snd e) =? txHash)
         && keqb (CTxLockVote.GetOutpoint (snd e)) o
      then
        let nCountVotes := nCountVotes + 1 in
        if nCountVotes >=? SIGNATURES_REQUIRED then true
        else orphan_votes_loop txHash o rest nCountVotes
      else orphan_votes_loop txHash o rest nCountVotes
  end.

(** *** The operations of the engine *)

Inductive Op :=
  | OpProcessMessage (pfrom : CNode) (strCommand : string) (vote : CTxLockVote.t)
  | OpProcessTxLockRequest (r : CTxLockRequest.t)
  | OpAcceptLockRequest (r : CTxLockRequest.t)
  | OpRejectLockRequest (r : CTxLockRequest.t)
  | OpCheckAndRemove
  | OpUpdatedBlockTip (nHeight : Z)
  | OpSyncTransaction (txHash : uint256) (IsCoinBase : bool) (pblock : option uint256).

Definition run (fuel : nat) (E : Env) (op : Op) (s : t) : option t :=
  match op with
  | OpProcessMessage pfrom strCommand vote =>
      option_map snd (ProcessMessage fuel E pfrom strCommand vote s)
  | OpProcessTxLockRequest r => option_map fst (ProcessTxLockRequest fuel E r s)
  | OpAcceptLockRequest r => Some (AcceptLockRequest r s)
  | OpRejectLockRequest r => Some (RejectLockRequest r s)
  | OpCheckAndRemove => Some (CheckAndRemove E s)
  | OpUpdatedBlockTip nHeight => Some (UpdatedBlockTip nHeight s)
  | OpSyncTransaction txHash IsCoinBase pblock =>
      Some (SyncTransaction E txHash IsCoinBase pblock s)
  end.
End WithParams.
End CDirectSend.

(** ** A concrete network for the examples

  The values of the specification (committee of 10, threshold 6, lock
  timeout 15 s, failed timeout 60 s, 6 blocks of retention) and a stand-in
  digest that is injective on the small identifiers used below. *)

Module Demo.
Definition params : Params := {|
    SIGNATURES_TOTAL := 10;
    SIGNATURES_REQUIRED := 6;
    DIRECTSEND_LOCK_TIMEOUT_SECONDS := 15;
    DIRECTSEND_FAILED_TIMEOUT_SECONDS := 60;
    DIRECTSEND_CONFIRMATIONS_REQUIRED := 6;
    nDirectSendKeepLock := 6;
    MIN_FEE := 10000;
    COIN := 100000000;
    MIN_DIRECTSEND_PROTO_VERSION := 70208;
    TXLOCKVOTE := "txlvote";
    SerializeHash3 := fun h o m =>
      1000000 + h * 10000 + COutPoint.hash o * 1000 + (COutPoint.n o + 1) * 100
      + COutPoint.hash m * 10 + (COutPoint.n m + 1);
    hashNullTx := 999;
    uint256_ToString := fun _ => "h"%string;
    COutPoint_ToStringShort := fun _ => "-o"%string;
    IsNormalPaymentScript := fun spk => match spk with 118 :: _ => true | _ => false end;
    IsUnspendable := fun spk => match spk with 106 :: _ => true | _ => false end
  |}.

(** A node that is not a masternode, at height 100, with the block index
    [blocks]; every outpoint is an
    unspent coin of height 50 and value 1001000, every masternode in [has]
    is known, ranked first, and every signature verifies. *)
Definition mkenv (blocks : uint256 -> option Z) (dip synced : bool) (now : Z)
             (nextTx : COutPoint.t -> option uint256) (has : COutPoint.t -> bool) : Env := {|
    fLiteMode := false;
    fMasterNode := false;
    fEnableDirectSend := true;
    fLargeWorkForkFound := false;
    fLargeWorkInvalidChainFound := false;
    fDIP0001ActiveAtTip := dip;
    SPORK_2_DIRECTSEND_ENABLED := true;
    SPORK_3_DIRECTSEND_BLOCK_FILTERING := true;
    SPORK_5_DIRECTSEND_MAX_VALUE := 1000;
    IsMasternodeListSynced := synced;
    GetTime := now;
    chainActive_Height := 100;
    GetUTXOCoins := fun _ => Some {| coin_nHeight := 50; coin_nValue := 1001000 |};
    mapNextTx := nextTx;
    GetTransaction := fun _ => None;
    mapBlockIndex := blocks;
    CheckFinalTx := fun _ => true;
    mnodeman_Has := has;
    GetMasternodeRank := fun _ _ _ => Some 1;
    GetMasternodeInfo := fun _ => Some [];
    VerifyMessage := fun _ _ _ => true;
    activeMasternode_outpoint := COutPoint.mk 0 0;
    activeMasternode_pubKeyMasternode := [];
    SignMessage := fun _ => Some [];
    pwalletMain := false;
    UpdatedTransaction := fun _ => false;
    directsendnotify := EmptyString
  |}.

Definition env : Env := mkenv (fun _ => None) false true 1000 (fun _ => None) (fun _ => true).

Definition op (h n : Z) : COutPoint.t := COutPoint.mk h n.

Definition mkvote (tx : uint256) (o mn : COutPoint.t) (created : Z) : CTxLockVote.t :=
  CTxLockVote.mk tx o mn [] (-1) created.

(** A lock on [o] holding the votes of the masternodes [mns]. *)
Definition lock_of (tx : uint256) (o : COutPoint.t) (mns : list COutPoint.t) (created : Z)
  : COutPointLock.t :=
  fold_left (fun L mn => fst (COutPointLock.AddVote (mkvote tx o mn created) L)) mns
            (COutPointLock.create o).

Definition six : list COutPoint.t := map (fun i => op 7 i) [1; 2; 3; 4; 5; 6].

Definition request (tx : uint256) (ins : list COutPoint.t) : CTxLockRequest.t :=
  CTxLockRequest.mk tx (map (fun o => {| prevout := o |}) ins)
                    [{| nValue := 1000000; scriptPubKey := [118] |}].
End Demo.

(** * Properties *)

(** ** The average orphan-vote deadline *)

Section OrphanRate.

Definition sum_deadlines (m : StdMap.t COutPoint.t Z) : Z :=
  fold_right (fun e acc => snd e + acc) 0 m.

Lemma sum_deadlines_nonneg m :
  Forall (fun e : COutPoint.t * Z => 0 <= snd e) m -> 0 <= sum_deadlines m.
Proof.
  induction 1 as [|e m He _ IH]; simpl; lia.
Qed.

Lemma fold_total_exact (m : StdMap.t COutPoint.t Z) : forall a,
  0 <= a ->
  Forall (fun e => 0 <= snd e) m ->
  a + sum_deadlines m < 2 ^ 63 ->
  fold_left (fun acc e => to_int64 (acc + snd e)) m a = a + sum_deadlines m.
Proof.
  induction m as [|e m IH]; simpl; intros a Ha Hall Hlt.
  - lia.
  - inversion Hall as [|? ? He Hm]; subst.
    pose proof (sum_deadlines_nonneg Hm) as Hs.
    rewrite to_int64_small by lia.
    rewrite IH; [lia | lia | assumption | lia].
Qed.

Lemma size_cons_pos {K V} (e : K * V) (m : list (K * V)) : 1 <= size (e :: m).
Proof. unfold size. simpl List.length. lia. Qed.

Lemma to_int64_add_l a x : to_int64 (to_int64 a + x) = to_int64 (a + x).
Proof.
  unfold to_int64. f_equal.
  replace ((a + 2 ^ 63) mod 2 ^ 64 - 2 ^ 63 + x + 2 ^ 63)
    with ((a + 2 ^ 63) mod 2 ^ 64 + x) by lia.
  rewrite Z.add_mod_idemp_l by lia. f_equal. lia.
Qed.

(** The [int64_t] total of the loop is the sum of the deadlines, reduced to
    64 bits once. *)
Lemma fold_total_wrapped (m : StdMap.t COutPoint.t Z) : forall a,
  fold_left (fun acc e => to_int64 (acc + snd e)) m (to_int64 a)
  = to_int64 (a + sum_deadlines m).
Proof.
  induction m as [|e m IH]; simpl; intros a.
  - f_equal. lia.
  - rewrite to_int64_add_l, IH. f_equal. lia.
Qed.

(** What the function returns on a non-empty map: the quotient of the total,
    read as an unsigned 64-bit number, by the size. *)
Lemma average_unsigned (s : CDirectSend.t) :
  CDirectSend.mapMasternodeOrphanVotes s <> [] ->
  CDirectSend.GetAverageMasternodeOrphanVoteTime s
  = Some (to_int64 (to_uint64 (to_int64 (sum_deadlines (CDirectSend.mapMasternodeOrphanVotes s)))
                    / size (CDirectSend.mapMasternodeOrphanVotes s))).
Proof.
  unfold CDirectSend.GetAverageMasternodeOrphanVoteTime.
  destruct (CDirectSend.mapMasternodeOrphanVotes s) as [|e m]; [intros N; contradiction|].
  intros _. pose proof (size_cons_pos e m) as Hsz.
  destruct (size (e :: m) =? 0) eqn:Hd; [apply Z.eqb_eq in Hd; lia|].
  change 0 with (to_int64 0) at 1. rewrite fold_total_wrapped. reflexivity.
Qed.

(** A negative total is divided as the large unsigned number it converts
    to. *)
Lemma average_of_negative_total (s : CDirectSend.t) :
  CDirectSend.mapMasternodeOrphanVotes s <> [] ->
  - 2 ^ 63 <= sum_deadlines (CDirectSend.mapMasternodeOrphanVotes s) < 0 ->
  CDirectSend.GetAverageMasternodeOrphanVoteTime s
  = Some (to_int64 ((sum_deadlines (CDirectSend.mapMasternodeOrphanVotes s) + 2 ^ 64)
                    / size (CDirectSend.mapMasternodeOrphanVotes s))).
Proof.
  intros Hne Hneg. rewrite (@average_unsigned s Hne).
  rewrite (to_int64_small (z := sum_deadlines _)) by lia.
  replace (to_uint64 (sum_deadlines (CDirectSend.mapMasternodeOrphanVotes s)))
    with (sum_deadlines (CDirectSend.mapMasternodeOrphanVotes s) + 2 ^ 64); [reflexivity|].
  unfold to_uint64. symmetry.
  rewrite <- (Z.mod_add _ 1 (2 ^ 64)) by lia.
  rewrite Z.mul_1_l. apply Z.mod_small. lia.
Qed.

(** The claim as the specification words it: on a non-empty rate map the
    result is the integer mean of the deadlines, rounded as the division of
    C++ rounds. *)
Definition average_as_specified (s : CDirectSend.t) : Prop :=
  (CDirectSend.mapMasternodeOrphanVotes s = [] ->
   CDirectSend.GetAverageMasternodeOrphanVoteTime s = Some 0) /\
  (CDirectSend.mapMasternodeOrphanVotes s <> [] ->
   CDirectSend.GetAverageMasternodeOrphanVoteTime s
   = Some (Z.quot (sum_deadlines (CDirectSend.mapMasternodeOrphanVotes s))
                  (size (CDirectSend.mapMasternodeOrphanVotes s)))).
End OrphanRate.

(** Deadlines that the rate limiter writes itself in the last second of a
    32-bit clock: [GetTime() + 60*10] is stored into an [int] and comes out
    negative. *)
Module AverageExamples.
Definition late : Env :=
  Demo.mkenv (fun _ => None) false true 2147483647 (fun _ => None) (fun _ => true).

Definition tracked : CDirectSend.t :=
  CDirectSend.set_mnorphans
    (fun _ => [(Demo.op 7 1, -2147483049); (Demo.op 7 2, -2147483049)])
    CDirectSend.empty.

Example tracked_written :
  CDirectSend.orphan_rate_limit late (Demo.mkvote 21 (Demo.op 1 0) (Demo.op 7 1) 2147483647)
    CDirectSend.empty
  = Some (CDirectSend.set_mnorphans (fun _ => [(Demo.op 7 1, -2147483049)]) CDirectSend.empty,
          true) /\
  CDirectSend.orphan_rate_limit late (Demo.mkvote 21 (Demo.op 1 0) (Demo.op 7 2) 2147483647)
    (CDirectSend.set_mnorphans (fun _ => [(Demo.op 7 1, -2147483049)]) CDirectSend.empty)
  = Some (tracked, true).
Proof. split; reflexivity. Qed.
End AverageExamples.

(** C10, as amended.  [GetAverageMasternodeOrphanVoteTime] always returns:
    its division never has a zero divisor, and so the rate limiter that
    compares a deadline with it always returns.  It returns 0 on an empty
    rate map, and on a non-empty map whose deadlines have a sum between 0 and
    the largest [int64_t] the integer mean of the stored deadlines. *)
Theorem GetAverageMasternodeOrphanVoteTime_total (s : CDirectSend.t) :
  (exists r, CDirectSend.GetAverageMasternodeOrphanVoteTime s = Some r) /\
  (forall (P : Params) E vote, exists r, CDirectSend.orphan_rate_limit E vote s = Some r) /\
  (CDirectSend.mapMasternodeOrphanVotes s = [] ->
   CDirectSend.GetAverageMasternodeOrphanVoteTime s = Some 0) /\
  (CDirectSend.mapMasternodeOrphanVotes s <> [] ->
   0 <= sum_deadlines (CDirectSend.mapMasternodeOrphanVotes s) < 2 ^ 63 ->
   CDirectSend.GetAverageMasternodeOrphanVoteTime s
   = Some (sum_deadlines (CDirectSend.mapMasternodeOrphanVotes s)
           / size (CDirectSend.mapMasternodeOrphanVotes s))).
Proof.
  assert (exists r, CDirectSend.GetAverageMasternodeOrphanVoteTime s = Some r) as Htotal.
  { unfold CDirectSend.GetAverageMasternodeOrphanVoteTime.
    destruct (CDirectSend.mapMasternodeOrphanVotes s) as [|e m]; [eauto|].
    pose proof (size_cons_pos e m) as Hsz.
    destruct (size (e :: m) =? 0) eqn:Hd; [apply Z.eqb_eq in Hd; lia | eauto]. }
  split; [exact Htotal|]. split.
  { intros P E vote. unfold CDirectSend.orphan_rate_limit.
    destruct Htotal as [avg ->].
    destruct (find _ (CDirectSend.mapMasternodeOrphanVotes s)) as [prev|]; [|eauto].
    destruct (prev >? GetTime E); [|eauto]. destruct (prev >? avg); eauto. }
  split.
  { intros Hm. unfold CDirectSend.GetAverageMasternodeOrphanVoteTime. rewrite Hm. reflexivity. }
  intros Hne Hsum. rewrite (@average_unsigned s Hne).
  rewrite (to_int64_small (z := sum_deadlines _)) by lia.
  rewrite to_uint64_small by lia.
  f_equal. apply to_int64_small.
  destruct (CDirectSend.mapMasternodeOrphanVotes s) as [|e m]; [contradiction|].
  pose proof (size_cons_pos e m) as Hsz.
  assert (0 <= sum_deadlines (e :: m) / size (e :: m) <= sum_deadlines (e :: m)).
  { split; [apply Z.div_pos; lia|].
    apply Z.div_le_upper_bound; [lia|]. nia. }
  lia.
Qed.

Lemma GetAverageMasternodeOrphanVoteTime_witness :
  CDirectSend.GetAverageMasternodeOrphanVoteTime
    (CDirectSend.set_mnorphans
       (fun _ => [(Demo.op 7 1, 1600); (Demo.op 7 2, 1603); (Demo.op 7 3, 1700)])
       CDirectSend.empty)
  = Some 1634.
Proof.
  destruct (GetAverageMasternodeOrphanVoteTime_total
              (CDirectSend.set_mnorphans
                 (fun _ => [(Demo.op 7 1, 1600); (Demo.op 7 2, 1603); (Demo.op 7 3, 1700)])
                 CDirectSend.empty)) as [_ [_ [_ Hmean]]].
  rewrite Hmean.
  - reflexivity.
  - simpl. discriminate.
  - simpl. lia.
Defined.

(** The two deadlines of [AverageExamples.tracked] are -2147483049 each and
    so is their mean; the function returns 9223372034707292759, the quotient
    of the total read as an unsigned number. *)
Lemma GetAverageMasternodeOrphanVoteTime_negative_counterexample :
  ~ average_as_specified AverageExamples.tracked.
Proof.
  intros [_ Hmean].
  assert (CDirectSend.mapMasternodeOrphanVotes AverageExamples.tracked <> []) as Hne
    by (simpl; discriminate).
  specialize (Hmean Hne).
  rewrite (@average_of_negative_total _ Hne) in Hmean by (simpl; lia).
  vm_compute in Hmean. discriminate Hmean.
Qed.

(** ** Validity of a vote *)

(** C5. A vote is valid exactly when its signer is in the masternode
  registry, the coin of its outpoint is unspent, the signer has a rank at
  the height of that coin plus four and this rank is at most
  [SIGNATURES_TOTAL], and the signature over the transaction hash followed
  by the short form of the outpoint verifies against the registry key of
  the signer. *)
Theorem CTxLockVote_IsValid_iff {P : Params} (E : Env) (v : CTxLockVote.t) :
  fst (CTxLockVote.IsValid E v) = true <->
  mnodeman_Has E (CTxLockVote.outpointMasternode v) = true /\
  exists coins,
    GetUTXOCoins E (CTxLockVote.outpoint v) = Some coins /\
    exists nRank,
      GetMasternodeRank E (CTxLockVote.outpointMasternode v) (coin_nHeight coins + 4)
                        MIN_DIRECTSEND_PROTO_VERSION = Some nRank /\
      nRank <= SIGNATURES_TOTAL /\
      exists pubKey,
        GetMasternodeInfo E (CTxLockVote.outpointMasternode v) = Some pubKey /\
        VerifyMessage E pubKey (CTxLockVote.vchMasternodeSignature v)
          (String.append (uint256_ToString (CTxLockVote.txHash v))
                         (COutPoint_ToStringShort (CTxLockVote.outpoint v))) = true.
Proof.
  unfold CTxLockVote.IsValid, CTxLockVote.CheckSignature, CTxLockVote.strMessage.
  destruct (mnodeman_Has E (CTxLockVote.outpointMasternode v)); simpl.
  2: { split; [discriminate | intros [H _]; discriminate]. }
  destruct (GetUTXOCoins E (CTxLockVote.outpoint v)) as [coins|]; simpl.
  2: { split; [discriminate | intros [_ [c [H _]]]; discriminate]. }
  destruct (GetMasternodeRank E (CTxLockVote.outpointMasternode v) (coin_nHeight coins + 4)
                              MIN_DIRECTSEND_PROTO_VERSION) as [nRank|] eqn:HR; simpl.
  2: { split; [discriminate|]. intros [_ [c [[= <-] [r [Hr _]]]]]. congruence. }
  destruct (nRank >? SIGNATURES_TOTAL) eqn:Hgt; simpl.
  { split; [discriminate|]. intros [_ [c [[= <-] [r [Hr [Hle _]]]]]].
    rewrite HR in Hr. injection Hr as <-. apply Z.gtb_lt in Hgt. lia. }
  assert (nRank <= SIGNATURES_TOTAL) as Hle.
  { destruct (Z.gtb_spec nRank SIGNATURES_TOTAL); [discriminate | lia]. }
  destruct (GetMasternodeInfo E (CTxLockVote.outpointMasternode v)) as [pk|] eqn:HI; simpl.
  2: { split; [discriminate|].
       intros [_ [c [_ [r [_ [_ [pk [Hpk _]]]]]]]]. discriminate. }
  destruct (VerifyMessage E pk _ _) eqn:HV; simpl.
  - split; [|reflexivity]. intros _. split; [reflexivity|].
    exists coins. split; [reflexivity|]. exists nRank. split; [exact HR|].
    split; [exact Hle|]. exists pk. split; [reflexivity | exact HV].
  - split; [discriminate|].
    intros [_ [c [_ [r [_ [_ [pk' [[= <-] Hv]]]]]]]]. congruence.
Qed.

(** ** Validity of a lock request *)

Section RequestValidity.
Context {P : Params}.

Definition total_out (outs : list CTxOut) : Z :=
  fold_right (fun txout acc => nValue txout + acc) 0 outs.

Definition total_in (E : Env) (ins : list CTxIn) : Z :=
  fold_right (fun txin acc =>
                match GetUTXOCoins E (prevout txin) with
                | Some coins => coin_nValue coins + acc
                | None => acc
                end) 0 ins.

Definition script_ok (txout : CTxOut) : Prop :=
  IsNormalPaymentScript (scriptPubKey txout) = true
  \/ IsUnspendable (scriptPubKey txout) = true.

Definition input_ok (E : Env) (txin : CTxIn) : Prop :=
  exists coins,
    GetUTXOCoins E (prevout txin) = Some coins /\
    chainActive_Height E - coin_nHeight coins + 1 >= DIRECTSEND_CONFIRMATIONS_REQUIRED - 1.

(** The well-formedness of section 4.4, step 1, in the words of the
    specification; [fee_unit] is the fee demanded per input, [MIN_FEE] in
    the specification. *)
Definition well_formed (fee_unit : Z) (E : Env) (r : CTxLockRequest.t) : Prop :=
  CTxLockRequest.vout r <> [] /\
  Forall script_ok (CTxLockRequest.vout r) /\
  CheckFinalTx E (CTxLockRequest.txid r) = true /\
  Forall (input_ok E) (CTxLockRequest.vin r) /\
  total_in E (CTxLockRequest.vin r) <= SPORK_5_DIRECTSEND_MAX_VALUE E * COIN /\
  total_in E (CTxLockRequest.vin r) - total_out (CTxLockRequest.vout r)
  >= Z.max fee_unit (Z.of_nat (List.length (CTxLockRequest.vin r)) * fee_unit).

(** The fee per input that the code demands. *)
Definition fee_unit (E : Env) : Z :=
  if fDIP0001ActiveAtTip E then Z.quot MIN_FEE 10 else MIN_FEE.

(** No addition of a loop that adds the amounts [l] to [a], one after the
    other, leaves [int64_t]. *)
Fixpoint sums_fit (a : Z) (l : list Z) : Prop :=
  match l with
  | [] => True
  | x :: l' => - 2 ^ 63 <= a + x < 2 ^ 63 /\ sums_fit (a + x) l'
  end.

(** The values of the coins that the inputs spend, as far as they are
    unspent. *)
Definition coin_values (E : Env) (ins : list CTxIn) : list Z :=
  map (fun txin => match GetUTXOCoins E (prevout txin) with
                   | Some coins => coin_nValue coins
                   | None => 0
                   end) ins.

(** The arithmetic of [IsValid] on the amounts of [r] stays within
    [int64_t]: the two running sums, the product for the value limit and the
    difference of the sums.  Amounts between 0 and [MAX_MONEY] and a value
    limit in coins are far inside. *)
Definition amounts_fit (E : Env) (r : CTxLockRequest.t) : Prop :=
  sums_fit 0 (map nValue (CTxLockRequest.vout r)) /\
  sums_fit 0 (coin_values E (CTxLockRequest.vin r)) /\
  - 2 ^ 63 <= SPORK_5_DIRECTSEND_MAX_VALUE E * COIN < 2 ^ 63 /\
  - 2 ^ 63 <= total_in E (CTxLockRequest.vin r) - total_out (CTxLockRequest.vout r) < 2 ^ 63.

Lemma sum_vout_spec outs : forall a b,
  sums_fit a (map nValue outs) ->
  (CTxLockRequest.sum_vout outs a = Some b <->
   Forall script_ok outs /\ b = a + total_out outs).
Proof.
  induction outs as [|o outs IH]; simpl; intros a b Hfit.
  - split; [intros [= <-]; split; [constructor | lia] | intros [_ ->]; f_equal; lia].
  - destruct Hfit as [Hrange Hfit]. rewrite (to_int64_small Hrange).
    destruct (IsNormalPaymentScript (scriptPubKey o)) eqn:Hn;
      destruct (IsUnspendable (scriptPubKey o)) eqn:Hu; simpl;
      try (rewrite (IH _ _ Hfit); split;
           [ intros [Hall ->]; split; [constructor; [unfold script_ok; auto | exact Hall] | lia]
           | intros [Hall ->]; inversion Hall; subst; split; [assumption | lia] ]).
    split; [discriminate|]. intros [Hall _]. inversion Hall as [|? ? [H|H] _]; congruence.
Qed.

Lemma sum_vin_spec E ins : forall a b,
  sums_fit a (coin_values E ins) ->
  (CTxLockRequest.sum_vin E ins a = Some b <->
   Forall (input_ok E) ins /\ b = a + total_in E ins).
Proof.
  induction ins as [|i ins IH]; simpl; intros a b Hfit.
  - split; [intros [= <-]; split; [constructor | lia] | intros [_ ->]; f_equal; lia].
  - destruct Hfit as [Hrange Hfit].
    destruct (GetUTXOCoins E (prevout i)) as [coins|] eqn:Hc.
    + rewrite (to_int64_small Hrange).
      destruct (Z.ltb_spec (chainActive_Height E - coin_nHeight coins + 1)
                           (DIRECTSEND_CONFIRMATIONS_REQUIRED - 1)) as [Hlt|Hge].
      * split; [discriminate|]. intros [Hall _].
        inversion Hall as [|? ? [c [Hc' Hage]] _]; subst.
        rewrite Hc in Hc'. injection Hc' as <-. lia.
      * rewrite (IH _ _ Hfit). split.
        -- intros [Hall ->]. split; [|lia]. constructor; [|exact Hall].
           exists coins. split; [exact Hc | lia].
        -- intros [Hall ->]. inversion Hall; subst. split; [assumption | lia].
    + split; [discriminate|]. intros [Hall _].
      inversion Hall as [|? ? [c [Hc' _]] _]; subst. congruence.
Qed.

Lemma GetMinFee_exact E r :
  0 <= MIN_FEE < 2 ^ 63 ->
  Z.of_nat (List.length (CTxLockRequest.vin r)) * MIN_FEE < 2 ^ 63 ->
  CTxLockRequest.GetMinFee E r
  = Z.max (fee_unit E) (Z.of_nat (List.length (CTxLockRequest.vin r)) * fee_unit E).
Proof.
  intros Hfee Hprod. unfold CTxLockRequest.GetMinFee. fold (fee_unit E).
  assert (0 <= fee_unit E <= MIN_FEE) as Hu.
  { unfold fee_unit. destruct (fDIP0001ActiveAtTip E); [|lia].
    split; [apply Z.quot_pos; lia|]. apply Z.quot_le_upper_bound; lia. }
  set (k := Z.of_nat (List.length (CTxLockRequest.vin r))) in *.
  assert (0 <= k) by (unfold k; lia).
  assert (0 <= k * fee_unit E < 2 ^ 63) by nia.
  f_equal.
  rewrite (to_uint64_small (z := fee_unit E)) by lia.
  destruct (Z.eq_dec (fee_unit E) 0) as [Hz|Hz].
  - rewrite Hz, !Z.mul_0_r. reflexivity.
  - rewrite (to_uint64_small (z := k)) by nia.
    rewrite to_uint64_small by lia. apply to_int64_small. lia.
Qed.

Lemma IsValid_iff_well_formed E r :
  0 <= MIN_FEE < 2 ^ 63 ->
  Z.of_nat (List.length (CTxLockRequest.vin r)) * MIN_FEE < 2 ^ 63 ->
  amounts_fit E r ->
  CTxLockRequest.IsValid E r = true <-> well_formed (fee_unit E) E r.
Proof.
  intros Hfee Hprod [Hfo [Hfi [Hmax Hdiff]]].
  unfold CTxLockRequest.IsValid, well_formed.
  rewrite (GetMinFee_exact E r Hfee Hprod).
  rewrite (to_int64_small Hmax).
  destruct (CTxLockRequest.vout r) as [|o outs] eqn:Hout.
  { simpl. split; [intros Hx; discriminate Hx | intros [N _]; contradiction]. }
  destruct (Z.ltb_spec (Z.of_nat (List.length (o :: outs))) 1) as [Hl|_];
    [simpl List.length in Hl; lia|].
  destruct (CheckFinalTx E (CTxLockRequest.txid r)); cbn [negb].
  2: { split; [intros Hx; discriminate Hx | intros [_ [_ [H _]]]; discriminate H]. }
  destruct (CTxLockRequest.sum_vout (o :: outs) 0) as [nValueOut|] eqn:Hso.
  2: { split; [intros Hx; discriminate Hx|]. intros [_ [Hall _]].
       assert (CTxLockRequest.sum_vout (o :: outs) 0 = Some (0 + total_out (o :: outs))) as Hx
         by (apply sum_vout_spec; auto).
       congruence. }
  apply sum_vout_spec in Hso; [|exact Hfo]. destruct Hso as [Hscripts ->].
  destruct (CTxLockRequest.sum_vin E (CTxLockRequest.vin r) 0) as [nValueIn|] eqn:Hsi.
  2: { split; [intros Hx; discriminate Hx|]. intros [_ [_ [_ [Hall _]]]].
       assert (CTxLockRequest.sum_vin E (CTxLockRequest.vin r) 0
               = Some (0 + total_in E (CTxLockRequest.vin r))) as Hx
         by (apply sum_vin_spec; auto).
       congruence. }
  apply sum_vin_spec in Hsi; [|exact Hfi]. destruct Hsi as [Hins ->].
  rewrite !Z.add_0_l. rewrite (to_int64_small Hdiff).
  destruct (Z.gtb_spec (total_in E (CTxLockRequest.vin r))
                       (SPORK_5_DIRECTSEND_MAX_VALUE E * COIN)) as [Hgt|Hle].
  { split; [intros Hx; discriminate Hx|]. intros [_ [_ [_ [_ [H _]]]]]. lia. }
  match goal with |- context [?a <? ?b] => destruct (Z.ltb_spec a b) as [Hlt|Hge] end.
  - split; [intros Hx; discriminate Hx|]. intros [_ [_ [_ [_ [_ H]]]]]. lia.
  - split; [|reflexivity]. intros _.
    repeat (split; [first [discriminate | assumption | reflexivity | lia]|]). lia.
Qed.

Lemma invalid_request_refused E r fuel s :
  CTxLockRequest.IsValid E r = false ->
  CDirectSend.ProcessTxLockRequest fuel E r s = Some (s, false).
Proof.
  intros Hinv.
  unfold CDirectSend.ProcessTxLockRequest, CDirectSend.ProcessTxLockRequest_with,
    CDirectSend.CreateTxLockCandidate.
  rewrite Hinv. reflexivity.
Qed.

(** The claim as the specification words it: the fee threshold is
    [max(MIN_FEE, |vin| * MIN_FEE)]. *)
Definition IsValid_as_specified (E : Env) (r : CTxLockRequest.t) : Prop :=
  CTxLockRequest.IsValid E r = true <-> well_formed MIN_FEE E r.
End RequestValidity.

(** The sums are those of the machine: two outputs of [2^63 - 1] add up to
    [-2], and the request that spends one coin of 1001000 into them passes
    the fee test of [IsValid]. *)
Example CTxLockRequest_IsValid_wraps :
  CTxLockRequest.sum_vout (P := Demo.params)
    [{| nValue := 2 ^ 63 - 1; scriptPubKey := [118] |};
     {| nValue := 2 ^ 63 - 1; scriptPubKey := [118] |}] 0 = Some (-2) /\
  CTxLockRequest.IsValid (P := Demo.params) Demo.env
    (CTxLockRequest.mk 21 [{| prevout := Demo.op 1 0 |}]
       [{| nValue := 2 ^ 63 - 1; scriptPubKey := [118] |};
        {| nValue := 2 ^ 63 - 1; scriptPubKey := [118] |}]) = true.
Proof. split; reflexivity. Qed.

(** C4, as amended.  As long as the arithmetic on the amounts of the
  request stays within [int64_t] (the two running sums, the value limit in
  coins times [COIN], the difference of the sums; so for amounts of the
  chain), [CTxLockRequest::IsValid] holds exactly for the well-formed
  requests, where the fee is at least [max(m, |vin| * m)] and [m] is
  [MIN_FEE / 10] when DIP0001 is active at the tip and [MIN_FEE] otherwise; a
  request that is not valid makes [ProcessTxLockRequest] return false, the
  engine unchanged. *)
Theorem CTxLockRequest_IsValid_iff {P : Params} (E : Env) (r : CTxLockRequest.t) :
  0 <= MIN_FEE < 2 ^ 63 ->
  Z.of_nat (List.length (CTxLockRequest.vin r)) * MIN_FEE < 2 ^ 63 ->
  amounts_fit E r ->
  (CTxLockRequest.IsValid E r = true <-> well_formed (fee_unit E) E r) /\
  (CTxLockRequest.IsValid E r = false ->
   forall fuel s, CDirectSend.ProcessTxLockRequest fuel E r s = Some (s, false)).
Proof.
  intros Hfee Hprod Hfit. split.
  - apply IsValid_iff_well_formed; assumption.
  - intros Hinv fuel s. apply invalid_request_refused. exact Hinv.
Qed.

Lemma CTxLockRequest_IsValid_witness :
  CTxLockRequest.IsValid (P := Demo.params) Demo.env
    (CTxLockRequest.mk 21 [{| prevout := Demo.op 1 0 |}]
                       [{| nValue := 990000; scriptPubKey := [118] |}]) = true.
Proof.
  apply (@CTxLockRequest_IsValid_iff Demo.params Demo.env
           (CTxLockRequest.mk 21 [{| prevout := Demo.op 1 0 |}]
                              [{| nValue := 990000; scriptPubKey := [118] |}])).
  - simpl. lia.
  - simpl. lia.
  - unfold amounts_fit. simpl. lia.
  - unfold well_formed. simpl.
    repeat split; try discriminate; try lia.
    + constructor; [left; reflexivity | constructor].
    + constructor; [|constructor]. eexists. split; [reflexivity|]. simpl. lia.
Defined.

(** With DIP0001 active, a request paying a fee of 1000 for its single
  input is valid, below the [MIN_FEE] of 10000 that the specification
  demands; and the request whose two outputs of [2^63 - 1] add up to [-2] in
  [int64_t] is valid, with outputs far above its input. *)
Lemma CTxLockRequest_IsValid_counterexample :
  ~ IsValid_as_specified (P := Demo.params)
      (Demo.mkenv (fun _ => None) true true 1000 (fun _ => None) (fun _ => true))
      (Demo.request 21 [Demo.op 1 0])
  /\ ~ IsValid_as_specified (P := Demo.params) Demo.env
         (CTxLockRequest.mk 21 [{| prevout := Demo.op 1 0 |}]
            [{| nValue := 2 ^ 63 - 1; scriptPubKey := [118] |};
             {| nValue := 2 ^ 63 - 1; scriptPubKey := [118] |}]).
Proof.
  unfold IsValid_as_specified. split; intros [Hw _].
  - assert (CTxLockRequest.IsValid (P := Demo.params)
              (Demo.mkenv (fun _ => None) true true 1000 (fun _ => None) (fun _ => true))
              (Demo.request 21 [Demo.op 1 0]) = true) as Hv by reflexivity.
    destruct (Hw Hv) as [_ [_ [_ [_ [_ Hfee]]]]].
    simpl in Hfee. lia.
  - destruct (Hw (proj2 CTxLockRequest_IsValid_wraps)) as [_ [_ [_ [_ [_ Hfee]]]]].
    simpl in Hfee. lia.
Qed.

(** ** Votes that are already known *)

Section KnownVotes.
Context {P : Params}.

Definition forget_asked (nVoteHash : uint256) (pfrom : CNode) : CNode :=
  {| nVersion := nVersion pfrom;
     setAskFor := filter (fun h => negb (h =? nVoteHash)) (setAskFor pfrom) |}.


(** The gates of [ProcessMessage] that a vote message has to pass. *)
Definition vote_message_read (E : Env) (pfrom : CNode) (strCommand : string) : bool :=
  negb (fLiteMode E) && SPORK_2_DIRECTSEND_ENABLED E && IsMasternodeListSynced E
  && String.eqb strCommand TXLOCKVOTE
  && negb (nVersion pfrom <? MIN_DIRECTSEND_PROTO_VERSION).

Lemma ProcessMessage_unread fuel E pfrom strCommand vote s :
  vote_message_read E pfrom strCommand = false ->
  CDirectSend.ProcessMessage fuel E pfrom strCommand vote s = Some (pfrom, s).
Proof.
  unfold vote_message_read, CDirectSend.ProcessMessage.
  destruct (fLiteMode E), (SPORK_2_DIRECTSEND_ENABLED E), (IsMasternodeListSynced E),
    (String.eqb strCommand TXLOCKVOTE), (nVersion pfrom <? MIN_DIRECTSEND_PROTO_VERSION);
    simpl; intros; try reflexivity; discriminate.
Qed.

Lemma ProcessMessage_read fuel E pfrom strCommand vote s :
  vote_message_read E pfrom strCommand = true ->
  CDirectSend.ProcessMessage fuel E pfrom strCommand vote s =
    if count (CTxLockVote.GetHash vote) (CDirectSend.mapTxLockVotes s)
    then Some (forget_asked (CTxLockVote.GetHash vote) pfrom, s)
    else
      match CDirectSend.ProcessTxLockVote fuel E vote
              (CDirectSend.set_votes (insert (CTxLockVote.GetHash vote) vote) s) with
      | None => None
      | Some (s', _) => Some (forget_asked (CTxLockVote.GetHash vote) pfrom, s')
      end.
Proof.
  unfold vote_message_read, CDirectSend.ProcessMessage.
  destruct (fLiteMode E), (SPORK_2_DIRECTSEND_ENABLED E), (IsMasternodeListSynced E),
    (String.eqb strCommand TXLOCKVOTE), (nVersion pfrom <? MIN_DIRECTSEND_PROTO_VERSION);
    simpl; intros; try discriminate; reflexivity.
Qed.

(** A vote whose hash is in [mapTxLockVotes] is dropped: the engine is
    left as it is, whatever the collaborators answer. *)
Lemma ProcessMessage_known fuel E pfrom strCommand vote s :
  count (CTxLockVote.GetHash vote) (CDirectSend.mapTxLockVotes s) = true ->
  exists pfrom', CDirectSend.ProcessMessage fuel E pfrom strCommand vote s = Some (pfrom', s).
Proof.
  intros Hk. destruct (vote_message_read E pfrom strCommand) eqn:Hr.
  - rewrite ProcessMessage_read by exact Hr. rewrite Hk. eauto.
  - rewrite ProcessMessage_unread by exact Hr. eauto.
Qed.
End KnownVotes.

(** ** Conflicting votes of one masternode *)

Section UpdateTwice.
Context {K V : Type} `{OrdKey K}.


End UpdateTwice.

Section Equivocation.
Context {P : Params}.
Variable vote : CTxLockVote.t.

Let txHash := CTxLockVote.GetTxHash vote.
Let o := CTxLockVote.GetOutpoint vote.
Let mn := CTxLockVote.GetMasternodeOutpoint vote.

















End Equivocation.

Section Attach.
Variable vote : CTxLockVote.t.

Let txHash := CTxLockVote.GetTxHash vote.
Let o := CTxLockVote.GetOutpoint vote.
Let mn := CTxLockVote.GetMasternodeOutpoint vote.







End Attach.

Module EquivocationExamples.
Definition o := Demo.op 1 0.
Definition mn := Demo.op 7 1.

Definition candidate (tx : uint256) (mns : list COutPoint.t) : CTxLockCandidate.t :=
  CTxLockCandidate.mk (Demo.request tx [o]) [(o, Demo.lock_of tx o mns 1000)] (-1) 1000.

(** Transaction 11 has the vote of [mn] on [o]; 12 spends [o] too. *)
Definition two : CDirectSend.t :=
  CDirectSend.set_candidates (fun _ => [(11, candidate 11 [mn]); (12, candidate 12 [])])
    (CDirectSend.set_voted (fun _ => [(o, [11])]) CDirectSend.empty).


(** The vote of [mn] on [o] for the transaction [tx]. *)
Definition v (tx : uint256) : CTxLockVote.t := Demo.mkvote tx o mn 1000.

Definition stored (votes : list CTxLockVote.t) (s : CDirectSend.t) : CDirectSend.t :=
  CDirectSend.set_votes
    (fun m => fold_left (fun m x => insert (CTxLockVote.GetHash (P := Demo.params) x) x m)
                        votes m) s.


Definition peer : CNode := {| nVersion := 70208; setAskFor := [] |}.
End EquivocationExamples.

(** ** The sweep of [CheckAndRemove] *)

Section Sweep.
Context {P : Params}.

Lemma fold_erase_Some {K V} `{OrdKey K} (outs : list K) : forall (m : StdMap.t K V) k v,
  find k (fold_left (fun m o => erase o m) outs m) = Some v -> find k m = Some v.
Proof.
  induction outs as [|x outs IH]; simpl; intros m k v Hf; [exact Hf|].
  apply IH in Hf. rewrite find_erase in Hf. destruct (keqb k x); [discriminate | exact Hf].
Qed.


(** [s'] holds nothing that [s] does not hold, in the maps that the sweep
    only erases from. *)
Definition subview (s s' : CDirectSend.t) : Prop :=
  CDirectSend.nCachedBlockHeight s' = CDirectSend.nCachedBlockHeight s
  /\ (forall k v, find k (CDirectSend.mapTxLockCandidates s') = Some v ->
                  find k (CDirectSend.mapTxLockCandidates s) = Some v)
  /\ (forall k v, find k (CDirectSend.mapLockedOutpoints s') = Some v ->
                  find k (CDirectSend.mapLockedOutpoints s) = Some v)
  /\ (forall k v, find k (CDirectSend.mapVotedOutpoints s') = Some v ->
                  find k (CDirectSend.mapVotedOutpoints s) = Some v)
  /\ (forall k v, find k (CDirectSend.mapLockRequestAccepted s') = Some v ->
                  find k (CDirectSend.mapLockRequestAccepted s) = Some v)
  /\ (forall k v, find k (CDirectSend.mapLockRequestRejected s') = Some v ->
                  find k (CDirectSend.mapLockRequestRejected s) = Some v)
  /\ (forall e, In e (CDirectSend.mapTxLockVotes s') -> In e (CDirectSend.mapTxLockVotes s))
  /\ (forall e, In e (CDirectSend.mapTxLockVotesOrphan s') ->
                In e (CDirectSend.mapTxLockVotesOrphan s)).

Lemma subview_refl s : subview s s.
Proof. unfold subview. repeat split; auto. Qed.

Lemma subview_trans s1 s2 s3 : subview s1 s2 -> subview s2 s3 -> subview s1 s3.
Proof.
  unfold subview. intros [A1 [A2 [A3 [A4 [A5 [A6 [A7 A8]]]]]]] [B1 [B2 [B3 [B4 [B5 [B6 [B7 B8]]]]]]].
  repeat split; auto; congruence.
Qed.


Lemma erase_candidate_subview k c s : subview s (CDirectSend.erase_candidate k c s).
Proof.
  unfold subview, CDirectSend.erase_candidate. simpl.
  repeat split; auto; intros x v Hf;
    try (rewrite find_erase in Hf; destruct (keqb x _); [discriminate | exact Hf]);
    eapply fold_erase_Some; exact Hf.
Qed.

Lemma remove_expired_candidates_subview cs : forall s,
  subview s (CDirectSend.remove_expired_candidates cs s).
Proof.
  induction cs as [|[k c] cs IH]; simpl; intros s; [apply subview_refl|].
  eapply subview_trans; [|apply IH].
  destruct (CTxLockCandidate.IsExpired (CDirectSend.nCachedBlockHeight s) c);
    [apply erase_candidate_subview | apply subview_refl].
Qed.

Lemma remove_timed_out_orphans_subview E os : forall s,
  subview s (CDirectSend.remove_timed_out_orphans E os s).
Proof.
  induction os as [|[k v] os IH]; simpl; intros s; [apply subview_refl|].
  eapply subview_trans; [|apply IH].
  destruct (CTxLockVote.IsTimedOut E v); [|apply subview_refl].
  unfold subview. simpl. repeat split; auto; intros e He; apply In_erase in He; tauto.
Qed.

(** The candidates, locks and requests that the sweep leaves are those that
    its first loop leaves. *)
Lemma remove_timed_out_orphans_frame E os : forall s,
  let s' := CDirectSend.remove_timed_out_orphans E os s in
  CDirectSend.mapTxLockCandidates s' = CDirectSend.mapTxLockCandidates s
  /\ CDirectSend.mapLockedOutpoints s' = CDirectSend.mapLockedOutpoints s
  /\ CDirectSend.mapVotedOutpoints s' = CDirectSend.mapVotedOutpoints s
  /\ CDirectSend.mapLockRequestAccepted s' = CDirectSend.mapLockRequestAccepted s
  /\ CDirectSend.mapLockRequestRejected s' = CDirectSend.mapLockRequestRejected s.
Proof.
  induction os as [|[k v] os IH]; simpl; intros s; [auto|].
  destruct (CTxLockVote.IsTimedOut E v); [|apply IH].
  specialize (IH (CDirectSend.set_orphans (erase k) (CDirectSend.set_votes (erase k) s))).
  simpl in IH. exact IH.
Qed.

Lemma CheckAndRemove_subview E s : subview s (CDirectSend.CheckAndRemove E s).
Proof.
  unfold CDirectSend.CheckAndRemove.
  destruct (IsMasternodeListSynced E); simpl; [|apply subview_refl].
  set (s1 := CDirectSend.remove_expired_candidates (CDirectSend.mapTxLockCandidates s) s).
  set (s2 := CDirectSend.set_votes _ s1).
  set (s3 := CDirectSend.remove_timed_out_orphans E _ s2).
  assert (subview s s1) as H1 by apply remove_expired_candidates_subview.
  assert (subview s1 s2) as H2.
  { unfold subview, s2. simpl. repeat split; auto. intros e He. apply filter_In in He. tauto. }
  assert (subview s2 s3) as H3 by apply remove_timed_out_orphans_subview.
  eapply subview_trans; [exact H1|]. eapply subview_trans; [exact H2|].
  eapply subview_trans; [exact H3|].
  unfold subview. simpl. repeat split; auto. intros e He. apply filter_In in He. tauto.
Qed.




End Sweep.

Section Expiry.
Context {P : Params}.


End Expiry.


Module ExpiryExamples.
Definition o := Demo.op 1 0.
Definition mn := Demo.op 7 1.
Definition v := Demo.mkvote 11 o mn 1000.

(** Transaction 11 was dropped in a conflict (confirmed height 0); its vote
    is stored with the height -1 it arrived with. *)
Definition dropped : CDirectSend.t :=
  CDirectSend.set_candidates
    (fun _ => [(11, CTxLockCandidate.mk (Demo.request 11 [o]) [(o, Demo.lock_of 11 o [mn] 1000)]
                                        0 1000)])
    (CDirectSend.set_votes (fun _ => [(CTxLockVote.GetHash (P := Demo.params) v, v)])
       (CDirectSend.set_rejected (fun _ => [(11, Demo.request 11 [o])])
          (CDirectSend.set_locked (fun _ => [(o, 11)])
             (CDirectSend.set_voted (fun _ => [(o, [11])]) CDirectSend.empty)))).

(** Transaction 11 has the candidate that its first orphan vote created,
    without request; the transaction was mined at height 50 and its request
    is recorded as accepted. *)
Definition unrequested : CDirectSend.t :=
  CDirectSend.set_candidates
    (fun _ => [(11, CTxLockCandidate.mk (CTxLockRequest.null (P := Demo.params)) [] 50 1000)])
    (CDirectSend.set_accepted (fun _ => [(11, Demo.request 11 [o])]) CDirectSend.empty).
End ExpiryExamples.


(** A candidate without request has the null hash for the hash of its
    request, and that is the key [CheckAndRemove] erases from the accepted and
    rejected requests: the request recorded under the hash of the transaction
    outlives the candidate. *)
Example expiry_keeps_requests_of_candidate_without_request :
  find 11 (CDirectSend.mapTxLockCandidates
             (CDirectSend.CheckAndRemove (P := Demo.params) Demo.env
                (CDirectSend.UpdatedBlockTip 100 ExpiryExamples.unrequested))) = None
  /\ find 11 (CDirectSend.mapLockRequestAccepted
                (CDirectSend.CheckAndRemove (P := Demo.params) Demo.env
                   (CDirectSend.UpdatedBlockTip 100 ExpiryExamples.unrequested)))
     = Some (Demo.request 11 [ExpiryExamples.o]).
Proof. split; reflexivity. Qed.


(** ** A completed lock in the way of a finalization *)

Section CompletedConflict.
Context {P : Params}.

(** Input [txin] stops the scan of [ResolveConflicts] neither on a completed
    lock nor on the mempool. *)
Definition clear_input (E : Env) (txHash : uint256) (s : CDirectSend.t) (txin : CTxIn) : Prop :=
  match find (prevout txin) (CDirectSend.mapLockedOutpoints s) with
  | Some h => h = txHash
  | None => True
  end
  /\ match mapNextTx E (prevout txin) with
     | Some h => h = txHash
     | None => True
     end.

Lemma scan_conflicts_first E txHash s pre txin post hashConflicting :
  Forall (clear_input E txHash s) pre ->
  find (prevout txin) (CDirectSend.mapLockedOutpoints s) = Some hashConflicting ->
  hashConflicting <> txHash ->
  CDirectSend.scan_conflicts E txHash (pre ++ txin :: post) s
  = Some (CDirectSend.drop_both E txHash hashConflicting s).
Proof.
  intros Hpre Hl Hne. induction Hpre as [|x pre [Hx1 Hx2] _ IH]; simpl.
  - unfold CDirectSend.GetLockedOutPointTxHash. rewrite Hl.
    assert ((txHash =? hashConflicting) = false) as -> by (apply Z.eqb_neq; congruence).
    reflexivity.
  - unfold CDirectSend.GetLockedOutPointTxHash.
    destruct (find (prevout x) (CDirectSend.mapLockedOutpoints s)) as [h|].
    + subst h. rewrite Z.eqb_refl. simpl.
      destruct (mapNextTx E (prevout x)) as [hm|]; [|exact IH].
      subst hm. rewrite Z.eqb_refl. exact IH.
    + destruct (mapNextTx E (prevout x)) as [hm|]; [|exact IH].
      subst hm. rewrite Z.eqb_refl. exact IH.
Qed.

Lemma foreign_lock_not_locked E s txHash c o h :
  find txHash (CDirectSend.mapTxLockCandidates s) = Some c ->
  In o (keys (CTxLockCandidate.mapOutPointLocks c)) ->
  find o (CDirectSend.mapLockedOutpoints s) = Some h ->
  h <> txHash ->
  CDirectSend.IsLockedDirectSendTransaction E s txHash = false.
Proof.
  intros Hc Ho Hl Hne. unfold CDirectSend.IsLockedDirectSendTransaction.
  destruct (negb (fEnableDirectSend E) || fLargeWorkForkFound E
            || fLargeWorkInvalidChainFound E
            || negb (SPORK_3_DIRECTSEND_BLOCK_FILTERING E)); [reflexivity|].
  rewrite Hc. destruct (CTxLockCandidate.mapOutPointLocks c) as [|e locks] eqn:Hlocks;
    [reflexivity|].
  match goal with |- ?b = false => destruct b eqn:Hall end; [|reflexivity].
  exfalso. unfold keys in Ho. apply in_map_iff in Ho. destruct Ho as [x [Hx Hin]].
  pose proof (proj1 (forallb_forall _ _) Hall x Hin) as Hx'. simpl in Hx'.
  unfold CDirectSend.GetLockedOutPointTxHash in Hx'. rewrite Hx, Hl in Hx'.
  apply Z.eqb_eq in Hx'. contradiction.
Qed.

(** The claim in the words of the specification: any input locked by
    another transaction triggers the policy. *)
Definition conflict_policy_as_specified (E : Env) (s : CDirectSend.t) : Prop :=
  forall c txin hashConflicting,
    SPORK_2_DIRECTSEND_ENABLED E = true ->
    find (CTxLockCandidate.GetHash c) (CDirectSend.mapTxLockCandidates s) = Some c ->
    CTxLockCandidate.IsAllOutPointsReady c = true ->
    In txin (CTxLockRequest.vin (CTxLockCandidate.txLockRequest c)) ->
    find (prevout txin) (CDirectSend.mapLockedOutpoints s) = Some hashConflicting ->
    hashConflicting <> CTxLockCandidate.GetHash c ->
    let s' := CDirectSend.TryToFinalizeLockCandidate E c s in
    snd (CDirectSend.ResolveConflicts E c s) = false
    /\ count (CTxLockCandidate.GetHash c) (CDirectSend.mapLockRequestRejected s') = true
    /\ count hashConflicting (CDirectSend.mapLockRequestRejected s') = true
    /\ (forall k c', (k = CTxLockCandidate.GetHash c \/ k = hashConflicting) ->
                     find k (CDirectSend.mapTxLockCandidates s') = Some c' ->
                     CTxLockCandidate.nConfirmedHeight c' = 0)
    /\ (forall o h, find o (CDirectSend.mapLockedOutpoints s') = Some h ->
                    find o (CDirectSend.mapLockedOutpoints s) = Some h).
End CompletedConflict.

(** C2, as amended.  [TryToFinalizeLockCandidate] runs on an all-ready
    candidate; the first input, in the order of [vin], that is locked by
    another transaction or spent in the mempool by another transaction is
    locked by [hashConflicting], whose candidate exists.  Then both candidates
    get the confirmed height 0, [CheckAndRemove] runs, both requests are
    recorded as rejected, [ResolveConflicts] fails, and no outpoint is locked
    that was not locked before. *)
Theorem completed_conflict_drops_both {P : Params} (E : Env) (s : CDirectSend.t)
        (c c2 : CTxLockCandidate.t) (pre post : list CTxIn) (txin : CTxIn)
        (hashConflicting : uint256) :
  let txHash := CTxLockCandidate.GetHash c in
  SPORK_2_DIRECTSEND_ENABLED E = true ->
  find txHash (CDirectSend.mapTxLockCandidates s) = Some c ->
  CTxLockCandidate.IsAllOutPointsReady c = true ->
  CTxLockRequest.vin (CTxLockCandidate.txLockRequest c) = pre ++ txin :: post ->
  Forall (clear_input E txHash s) pre ->
  In (prevout txin) (keys (CTxLockCandidate.mapOutPointLocks c)) ->
  find (prevout txin) (CDirectSend.mapLockedOutpoints s) = Some hashConflicting ->
  hashConflicting <> txHash ->
  find hashConflicting (CDirectSend.mapTxLockCandidates s) = Some c2 ->
  let expired := CDirectSend.expire_both txHash hashConflicting s in
  let s' :=
    CDirectSend.set_rejected (insert hashConflicting (CTxLockCandidate.txLockRequest c2))
      (CDirectSend.set_rejected (insert txHash (CTxLockCandidate.txLockRequest c))
         (CDirectSend.CheckAndRemove E expired)) in
  CDirectSend.ResolveConflicts E c s = (s', false)
  /\ CDirectSend.TryToFinalizeLockCandidate E c s = s'
  /\ find txHash (CDirectSend.mapTxLockCandidates expired)
     = Some (CTxLockCandidate.SetConfirmedHeight 0 c)
  /\ find hashConflicting (CDirectSend.mapTxLockCandidates expired)
     = Some (CTxLockCandidate.SetConfirmedHeight 0 c2)
  /\ count txHash (CDirectSend.mapLockRequestRejected s') = true
  /\ count hashConflicting (CDirectSend.mapLockRequestRejected s') = true
  /\ (forall o h, find o (CDirectSend.mapLockedOutpoints s') = Some h ->
                  find o (CDirectSend.mapLockedOutpoints s) = Some h).
Proof.
  intros txHash Hspork Hc Hready Hvin Hpre Hown Hl Hne Hc2 expired s'.
  assert (CDirectSend.ResolveConflicts E c s = (s', false)) as Hres.
  { unfold CDirectSend.ResolveConflicts. rewrite Hready. simpl negb. cbv iota.
    fold txHash. rewrite Hvin.
    rewrite scan_conflicts_first with (hashConflicting := hashConflicting) by assumption.
    unfold CDirectSend.drop_both. rewrite Hc, Hc2. reflexivity. }
  split; [exact Hres|]. split.
  { unfold CDirectSend.TryToFinalizeLockCandidate. rewrite Hspork, Hready. simpl negb.
    cbv iota.
    change (CTxLockRequest.GetHash (CTxLockCandidate.txLockRequest c)) with txHash.
    rewrite foreign_lock_not_locked with (c := c) (o := prevout txin) (h := hashConflicting)
      by assumption.
    simpl andb. cbv iota.
    rewrite Hres. reflexivity. }
  assert (keqb txHash hashConflicting = false) as Hk1
    by (apply keqb_neq; congruence).
  assert (keqb hashConflicting txHash = false) as Hk2
    by (apply keqb_neq; congruence).
  split.
  { unfold expired, CDirectSend.expire_both. simpl.
    rewrite find_update, Hk1, find_update, keqb_refl, Hc. reflexivity. }
  split.
  { unfold expired, CDirectSend.expire_both. simpl.
    rewrite find_update, keqb_refl, find_update, Hk2, Hc2. reflexivity. }
  split.
  { apply count_find. unfold s'. simpl. rewrite !find_insert, Hk1, keqb_refl.
    match goal with |- context [match ?x with _ => _ end] => destruct x end; eauto. }
  split.
  { apply count_find. unfold s'. simpl. rewrite find_insert, keqb_refl.
    match goal with |- context [match ?x with _ => _ end] => destruct x end; eauto. }
  intros o h Hf. unfold s' in Hf. simpl in Hf.
  destruct (CheckAndRemove_subview E expired) as [_ [_ [Hlk _]]].
  apply Hlk in Hf. exact Hf.
Qed.

Module ConflictExamples.
Definition a := Demo.op 1 0.
Definition b := Demo.op 1 1.

Definition candidate (tx : uint256) (ins : list COutPoint.t) : CTxLockCandidate.t :=
  CTxLockCandidate.mk (Demo.request tx ins)
                      (map (fun o => (o, Demo.lock_of tx o Demo.six 1000)) ins) (-1) 1000.

(** Transaction 22 holds the completed lock on [b]; transaction 21 spends [a]
    and [b] and has all its votes. *)
Definition raced : CDirectSend.t :=
  CDirectSend.set_candidates (fun _ => [(21, candidate 21 [a; b]); (22, candidate 22 [b])])
    (CDirectSend.set_locked (fun _ => [(b, 22)])
       (CDirectSend.set_height 100 CDirectSend.empty)).

(** The mempool holds transaction 99, which spends [a]. *)
Definition env_mempool : Env :=
  Demo.mkenv (fun _ => None) false true 1000
             (fun o => if COutPoint.eqb o a then Some 99 else None) (fun _ => true).
End ConflictExamples.

Lemma completed_conflict_drops_both_witness :
  CDirectSend.mapTxLockCandidates
    (CDirectSend.TryToFinalizeLockCandidate (P := Demo.params) Demo.env
       (ConflictExamples.candidate 21 [ConflictExamples.a; ConflictExamples.b])
       ConflictExamples.raced) = []
  /\ keys (CDirectSend.mapLockRequestRejected
             (CDirectSend.TryToFinalizeLockCandidate (P := Demo.params) Demo.env
                (ConflictExamples.candidate 21 [ConflictExamples.a; ConflictExamples.b])
                ConflictExamples.raced)) = [21; 22].
Proof.
  destruct (@completed_conflict_drops_both Demo.params Demo.env ConflictExamples.raced
              (ConflictExamples.candidate 21 [ConflictExamples.a; ConflictExamples.b])
              (ConflictExamples.candidate 22 [ConflictExamples.b])
              [{| prevout := ConflictExamples.a |}] [] {| prevout := ConflictExamples.b |} 22
              eq_refl eq_refl eq_refl eq_refl)
    as [_ [Hfin _]].
  - constructor; [|constructor]. split; exact I.
  - simpl. auto.
  - reflexivity.
  - discriminate.
  - reflexivity.
  - rewrite Hfin. split; reflexivity.
Defined.

(** The first input of transaction 21 is spent in the mempool by
    transaction 99: [ResolveConflicts] fails there, and nothing is expired or
    rejected although the second input is locked by transaction 22. *)
Lemma completed_conflict_behind_mempool_counterexample :
  ~ conflict_policy_as_specified (P := Demo.params) ConflictExamples.env_mempool
      ConflictExamples.raced.
Proof.
  intros H.
  destruct (H (ConflictExamples.candidate 21 [ConflictExamples.a; ConflictExamples.b])
              {| prevout := ConflictExamples.b |} 22
              eq_refl eq_refl eq_refl (or_intror (or_introl eq_refl)) eq_refl)
    as [_ [Hrej _]].
  - discriminate.
  - vm_compute in Hrej. discriminate Hrej.
Qed.

(** ** Confirmed heights of stored votes *)

Section StoredVotes.
Context {P : Params}.

Lemma find_filter_keep {K V} `{OrdKey K} (p : K * V -> bool) (m : StdMap.t K V) k v :
  find k m = Some v -> p (k, v) = true -> find k (filter p m) = Some v.
Proof.
  induction m as [|[k0 v0] m IH]; simpl; [discriminate|].
  destruct (keqb k k0) eqn:Ek.
  - intros [= ->] Hp. apply keqb_eq in Ek. subst k0. rewrite Hp. simpl.
    rewrite keqb_refl. reflexivity.
  - intros Hf Hp. destruct (p (k0, v0)); simpl; [rewrite Ek|]; auto.
Qed.

(** The stored vote under [k] is out of reach of the sweep at [E]: it has
    no confirmed height, is younger than the failed timeout, and no orphan
    vote filed under [k] is timed out. *)
Definition vote_kept (E : Env) (k : uint256) (v : CTxLockVote.t) (s : CDirectSend.t) : Prop :=
  find k (CDirectSend.mapTxLockVotes s) = Some v
  /\ CTxLockVote.nConfirmedHeight v = -1
  /\ GetTime E - CTxLockVote.nTimeCreated v <= DIRECTSEND_FAILED_TIMEOUT_SECONDS
  /\ forall ov, In (k, ov) (CDirectSend.mapTxLockVotesOrphan s) ->
                CTxLockVote.IsTimedOut E ov = false.

Lemma remove_expired_candidates_votes cs : forall s,
  CDirectSend.mapTxLockVotes (CDirectSend.remove_expired_candidates cs s)
  = CDirectSend.mapTxLockVotes s
  /\ CDirectSend.mapTxLockVotesOrphan (CDirectSend.remove_expired_candidates cs s)
     = CDirectSend.mapTxLockVotesOrphan s.
Proof.
  induction cs as [|[k c] cs IH]; simpl; intros s; [auto|].
  destruct (CTxLockCandidate.IsExpired (CDirectSend.nCachedBlockHeight s) c);
    [|apply IH].
  destruct (IH (CDirectSend.erase_candidate k c s)) as [-> ->]. auto.
Qed.

Lemma remove_timed_out_orphans_keeps E k v os : forall s,
  find k (CDirectSend.mapTxLockVotes s) = Some v ->
  (forall ov, In (k, ov) os -> CTxLockVote.IsTimedOut E ov = false) ->
  find k (CDirectSend.mapTxLockVotes (CDirectSend.remove_timed_out_orphans E os s)) = Some v.
Proof.
  induction os as [|[k0 v0] os IH]; simpl; intros s Hf Hos; [exact Hf|].
  apply IH; [|intros ov Hin; apply Hos; auto].
  destruct (CTxLockVote.IsTimedOut E v0) eqn:Ht; [|exact Hf].
  simpl. rewrite find_erase. destruct (keqb k k0) eqn:Ek; [|exact Hf].
  apply keqb_eq in Ek. subst k0. rewrite (Hos v0 (or_introl eq_refl)) in Ht. discriminate.
Qed.

Lemma CheckAndRemove_keeps_vote E k v s :
  vote_kept E k v s -> vote_kept E k v (CDirectSend.CheckAndRemove E s).
Proof.
  intros [Hf [Hh [Hage Horph]]].
  split; [|split; [exact Hh|split; [exact Hage|]]].
  - unfold CDirectSend.CheckAndRemove.
    destruct (IsMasternodeListSynced E); simpl negb; cbv iota; [|exact Hf].
    set (s1 := CDirectSend.remove_expired_candidates (CDirectSend.mapTxLockCandidates s) s).
    destruct (remove_expired_candidates_votes (CDirectSend.mapTxLockCandidates s) s)
      as [Hv1 Ho1]. fold s1 in Hv1, Ho1.
    simpl. apply find_filter_keep.
    + apply remove_timed_out_orphans_keeps.
      * simpl. apply find_filter_keep; [rewrite Hv1; exact Hf|].
        simpl. unfold CTxLockVote.IsExpired. rewrite Hh. reflexivity.
      * simpl. rewrite Ho1. exact Horph.
    + simpl. unfold CDirectSend.IsFailed.
      destruct (Z.gtb_spec (GetTime E - CTxLockVote.nTimeCreated v)
                           DIRECTSEND_FAILED_TIMEOUT_SECONDS); [lia | reflexivity].
  - intros ov Hin. apply Horph.
    destruct (CheckAndRemove_subview E s) as [_ [_ [_ [_ [_ [_ [_ Ho]]]]]]].
    apply Ho. exact Hin.
Qed.

(** *** [SyncTransaction] *)

Definition height_is (h : Z) (k : uint256) (m : StdMap.t uint256 CTxLockVote.t) : Prop :=
  exists v', find k m = Some v' /\ CTxLockVote.nConfirmedHeight v' = h.

Lemma height_is_update h k k' m :
  height_is h k m -> height_is h k (update k' (CTxLockVote.SetConfirmedHeight h) m).
Proof.
  intros [v' [Hf Hh]]. unfold height_is. rewrite find_update, Hf.
  destruct (keqb k k'); simpl; eauto.
Qed.

Lemma height_is_insert h k k' x m : height_is h k m -> height_is h k (insert k' x m).
Proof.
  intros [v' [Hf Hh]]. unfold height_is. rewrite find_insert.
  destruct (keqb k k') eqn:Ek; [|eauto].
  apply keqb_eq in Ek. subst k'. rewrite Hf. eauto.
Qed.

Lemma update_sets_height h k m :
  count k m = true -> height_is h k (update k (CTxLockVote.SetConfirmedHeight h) m).
Proof.
  intros Hc. apply count_find in Hc. destruct Hc as [x Hx].
  unfold height_is. rewrite find_update, keqb_refl, Hx. simpl. eauto.
Qed.

Lemma count_update {V} (k k' : uint256) (f : V -> V) (m : StdMap.t uint256 V) :
  count k (update k' f m) = count k m.
Proof.
  unfold count. rewrite find_update.
  destruct (keqb k k'); destruct (find k m); reflexivity.
Qed.

Definition sync_vote (h : Z) (st : CDirectSend.t) (v : CTxLockVote.t) : CDirectSend.t :=
  CDirectSend.set_votes
    (update (CTxLockVote.GetHash v) (CTxLockVote.SetConfirmedHeight h)) st.

Lemma sync_votes_heights h vs : forall st,
  let st' := fold_left (sync_vote h) vs st in
  CDirectSend.mapTxLockCandidates st' = CDirectSend.mapTxLockCandidates st
  /\ CDirectSend.mapTxLockVotesOrphan st' = CDirectSend.mapTxLockVotesOrphan st
  /\ (forall k, height_is h k (CDirectSend.mapTxLockVotes st) ->
                height_is h k (CDirectSend.mapTxLockVotes st'))
  /\ (forall v, In v vs ->
                count (CTxLockVote.GetHash v) (CDirectSend.mapTxLockVotes st) = true ->
                height_is h (CTxLockVote.GetHash v) (CDirectSend.mapTxLockVotes st')).
Proof.
  induction vs as [|v0 vs IH]; intros st; cbv zeta; simpl fold_left.
  - repeat split; auto. intros v [].
  - destruct (IH (sync_vote h st v0)) as [Hc [Ho [Hk Hv]]].
    rewrite Hc, Ho. split; [reflexivity|]. split; [reflexivity|]. split.
    + intros k Hg. apply Hk. simpl. apply height_is_update. exact Hg.
    + intros v [<-|Hin] Hcount.
      * apply Hk. simpl. apply update_sets_height. exact Hcount.
      * apply Hv; [exact Hin|]. simpl. rewrite count_update. exact Hcount.
Qed.

Definition sync_orphan (E : Env) (txHash : uint256) (h : Z) (st : CDirectSend.t)
           (e : uint256 * CTxLockVote.t) : CDirectSend.t :=
  if CTxLockVote.GetTxHash (snd e) =? txHash then
    CDirectSend.set_votes
      (fun m => update (fst e) (CTxLockVote.SetConfirmedHeight h)
                       (insert (fst e) (CTxLockVote.null (GetTime E)) m)) st
  else st.

Lemma sync_orphans_heights E txHash h os : forall st,
  let st' := fold_left (sync_orphan E txHash h) os st in
  CDirectSend.mapTxLockCandidates st' = CDirectSend.mapTxLockCandidates st
  /\ (forall k, height_is h k (CDirectSend.mapTxLockVotes st) ->
                height_is h k (CDirectSend.mapTxLockVotes st'))
  /\ (forall k ov, In (k, ov) os -> CTxLockVote.GetTxHash ov = txHash ->
                   height_is h k (CDirectSend.mapTxLockVotes st')).
Proof.
  induction os as [|e os IH]; intros st; cbv zeta; simpl fold_left.
  - repeat split; auto. intros k ov [].
  - destruct (IH (sync_orphan E txHash h st e)) as [Hc [Hk Ho]].
    rewrite Hc. split.
    { unfold sync_orphan. destruct (_ =? txHash); reflexivity. }
    split.
    + intros k Hg. apply Hk. unfold sync_orphan.
      destruct (_ =? txHash); [|exact Hg].
      simpl. apply height_is_update, height_is_insert. exact Hg.
    + intros k ov [->|Hin] Htx; [|eapply Ho; eauto].
      apply Hk. unfold sync_orphan. simpl fst. simpl snd.
      rewrite Htx, Z.eqb_refl. simpl. apply update_sets_height.
      apply count_find. rewrite find_insert, keqb_refl.
      destruct (find k (CDirectSend.mapTxLockVotes st)); eauto.
Qed.


(** *** Conflict resolution *)






End StoredVotes.


Module PropagationExamples.
Definition a := Demo.op 1 0.
Definition b := Demo.op 1 1.


Definition candidate (tx : uint256) (ins : list COutPoint.t) : CTxLockCandidate.t :=
  CTxLockCandidate.mk (Demo.request tx ins)
                      (map (fun o => (o, Demo.lock_of tx o Demo.six 1000)) ins) (-1) 1000.



(** Block 500 is at height 100. *)
Definition env : Env :=
  Demo.mkenv (fun b => if b =? 500 then Some 100 else None) false true 1000
             (fun _ => None) (fun _ => true).
End PropagationExamples.



(** ** An invalid vote that arrives again *)

Section LaterArrival.
Context {P : Params}.

(** The claim in the words of the specification: the vote that failed
    validation is stored, and whatever the engine does next, an arrival of
    the same vote leaves the engine as it is. *)
Definition known_for_good_as_specified (E : Env) (pfrom : CNode) (strCommand : string)
           (vote : CTxLockVote.t) (s : CDirectSend.t) : Prop :=
  vote_message_read E pfrom strCommand = true ->
  count (CTxLockVote.GetHash vote) (CDirectSend.mapTxLockVotes s) = false ->
  fst (CTxLockVote.IsValid E vote) = false ->
  exists s',
    CDirectSend.ProcessMessage 1 E pfrom strCommand vote s
    = Some (forget_asked (CTxLockVote.GetHash vote) pfrom, s')
    /\ find (CTxLockVote.GetHash vote) (CDirectSend.mapTxLockVotes s') = Some vote
    /\ forall fuel1 E1 op s1,
         CDirectSend.run fuel1 E1 op s' = Some s1 ->
         forall fuel2 E2 pfrom2,
         exists pfrom2',
           CDirectSend.ProcessMessage fuel2 E2 pfrom2 strCommand vote s1 = Some (pfrom2', s1).
End LaterArrival.

(** C9, as amended.  A vote message that passes the gates of
  [ProcessMessage] is stored in [mapTxLockVotes] before it is validated.
  When validation fails, [ProcessTxLockVote] returns false, the vote stays
  stored, and no candidate, orphan or voted-outpoint entry is made for it.
  As long as its hash is in [mapTxLockVotes], every arrival of the same vote
  leaves the engine unchanged, whatever the collaborators answer by then; and
  [CheckAndRemove] leaves it there while it has no confirmed height, is not
  older than the failed timeout and no orphan vote under its hash is timed
  out.  Once its hash is gone from [mapTxLockVotes], a vote message with it is
  stored and handed to [ProcessTxLockVote] like a new one. *)
Theorem invalid_vote_stays_known {P : Params} (fuel : nat) (E : Env) (pfrom : CNode)
        (strCommand : string) (vote : CTxLockVote.t) (s : CDirectSend.t) :
  vote_message_read E pfrom strCommand = true ->
  count (CTxLockVote.GetHash vote) (CDirectSend.mapTxLockVotes s) = false ->
  fst (CTxLockVote.IsValid E vote) = false ->
  let stored := CDirectSend.set_votes (insert (CTxLockVote.GetHash vote) vote) s in
  let s' := CDirectSend.emit (snd (CTxLockVote.IsValid E vote)) stored in
  CDirectSend.ProcessTxLockVote (S fuel) E vote stored = Some (s', false) /\
  CDirectSend.ProcessMessage (S fuel) E pfrom strCommand vote s
  = Some (forget_asked (CTxLockVote.GetHash vote) pfrom, s') /\
  find (CTxLockVote.GetHash vote) (CDirectSend.mapTxLockVotes s') = Some vote /\
  CDirectSend.mapTxLockCandidates s' = CDirectSend.mapTxLockCandidates s /\
  CDirectSend.mapTxLockVotesOrphan s' = CDirectSend.mapTxLockVotesOrphan s /\
  CDirectSend.mapVotedOutpoints s' = CDirectSend.mapVotedOutpoints s /\
  (forall fuel' E' pfrom2 strCommand2,
    exists pfrom2',
      CDirectSend.ProcessMessage fuel' E' pfrom2 strCommand2 vote s' = Some (pfrom2', s')) /\
  (forall s'' fuel' E' pfrom2 strCommand2,
    count (CTxLockVote.GetHash vote) (CDirectSend.mapTxLockVotes s'') = true ->
    exists pfrom2',
      CDirectSend.ProcessMessage fuel' E' pfrom2 strCommand2 vote s'' = Some (pfrom2', s'')) /\
  (forall E',
    CTxLockVote.nConfirmedHeight vote = -1 ->
    GetTime E' - CTxLockVote.nTimeCreated vote <= DIRECTSEND_FAILED_TIMEOUT_SECONDS ->
    (forall ov, In (CTxLockVote.GetHash vote, ov) (CDirectSend.mapTxLockVotesOrphan s) ->
                CTxLockVote.IsTimedOut E' ov = false) ->
    find (CTxLockVote.GetHash vote)
         (CDirectSend.mapTxLockVotes (CDirectSend.CheckAndRemove E' s')) = Some vote) /\
  (forall s'' fuel' E' pfrom2 strCommand2,
    vote_message_read E' pfrom2 strCommand2 = true ->
    count (CTxLockVote.GetHash vote) (CDirectSend.mapTxLockVotes s'') = false ->
    CDirectSend.ProcessMessage fuel' E' pfrom2 strCommand2 vote s''
    = match CDirectSend.ProcessTxLockVote fuel' E' vote
              (CDirectSend.set_votes (insert (CTxLockVote.GetHash vote) vote) s'') with
      | None => None
      | Some (s3, _) => Some (forget_asked (CTxLockVote.GetHash vote) pfrom2, s3)
      end).
Proof.
  intros Hread Hnew Hinv stored s'.
  assert (CDirectSend.ProcessTxLockVote (S fuel) E vote stored = Some (s', false)) as Hp.
  { simpl. destruct (CTxLockVote.IsValid E vote) as [valid asked]. simpl in Hinv. subst valid.
    reflexivity. }
  assert (find (CTxLockVote.GetHash vote) (CDirectSend.mapTxLockVotes s') = Some vote) as Hf.
  { simpl. rewrite find_insert, keqb_refl.
    apply count_false in Hnew. rewrite Hnew. reflexivity. }
  split; [exact Hp|]. split.
  { rewrite ProcessMessage_read by exact Hread. rewrite Hnew. fold stored. rewrite Hp.
    reflexivity. }
  split; [exact Hf|]. repeat (split; [reflexivity|]).
  split.
  { intros fuel' E' pfrom2 strCommand2. apply ProcessMessage_known.
    apply count_find. eauto. }
  split.
  { intros s'' fuel' E' pfrom2 strCommand2 Hk. apply ProcessMessage_known. exact Hk. }
  split.
  { intros E' Hh Hage Horph.
    apply (CheckAndRemove_keeps_vote (E := E') (k := CTxLockVote.GetHash vote) (v := vote)
                                     (s := s')).
    unfold vote_kept. repeat split; assumption. }
  intros s'' fuel' E' pfrom2 strCommand2 Hread2 Hgone.
  rewrite ProcessMessage_read by exact Hread2. rewrite Hgone. reflexivity.
Qed.

Module ArrivalExamples.
Definition vote := Demo.mkvote 21 (Demo.op 1 0) (Demo.op 7 1) 1000.
Definition peer : CNode := {| nVersion := 70208; setAskFor := [] |}.

(** At time 1000 no masternode is known to the node; at time 1061 all are. *)
Definition early : Env :=
  Demo.mkenv (fun _ => None) false true 1000 (fun _ => None) (fun _ => false).
Definition later : Env :=
  Demo.mkenv (fun _ => None) false true 1061 (fun _ => None) (fun _ => true).

(** The engine after the vote arrived at time 1000 and failed validation. *)
Definition refused : CDirectSend.t :=
  CDirectSend.emit [EvAskForMN (Demo.op 7 1)]
    (CDirectSend.set_votes (fun _ => [(CTxLockVote.GetHash (P := Demo.params) vote, vote)])
       CDirectSend.empty).
End ArrivalExamples.

Lemma invalid_vote_stays_known_witness :
  CDirectSend.ProcessMessage (P := Demo.params) 1 ArrivalExamples.early ArrivalExamples.peer
    "txlvote" ArrivalExamples.vote CDirectSend.empty
  = Some (ArrivalExamples.peer, ArrivalExamples.refused)
  /\ (exists pfrom2',
        CDirectSend.ProcessMessage (P := Demo.params) 2 Demo.env ArrivalExamples.peer "txlvote"
          ArrivalExamples.vote ArrivalExamples.refused
        = Some (pfrom2', ArrivalExamples.refused))
  /\ find (CTxLockVote.GetHash (P := Demo.params) ArrivalExamples.vote)
          (CDirectSend.mapTxLockVotes
             (CDirectSend.CheckAndRemove (P := Demo.params) Demo.env ArrivalExamples.refused))
     = Some ArrivalExamples.vote.
Proof.
  destruct (invalid_vote_stays_known (P := Demo.params) 0 ArrivalExamples.early
              ArrivalExamples.peer "txlvote" ArrivalExamples.vote CDirectSend.empty
              eq_refl eq_refl eq_refl) as [_ [Hm [_ [_ [_ [_ [Hlater [_ [Hkept _]]]]]]]]].
  split; [exact Hm|]. split; [apply Hlater|].
  apply Hkept; [reflexivity | simpl; lia | intros ov []].
Defined.

(** The vote that failed validation at time 1000 is older than the failed
  timeout of 60 seconds at time 1061 and its transaction is not locked:
  [CheckAndRemove] sweeps it from [mapTxLockVotes], and the same vote arriving
  then is stored again, relayed and filed as an orphan vote. *)
Lemma swept_vote_is_new_counterexample :
  ~ known_for_good_as_specified (P := Demo.params) ArrivalExamples.early ArrivalExamples.peer
      "txlvote" ArrivalExamples.vote CDirectSend.empty.
Proof.
  intros H.
  destruct (H eq_refl eq_refl eq_refl) as [s' [Hs' [_ Hlater]]].
  vm_compute in Hs'. injection Hs' as <-.
  destruct (Hlater 1%nat ArrivalExamples.later CDirectSend.OpCheckAndRemove _ eq_refl
                   1%nat ArrivalExamples.later ArrivalExamples.peer) as [pfrom2' Hdrop].
  vm_compute in Hdrop. discriminate Hdrop.
Qed.

(** The sweep at time 1061 and the arrival after it, step by step. *)
Example swept_vote_processed_again :
  CDirectSend.mapTxLockVotes
    (CDirectSend.CheckAndRemove (P := Demo.params) ArrivalExamples.later ArrivalExamples.refused)
  = []
  /\ exists s2,
       CDirectSend.ProcessMessage (P := Demo.params) 1 ArrivalExamples.later
         ArrivalExamples.peer "txlvote" ArrivalExamples.vote
         (CDirectSend.CheckAndRemove (P := Demo.params) ArrivalExamples.later
            ArrivalExamples.refused)
       = Some (ArrivalExamples.peer, s2)
       /\ CDirectSend.events s2
          = [EvAskForMN (Demo.op 7 1);
             EvRelayVote (CTxLockVote.GetHash (P := Demo.params) ArrivalExamples.vote)]
       /\ find (CTxLockVote.GetHash (P := Demo.params) ArrivalExamples.vote)
               (CDirectSend.mapTxLockVotes s2) = Some ArrivalExamples.vote
       /\ find (CTxLockVote.GetHash (P := Demo.params) ArrivalExamples.vote)
               (CDirectSend.mapTxLockVotesOrphan s2) = Some ArrivalExamples.vote.
Proof.
  split; [reflexivity|]. eexists. split; [vm_compute; reflexivity|].
  repeat split; reflexivity.
Qed.

(** ** A conflicting vote, from the message to its candidate *)

Section ConflictingVote.
Context {P : Params}.






End ConflictingVote.




(** ** Properties kept by the whole engine

    A property [I] of the engine state that the elementary updates of the
    maps keep is kept by every function of the engine.  [R] is what [I] says
    of each candidate, [A] what a vote must satisfy to be filed as an
    orphan. *)

Section Traversal.
Context {P : Params}.
Variable E : Env.
Variable I : CDirectSend.t -> Prop.
Variable A : CTxLockVote.t -> CDirectSend.t -> Prop.
Variable R : CTxLockCandidate.t -> Prop.

Hypothesis I_emit : forall evs s, I s -> I (CDirectSend.emit evs s).
Hypothesis I_complete : forall n s, I s -> I (CDirectSend.set_complete n s).
Hypothesis I_locked : forall f s, I s -> I (CDirectSend.set_locked f s).
Hypothesis I_voted : forall f s, I s -> I (CDirectSend.set_voted f s).
Hypothesis I_rejected : forall f s, I s -> I (CDirectSend.set_rejected f s).
Hypothesis I_mnorphans : forall f s, I s -> I (CDirectSend.set_mnorphans f s).
Hypothesis I_votes_insert :
  forall h v s, I s -> I (CDirectSend.set_votes (insert h v) s).
Hypothesis I_orphans_erase :
  forall k s, I s -> I (CDirectSend.set_orphans (erase k) s).
Hypothesis I_orphans_set :
  forall vote s,
    I s -> A vote s ->
    count (CTxLockVote.GetHash vote) (CDirectSend.mapTxLockVotesOrphan s) = false ->
    I (CDirectSend.set_orphans (set (CTxLockVote.GetHash vote) vote) s).
Hypothesis I_candidates_insert :
  forall k c s, I s -> R c -> I (CDirectSend.set_candidates (insert k c) s).
Hypothesis I_candidates_update :
  forall k f s, I s -> (forall c, R c -> R (f c)) ->
                I (CDirectSend.set_candidates (update k f) s).
Hypothesis I_sweep : forall s, I s -> I (CDirectSend.CheckAndRemove E s).
Hypothesis I_candidate :
  forall s k c, I s -> find k (CDirectSend.mapTxLockCandidates s) = Some c -> R c.
Hypothesis A_orphan :
  forall s k vote, I s -> find k (CDirectSend.mapTxLockVotesOrphan s) = Some vote -> A vote s.
Hypothesis A_frame :
  forall vote s s',
    CDirectSend.mapTxLockVotesOrphan s' = CDirectSend.mapTxLockVotesOrphan s ->
    A vote s -> A vote s'.
Hypothesis R_create : forall now r, R (CTxLockCandidate.create now r).
Hypothesis R_set_request : forall r c, R c -> R (CTxLockCandidate.set_request r c).
Hypothesis R_AddOutPointLock : forall o c, R c -> R (CTxLockCandidate.AddOutPointLock o c).
Hypothesis R_Mark : forall o c, R c -> R (CTxLockCandidate.MarkOutpointAsAttacked o c).
Hypothesis R_AddVote : forall vote c, R c -> R (fst (CTxLockCandidate.AddVote vote c)).
Hypothesis R_SetConfirmedHeight :
  forall h c, R c -> R (CTxLockCandidate.SetConfirmedHeight h c).

Lemma add_inputs_keeps ins c : R c -> R (CDirectSend.add_inputs ins c).
Proof.
  unfold CDirectSend.add_inputs. revert c.
  induction (rev ins) as [|x l IH]; simpl; intros c Hc; auto.
Qed.

Lemma CreateEmptyTxLockCandidate_keeps txHash s :
  I s -> I (CDirectSend.CreateEmptyTxLockCandidate E txHash s).
Proof.
  intros Hs. unfold CDirectSend.CreateEmptyTxLockCandidate.
  destruct (find txHash (CDirectSend.mapTxLockCandidates s)); auto.
Qed.

Lemma CreateTxLockCandidate_keeps r s :
  I s -> I (fst (CDirectSend.CreateTxLockCandidate E r s)).
Proof.
  intros Hs. unfold CDirectSend.CreateTxLockCandidate.
  destruct (CTxLockRequest.IsValid E r); simpl; [|exact Hs].
  destruct (find (CTxLockRequest.GetHash r) (CDirectSend.mapTxLockCandidates s)) as [c|].
  - destruct (CTxLockRequest.is_set (CTxLockCandidate.txLockRequest c)); simpl; [exact Hs|].
    destruct (CTxLockCandidate.IsTimedOut E c); simpl.
    + apply I_candidates_update; auto.
    + apply I_candidates_update; [apply I_candidates_update; auto|].
      intros c0. apply add_inputs_keeps.
  - simpl. apply I_candidates_insert; [exact Hs|]. apply add_inputs_keeps, R_create.
Qed.

Lemma mark_conflicts_keeps vote txHash hashes : forall s,
  I s -> I (CDirectSend.mark_conflicts vote txHash hashes s).
Proof.
  induction hashes as [|hash rest IH]; simpl; intros s Hs; [exact Hs|].
  apply IH. destruct (negb (hash =? txHash)); [|exact Hs].
  destruct (find hash (CDirectSend.mapTxLockCandidates s)) as [c2|]; [|exact Hs].
  destruct (CTxLockCandidate.HasMasternodeVoted _ _ c2); [|exact Hs].
  apply I_emit. apply I_candidates_update; [apply I_candidates_update|]; auto.
Qed.

Lemma attach_vote_keeps vote txHash s :
  I s -> I (fst (CDirectSend.attach_vote vote txHash s)).
Proof.
  intros Hs. unfold CDirectSend.attach_vote.
  match goal with |- context [find txHash (CDirectSend.mapTxLockCandidates ?x)] =>
    set (s1 := x); assert (I s1) as H1 end.
  { unfold s1. destruct (find _ (CDirectSend.mapVotedOutpoints s));
      apply I_voted; [apply mark_conflicts_keeps|]; exact Hs. }
  destruct (find txHash (CDirectSend.mapTxLockCandidates s1)) as [c|] eqn:Hc; [|exact H1].
  pose proof (R_AddVote vote (I_candidate _ H1 Hc)) as Hc'.
  destruct (CTxLockCandidate.AddVote vote c) as [c' ok]. simpl in *.
  apply I_candidates_update; auto.
Qed.

Lemma add_voted_keeps o txHash s : I s -> I (CDirectSend.add_voted o txHash s).
Proof.
  intros Hs. unfold CDirectSend.add_voted.
  destruct (find o (CDirectSend.mapVotedOutpoints s)); auto.
Qed.

Lemma vote_outpoints_keeps key txHash outs : forall s s',
  I s -> CDirectSend.vote_outpoints E key txHash outs s = Some s' -> I s'.
Proof.
  induction outs as [|o rest IH]; simpl; intros s s' Hs Hv.
  - injection Hv as <-. exact Hs.
  - destruct (GetUTXOHeight E o =? -1); [injection Hv as <-; exact Hs|].
    destruct (GetMasternodeRank E _ _ _) as [nRank|]; [|eapply IH; eauto].
    destruct (nRank >? SIGNATURES_TOTAL); [eapply IH; eauto|].
    match type of Hv with match ?x with _ => _ end = _ => destruct x as [[|]|] end;
      [eapply IH; eauto | | discriminate].
    destruct (CTxLockVote.Sign E _) as [vote|]; [|injection Hv as <-; exact Hs].
    destruct (negb (CTxLockVote.CheckSignature E vote)); [injection Hv as <-; exact Hs|].
    simpl in Hv.
    destruct (find key (CDirectSend.mapTxLockCandidates s)) as [c|] eqn:Hc; [|discriminate].
    pose proof (R_AddVote vote (I_candidate _ Hs Hc)) as Hc'.
    destruct (CTxLockCandidate.AddVote vote c) as [c' ok]. simpl in Hc'.
    assert (I (CDirectSend.set_candidates (update key (fun _ => c'))
                 (CDirectSend.set_votes (insert (CTxLockVote.GetHash vote) vote) s))) as H2.
    { apply I_candidates_update; auto. }
    destruct ok; eapply IH; try exact Hv; auto using add_voted_keeps.
Qed.

Lemma Vote_keeps key s s' : I s -> CDirectSend.Vote E key s = Some s' -> I s'.
Proof.
  intros Hs. unfold CDirectSend.Vote.
  destruct (negb (fMasterNode E)); [intros [= <-]; exact Hs|].
  destruct (negb (SPORK_2_DIRECTSEND_ENABLED E)); [intros [= <-]; exact Hs|].
  destruct (find key (CDirectSend.mapTxLockCandidates s)); [|discriminate].
  apply vote_outpoints_keeps. exact Hs.
Qed.

Lemma orphan_rate_limit_keeps vote s r :
  I s -> CDirectSend.orphan_rate_limit E vote s = Some r -> I (fst r).
Proof.
  intros Hs. unfold CDirectSend.orphan_rate_limit.
  destruct (find _ (CDirectSend.mapMasternodeOrphanVotes s)) as [prev|];
    [|intros [= <-]; simpl; auto].
  destruct (prev >? GetTime E); [|intros [= <-]; simpl; auto].
  destruct (CDirectSend.GetAverageMasternodeOrphanVoteTime s) as [avg|]; [|discriminate].
  destruct (prev >? avg); intros [= <-]; simpl; auto.
Qed.

Lemma LockTransactionInputs_keeps c s : I s -> I (CDirectSend.LockTransactionInputs E c s).
Proof.
  intros Hs. unfold CDirectSend.LockTransactionInputs.
  destruct (negb (SPORK_2_DIRECTSEND_ENABLED E)); [exact Hs|].
  destruct (negb (CTxLockCandidate.IsAllOutPointsReady c)); auto.
Qed.

Lemma UpdateLockedTransaction_keeps c s : I s -> I (CDirectSend.UpdateLockedTransaction E c s).
Proof.
  intros Hs. unfold CDirectSend.UpdateLockedTransaction.
  destruct (negb (CDirectSend.IsLockedDirectSendTransaction E s _)); [exact Hs|].
  apply I_emit. destruct (pwalletMain E && UpdatedTransaction E _); [|exact Hs].
  destruct (String.eqb (directsendnotify E) EmptyString); auto.
Qed.

Lemma drop_both_keeps txHash hashConflicting s :
  I s -> I (fst (CDirectSend.drop_both E txHash hashConflicting s)).
Proof.
  intros Hs. unfold CDirectSend.drop_both.
  destruct (find txHash (CDirectSend.mapTxLockCandidates s)); [|exact Hs].
  destruct (find hashConflicting (CDirectSend.mapTxLockCandidates s)); [|exact Hs].
  simpl. apply I_rejected, I_rejected, I_sweep.
  unfold CDirectSend.expire_both. auto.
Qed.

Lemma scan_conflicts_keeps txHash ins s r :
  I s -> CDirectSend.scan_conflicts E txHash ins s = Some r -> I (fst r).
Proof.
  intros Hs. induction ins as [|txin rest IH]; simpl; [discriminate|].
  match goal with |- context [match ?x with Some _ => Some _ | None => _ end] =>
    destruct x as [hc|] end.
  - intros [= <-]. apply drop_both_keeps. exact Hs.
  - destruct (mapNextTx E (prevout txin)) as [hm|]; [|exact IH].
    destruct (txHash =? hm); [exact IH|]. intros [= <-]. exact Hs.
Qed.

Lemma ResolveConflicts_keeps c s : I s -> I (fst (CDirectSend.ResolveConflicts E c s)).
Proof.
  intros Hs. unfold CDirectSend.ResolveConflicts.
  destruct (negb (CTxLockCandidate.IsAllOutPointsReady c)); [exact Hs|].
  destruct (CDirectSend.scan_conflicts E _ _ s) as [r|] eqn:Hscan.
  - eapply scan_conflicts_keeps; eauto.
  - match goal with |- context [if ?b then _ else _] => destruct b end; exact Hs.
Qed.

Lemma TryToFinalizeLockCandidate_keeps c s :
  I s -> I (CDirectSend.TryToFinalizeLockCandidate E c s).
Proof.
  intros Hs. unfold CDirectSend.TryToFinalizeLockCandidate.
  destruct (negb (SPORK_2_DIRECTSEND_ENABLED E)); [exact Hs|].
  match goal with |- context [if ?b then _ else _] => destruct b end; [|exact Hs].
  pose proof (ResolveConflicts_keeps c Hs) as Hr.
  destruct (CDirectSend.ResolveConflicts E c s) as [s1 ok]. simpl in Hr.
  destruct ok; [|exact Hr].
  apply UpdateLockedTransaction_keeps, LockTransactionInputs_keeps. exact Hr.
Qed.

(** A vote processor keeps [I] on the votes that may be filed as orphans. *)
Definition keeps (pv : CDirectSend.VoteProcessor) : Prop :=
  forall vote s r, I s -> A vote s -> pv E vote s = Some r -> I (fst r).

Lemma process_orphans_keeps pv ks :
  keeps pv -> forall s s', I s -> CDirectSend.process_orphans pv E ks s = Some s' -> I s'.
Proof.
  intros Hpv. induction ks as [|k rest IH]; simpl; intros s s' Hs Hp.
  - injection Hp as <-. exact Hs.
  - destruct (find k (CDirectSend.mapTxLockVotesOrphan s)) as [vote|] eqn:Hk;
      [|eapply IH; eauto].
    destruct (pv E vote s) as [[s1 ok]|] eqn:Hcall; [|discriminate].
    pose proof (Hpv vote s _ Hs (A_orphan _ Hs Hk) Hcall) as H1. simpl in H1.
    destruct (find k (CDirectSend.mapTxLockVotesOrphan s1)); [|discriminate].
    eapply IH; [|exact Hp]. destruct ok; auto.
Qed.

Lemma ProcessTxLockRequest_with_keeps pv r s res :
  keeps pv -> I s ->
  CDirectSend.ProcessTxLockRequest_with pv E r s = Some res -> I (fst res).
Proof.
  intros Hpv Hs. unfold CDirectSend.ProcessTxLockRequest_with.
  pose proof (CreateTxLockCandidate_keeps r Hs) as H1.
  destruct (CDirectSend.CreateTxLockCandidate E r s) as [s1 ok]. simpl in H1.
  destruct ok; simpl; [|intros [= <-]; exact H1].
  destruct (CDirectSend.Vote E _ s1) as [s2|] eqn:Hv; [|discriminate].
  assert (I s2) as H2 by (eapply Vote_keeps; eauto).
  destruct (CDirectSend.ProcessOrphanTxLockVotes_with pv E s2) as [s3|] eqn:Ho; [|discriminate].
  unfold CDirectSend.ProcessOrphanTxLockVotes_with in Ho.
  assert (I s3) as H3 by (eapply process_orphans_keeps; eauto).
  destruct (find _ (CDirectSend.mapTxLockCandidates s3)); [|discriminate].
  intros [= <-]. simpl. apply TryToFinalizeLockCandidate_keeps. exact H3.
Qed.

Lemma ProcessTxLockVote_keeps fuel : keeps (CDirectSend.ProcessTxLockVote fuel).
Proof.
  induction fuel as [|fuel IH]; intros vote s r Hs Ha Hv; [discriminate|].
  cbn [CDirectSend.ProcessTxLockVote] in Hv.
  destruct (CTxLockVote.IsValid E vote) as [[|] asked]; cbn [negb] in Hv.
  2: { injection Hv as <-. simpl. auto. }
  cbv zeta in Hv.
  set (s0 := CDirectSend.emit [EvRelayVote (CTxLockVote.GetHash vote)] s) in *.
  assert (I s0) as H0 by (apply I_emit; exact Hs).
  match type of Hv with match ?x with _ => _ end = _ => destruct x as [c|] end.
  - destruct (CTxLockCandidate.IsTimedOut E c); [injection Hv as <-; exact H0|].
    pose proof (attach_vote_keeps vote (CTxLockVote.GetTxHash vote) H0) as H1.
    destruct (CDirectSend.attach_vote vote (CTxLockVote.GetTxHash vote) s0) as [s1 ok].
    simpl in H1. destruct ok; cbn [negb] in Hv; [|injection Hv as <-; exact H1].
    destruct (find _ (CDirectSend.mapTxLockCandidates s1)); [|discriminate].
    injection Hv as <-. simpl. apply TryToFinalizeLockCandidate_keeps. exact H1.
  - destruct (count (CTxLockVote.GetHash vote) (CDirectSend.mapTxLockVotesOrphan s0)) eqn:Hcnt;
      cbn [negb] in Hv; [eapply orphan_rate_limit_keeps; eauto|].
    set (s1 := CDirectSend.CreateEmptyTxLockCandidate E (CTxLockVote.GetTxHash vote) s0) in *.
    assert (I s1) as H1 by (apply CreateEmptyTxLockCandidate_keeps; exact H0).
    assert (CDirectSend.mapTxLockVotesOrphan s1 = CDirectSend.mapTxLockVotesOrphan s) as Ho1.
    { unfold s1, CDirectSend.CreateEmptyTxLockCandidate.
      destruct (find _ (CDirectSend.mapTxLockCandidates s0)); reflexivity. }
    set (s2 := CDirectSend.set_orphans (set (CTxLockVote.GetHash vote) vote) s1) in *.
    assert (I s2) as H2.
    { apply I_orphans_set; [exact H1 | eapply A_frame; eauto |].
      rewrite Ho1. exact Hcnt. }
    match type of Hv with match ?x with _ => _ end = _ => destruct x as [req|] end;
      [|eapply orphan_rate_limit_keeps; eauto].
    destruct (CDirectSend.IsEnoughOrphanVotesForTx s2 req);
      [|eapply orphan_rate_limit_keeps; eauto].
    destruct (CDirectSend.ProcessTxLockRequest_with _ E req s2) as [[s3 b]|] eqn:Hreq;
      [|discriminate].
    injection Hv as <-. simpl.
    change s3 with (fst (s3, b)). eapply ProcessTxLockRequest_with_keeps; eauto.
Qed.

Lemma ProcessMessage_keeps fuel pfrom strCommand vote s r :
  I s -> A vote s ->
  CDirectSend.ProcessMessage fuel E pfrom strCommand vote s = Some r -> I (snd r).
Proof.
  intros Hs Ha. unfold CDirectSend.ProcessMessage.
  repeat match goal with
         | |- (if ?b then Some (_, s) else _) = _ -> _ =>
             destruct b; [intros [= <-]; exact Hs|]
         end.
  destruct (String.eqb strCommand TXLOCKVOTE); [|intros [= <-]; exact Hs].
  destruct (nVersion pfrom <? MIN_DIRECTSEND_PROTO_VERSION); [intros [= <-]; exact Hs|].
  destruct (count _ (CDirectSend.mapTxLockVotes s)); [intros [= <-]; exact Hs|].
  destruct (CDirectSend.ProcessTxLockVote fuel E vote _) as [[s' b]|] eqn:Hp; [|discriminate].
  intros [= <-]. simpl.
  change s' with (fst (s', b)). eapply ProcessTxLockVote_keeps; [| |exact Hp]; auto.
  eapply A_frame; [|exact Ha]. reflexivity.
Qed.
End Traversal.

(** ** One vote per masternode and outpoint *)

Section OneVote.
Context {P : Params}.

(** The votes of a lock are filed under their signers, each signer once. *)
Definition lock_ok (L : COutPointLock.t) : Prop :=
  NoDup (keys (COutPointLock.mapMasternodeVotes L))
  /\ Forall (fun e => CTxLockVote.outpointMasternode (snd e) = fst e)
            (COutPointLock.mapMasternodeVotes L).

Definition candidate_ok (c : CTxLockCandidate.t) : Prop :=
  Forall (fun e => lock_ok (snd e)) (CTxLockCandidate.mapOutPointLocks c).

Definition votes_unique (s : CDirectSend.t) : Prop :=
  Forall (fun e => candidate_ok (snd e)) (CDirectSend.mapTxLockCandidates s).

(** The number of votes of masternode [mn] in a lock. *)
Definition votes_of (mn : COutPoint.t) (L : COutPointLock.t) : nat :=
  List.length (filter (fun e => COutPoint.eqb (CTxLockVote.outpointMasternode (snd e)) mn)
                      (COutPointLock.mapMasternodeVotes L)).

Lemma Forall_put {K V} `{OrdKey K} (Q : K * V -> Prop) k v m :
  Forall Q m -> Q (k, v) -> Forall Q (put k v m).
Proof.
  intros Hm Hq. apply Forall_forall. intros e He. apply In_put in He.
  destruct He as [->|He]; [exact Hq|]. eapply Forall_forall; eauto.
Qed.

Lemma Forall_insert {K V} `{OrdKey K} (Q : K * V -> Prop) k v m :
  Forall Q m -> Q (k, v) -> Forall Q (insert k v m).
Proof.
  intros Hm Hq. unfold insert. destruct (count k m); [exact Hm|]. apply Forall_put; auto.
Qed.

Lemma Forall_update {K V} `{OrdKey K} (Rv : V -> Prop) k f (m : StdMap.t K V) :
  Forall (fun e => Rv (snd e)) m -> (forall v, Rv v -> Rv (f v)) ->
  Forall (fun e => Rv (snd e)) (update k f m).
Proof.
  intros Hm Hf. induction Hm as [|[k0 v0] m Hv _ IH]; simpl; [constructor|].
  destruct (keqb k k0); constructor; simpl in *; auto.
Qed.

Lemma Forall_find {K V} `{OrdKey K} (Rv : V -> Prop) k v (m : StdMap.t K V) :
  Forall (fun e => Rv (snd e)) m -> find k m = Some v -> Rv v.
Proof.
  intros Hm Hf. apply find_In in Hf.
  apply (proj1 (Forall_forall _ _) Hm (k, v) Hf).
Qed.

Lemma Forall_sub {T} (Q : T -> Prop) (l l' : list T) :
  (forall e, In e l' -> In e l) -> Forall Q l -> Forall Q l'.
Proof.
  intros Hsub Hl. apply Forall_forall. intros e He.
  apply (proj1 (Forall_forall _ _) Hl e (Hsub e He)).
Qed.

(** *** Locks and candidates *)

Lemma lock_ok_create o : lock_ok (COutPointLock.create o).
Proof. split; constructor. Qed.

Lemma lock_ok_AddVote vote L : lock_ok L -> lock_ok (fst (COutPointLock.AddVote vote L)).
Proof.
  intros [Hnd Hk]. unfold COutPointLock.AddVote.
  destruct (count _ (COutPointLock.mapMasternodeVotes L)); simpl; [split; assumption|].
  split; simpl.
  - apply NoDup_keys_insert. exact Hnd.
  - apply Forall_insert; [exact Hk | reflexivity].
Qed.

Lemma lock_ok_MarkAsAttacked L : lock_ok L -> lock_ok (COutPointLock.MarkAsAttacked L).
Proof. intros H. exact H. Qed.

Lemma candidate_ok_create now r : candidate_ok (CTxLockCandidate.create now r).
Proof. constructor. Qed.

Lemma candidate_ok_set_request r c :
  candidate_ok c -> candidate_ok (CTxLockCandidate.set_request r c).
Proof. intros H. exact H. Qed.

Lemma candidate_ok_AddOutPointLock o c :
  candidate_ok c -> candidate_ok (CTxLockCandidate.AddOutPointLock o c).
Proof.
  intros H. unfold candidate_ok, CTxLockCandidate.AddOutPointLock. simpl.
  apply Forall_insert; [exact H | apply lock_ok_create].
Qed.

Lemma candidate_ok_Mark o c :
  candidate_ok c -> candidate_ok (CTxLockCandidate.MarkOutpointAsAttacked o c).
Proof.
  intros H. unfold candidate_ok, CTxLockCandidate.MarkOutpointAsAttacked. simpl.
  apply Forall_update; [exact H | apply lock_ok_MarkAsAttacked].
Qed.

Lemma candidate_ok_AddVote vote c :
  candidate_ok c -> candidate_ok (fst (CTxLockCandidate.AddVote vote c)).
Proof.
  intros H. unfold CTxLockCandidate.AddVote.
  destruct (find _ (CTxLockCandidate.mapOutPointLocks c)) as [L|] eqn:HL; [|exact H].
  pose proof (lock_ok_AddVote vote (Forall_find _ _ H HL)) as HL'.
  destruct (COutPointLock.AddVote vote L) as [L' ok]. simpl in *.
  unfold candidate_ok. simpl. apply Forall_update; auto.
Qed.

Lemma candidate_ok_SetConfirmedHeight h c :
  candidate_ok c -> candidate_ok (CTxLockCandidate.SetConfirmedHeight h c).
Proof.
  unfold candidate_ok, CTxLockCandidate.SetConfirmedHeight. simpl.
  intros H. apply Forall_map. eapply Forall_impl; [|exact H].
  intros [o L] [Hnd Hk]. simpl in *. split; simpl.
  - unfold keys in *. rewrite map_map. simpl. exact Hnd.
  - apply Forall_map. eapply Forall_impl; [|exact Hk]. intros [k v]. simpl. auto.
Qed.

(** *** The sweep *)

Lemma remove_expired_candidates_sub cs : forall s e,
  In e (CDirectSend.mapTxLockCandidates (CDirectSend.remove_expired_candidates cs s)) ->
  In e (CDirectSend.mapTxLockCandidates s).
Proof.
  induction cs as [|[k c] cs IH]; simpl; intros s e He; [exact He|].
  apply IH in He.
  destruct (CTxLockCandidate.IsExpired (CDirectSend.nCachedBlockHeight s) c); [|exact He].
  simpl in He. apply In_erase in He. tauto.
Qed.

Lemma CheckAndRemove_candidates_sub E s e :
  In e (CDirectSend.mapTxLockCandidates (CDirectSend.CheckAndRemove E s)) ->
  In e (CDirectSend.mapTxLockCandidates s).
Proof.
  unfold CDirectSend.CheckAndRemove.
  destruct (IsMasternodeListSynced E); simpl negb; cbv iota; [|auto].
  simpl. intros He.
  match type of He with
  | In e (CDirectSend.mapTxLockCandidates (CDirectSend.remove_timed_out_orphans E ?os ?st)) =>
      destruct (remove_timed_out_orphans_frame E os st) as [Hc _]; rewrite Hc in He
  end.
  simpl in He. eapply remove_expired_candidates_sub. exact He.
Qed.

Lemma votes_unique_sweep E s : votes_unique s -> votes_unique (CDirectSend.CheckAndRemove E s).
Proof.
  unfold votes_unique. apply Forall_sub. apply CheckAndRemove_candidates_sub.
Qed.

Lemma votes_unique_SyncTransaction E txHash cb pblock s :
  votes_unique s -> votes_unique (CDirectSend.SyncTransaction E txHash cb pblock s).
Proof.
  intros Hs. unfold CDirectSend.SyncTransaction. destruct cb; [exact Hs|].
  match goal with |- context [match ?x with Some _ => _ | None => s end] =>
    destruct x as [h|] end; [|exact Hs].
  match goal with |- votes_unique (fold_left ?f ?os ?st) =>
    change (votes_unique (fold_left (sync_orphan E txHash h) os st));
    destruct (sync_orphans_heights E txHash h os st) as [Hc _] end.
  unfold votes_unique. rewrite Hc.
  destruct (find txHash (CDirectSend.mapTxLockCandidates s)) as [c|]; [|exact Hs].
  assert (votes_unique (CDirectSend.set_candidates
                          (update txHash (CTxLockCandidate.SetConfirmedHeight h)) s)) as Hu.
  { unfold votes_unique. simpl. apply Forall_update; [exact Hs|].
    apply candidate_ok_SetConfirmedHeight. }
  match goal with |- context [match ?x with Some _ => _ | None => _ end] =>
    destruct x as [c'|] end; [|exact Hu].
  match goal with |- context [fold_left ?f ?vs ?st] =>
    change (fold_left f vs st) with (fold_left (sync_vote h) vs st);
    destruct (sync_votes_heights h vs st) as [Hc2 _] end.
  rewrite Hc2. exact Hu.
Qed.

Lemma votes_unique_candidate s k c :
  votes_unique s -> find k (CDirectSend.mapTxLockCandidates s) = Some c -> candidate_ok c.
Proof. intros Hs Hf. exact (Forall_find candidate_ok _ Hs Hf). Qed.

(** The side conditions of the traversal for [votes_unique]. *)
Ltac side_unique :=
  try (intros; exact I);
  try (unfold votes_unique; simpl; intros; auto using Forall_insert, Forall_update; fail);
  eauto using votes_unique_sweep, votes_unique_candidate, candidate_ok_create,
    candidate_ok_set_request, candidate_ok_AddOutPointLock, candidate_ok_Mark,
    candidate_ok_AddVote, candidate_ok_SetConfirmedHeight.

(** Every operation of the engine keeps the votes unique. *)
Lemma votes_unique_run fuel E op s s' :
  votes_unique s -> CDirectSend.run fuel E op s = Some s' -> votes_unique s'.
Proof.
  intros Hs.
  assert (forall vote st r, votes_unique st ->
            CDirectSend.ProcessTxLockVote fuel E vote st = Some r -> votes_unique (fst r))
    as Hvote.
  { intros vote st r Hst Hr.
    eapply (@ProcessTxLockVote_keeps P E votes_unique (fun _ _ => True) candidate_ok)
      with (fuel := fuel) (vote := vote) (s := st); eauto;
      side_unique. }
  destruct op as [pfrom cmd vote|r|r|r| |h|txHash cb pblock]; simpl.
  - destruct (CDirectSend.ProcessMessage fuel E pfrom cmd vote s) as [[p st]|] eqn:Hm;
      [|discriminate].
    intros [= <-]. simpl.
    unfold CDirectSend.ProcessMessage in Hm.
    repeat match type of Hm with
           | (if ?b then Some (_, s) else _) = _ =>
               destruct b; [injection Hm as _ <-; exact Hs|]
           end.
    destruct (String.eqb cmd TXLOCKVOTE); [|injection Hm as _ <-; exact Hs].
    destruct (nVersion pfrom <? MIN_DIRECTSEND_PROTO_VERSION); [injection Hm as _ <-; exact Hs|].
    destruct (count _ (CDirectSend.mapTxLockVotes s)); [injection Hm as _ <-; exact Hs|].
    destruct (CDirectSend.ProcessTxLockVote fuel E vote _) as [[s2 b]|] eqn:Hp; [|discriminate].
    injection Hm as _ <-. change s2 with (fst (s2, b)). eapply Hvote; [|exact Hp]. exact Hs.
  - destruct (CDirectSend.ProcessTxLockRequest fuel E r s) as [[st b]|] eqn:Hr; [|discriminate].
    intros [= <-]. simpl. unfold CDirectSend.ProcessTxLockRequest in Hr.
    change st with (fst (st, b)).
    eapply (@ProcessTxLockRequest_with_keeps P E votes_unique (fun _ _ => True) candidate_ok)
      with (s := s); try exact Hr; eauto;
      side_unique.
    intros vote st0 r0 H0 _ Hr0. eapply Hvote; eauto.
  - intros [= <-]. exact Hs.
  - intros [= <-]. exact Hs.
  - intros [= <-]. apply votes_unique_sweep. exact Hs.
  - intros [= <-]. exact Hs.
  - intros [= <-]. apply votes_unique_SyncTransaction. exact Hs.
Qed.
End OneVote.

(** ** Repeated arrival of a vote *)

Section Idempotence.
Context {P : Params}.

(** The orphan votes are filed under their hashes. *)
Definition orphans_hashed (s : CDirectSend.t) : Prop :=
  Forall (fun e => fst e = CTxLockVote.GetHash (snd e)) (CDirectSend.mapTxLockVotesOrphan s).





Section Kept.
Variable E : Env.
Variable k : uint256.
Variable v : CTxLockVote.t.








End Kept.

End Idempotence.



(** ** The recursion budget

    On a state whose orphan votes are filed under their hashes, a vote
    taken from the orphan map never re-enters [ProcessTxLockRequest]: the
    nesting of [ProcessTxLockVote] is at most two deep, and a budget of two
    gives the result of any larger budget. *)

Section Budget.
Context {P : Params}.
Variable E : Env.

Lemma orphans_hashed_kept fuel vote s r :
  orphans_hashed s ->
  CDirectSend.ProcessTxLockVote fuel E vote s = Some r -> orphans_hashed (fst r).
Proof.
  intros Hs Hr.
  eapply (@ProcessTxLockVote_keeps P E orphans_hashed (fun _ _ => True) (fun _ => True))
    with (fuel := fuel) (vote := vote) (s := s); eauto;
    try (intros; exact I).
  - intros k s0 H0. unfold orphans_hashed in *. simpl. apply Forall_forall.
    intros e He. apply In_erase in He. apply (proj1 (Forall_forall _ _) H0 e). tauto.
  - intros vote0 s0 H0 _ _. unfold orphans_hashed in *. simpl. apply Forall_forall.
    intros e He. apply In_set in He. destruct He as [->|He]; [reflexivity|].
    apply (proj1 (Forall_forall _ _) H0 e He).
  - intros s0 H0. unfold orphans_hashed in *. eapply Forall_sub; [|exact H0].
    destruct (CheckAndRemove_subview E s0) as [_ [_ [_ [_ [_ [_ [_ Ho]]]]]]]. exact Ho.
Qed.

Lemma filed_vote_budget fuel vote s :
  count (CTxLockVote.GetHash vote) (CDirectSend.mapTxLockVotesOrphan s) = true ->
  CDirectSend.ProcessTxLockVote (S fuel) E vote s = CDirectSend.ProcessTxLockVote 1 E vote s.
Proof.
  intros Hc. cbn [CDirectSend.ProcessTxLockVote].
  destruct (CTxLockVote.IsValid E vote) as [[|] asked]; cbn [negb]; [|reflexivity].
  cbv zeta.
  match goal with |- match ?x with _ => _ end = _ => destruct x as [c|] end; [reflexivity|].
  change (CDirectSend.mapTxLockVotesOrphan
            (CDirectSend.emit [EvRelayVote (CTxLockVote.GetHash vote)] s))
    with (CDirectSend.mapTxLockVotesOrphan s).
  rewrite Hc. reflexivity.
Qed.

Lemma process_orphans_budget fuel ks : forall s,
  orphans_hashed s ->
  CDirectSend.process_orphans (CDirectSend.ProcessTxLockVote (S fuel)) E ks s
  = CDirectSend.process_orphans (CDirectSend.ProcessTxLockVote 1) E ks s.
Proof.
  induction ks as [|k rest IH]; intros s Hs; cbn [CDirectSend.process_orphans];
    [reflexivity|].
  destruct (find k (CDirectSend.mapTxLockVotesOrphan s)) as [vote|] eqn:Hk; [|apply IH; exact Hs].
  assert (count (CTxLockVote.GetHash vote) (CDirectSend.mapTxLockVotesOrphan s) = true) as Hc.
  { apply count_find. exists vote.
    pose proof (proj1 (Forall_forall _ _) Hs (k, vote) (find_In _ _ Hk)) as Hh. simpl in Hh.
    rewrite <- Hh. exact Hk. }
  rewrite (filed_vote_budget fuel vote s Hc).
  destruct (CDirectSend.ProcessTxLockVote 1 E vote s) as [[s1 ok]|] eqn:Hp; [|reflexivity].
  pose proof (orphans_hashed_kept 1 vote Hs Hp) as H1. simpl in H1.
  destruct (find k (CDirectSend.mapTxLockVotesOrphan s1)); [|reflexivity].
  apply IH. destruct ok; [|exact H1].
  unfold orphans_hashed in *. simpl. apply Forall_forall. intros e He.
  apply In_erase in He. apply (proj1 (Forall_forall _ _) H1 e). tauto.
Qed.

Lemma orphans_of_Vote key s s' :
  CDirectSend.Vote E key s = Some s' ->
  CDirectSend.mapTxLockVotesOrphan s' = CDirectSend.mapTxLockVotesOrphan s.
Proof.
  intros Hv.
  assert (forall st, CDirectSend.mapTxLockVotesOrphan st = CDirectSend.mapTxLockVotesOrphan s ->
                     CDirectSend.mapTxLockVotesOrphan st = CDirectSend.mapTxLockVotesOrphan s)
    as Hid by auto.
  eapply (@Vote_keeps P E
            (fun st => CDirectSend.mapTxLockVotesOrphan st = CDirectSend.mapTxLockVotesOrphan s)
            (fun _ => True)) with (s := s); eauto.
Qed.

Lemma ProcessTxLockRequest_budget fuel r s :
  orphans_hashed s ->
  CDirectSend.ProcessTxLockRequest (S fuel) E r s = CDirectSend.ProcessTxLockRequest 1 E r s.
Proof.
  intros Hs. unfold CDirectSend.ProcessTxLockRequest, CDirectSend.ProcessTxLockRequest_with.
  assert (CDirectSend.mapTxLockVotesOrphan (fst (CDirectSend.CreateTxLockCandidate E r s))
          = CDirectSend.mapTxLockVotesOrphan s) as Ho.
  { unfold CDirectSend.CreateTxLockCandidate.
    destruct (negb (CTxLockRequest.IsValid E r)); [reflexivity|].
    destruct (find _ (CDirectSend.mapTxLockCandidates s)) as [c|]; [|reflexivity].
    destruct (negb (CTxLockRequest.is_set _)); [|reflexivity].
    destruct (CTxLockCandidate.IsTimedOut E c); reflexivity. }
  destruct (CDirectSend.CreateTxLockCandidate E r s) as [s1 ok]. simpl in Ho.
  destruct ok; cbn [negb]; [|reflexivity].
  destruct (CDirectSend.Vote E _ s1) as [s2|] eqn:Hv; [|reflexivity].
  apply orphans_of_Vote in Hv.
  unfold CDirectSend.ProcessOrphanTxLockVotes_with.
  rewrite process_orphans_budget; [reflexivity|].
  unfold orphans_hashed. rewrite Hv, Ho. exact Hs.
Qed.

Lemma ProcessTxLockVote_congr f1 f2 vote s :
  (forall req st, orphans_hashed st ->
                  CDirectSend.ProcessTxLockRequest f1 E req st
                  = CDirectSend.ProcessTxLockRequest f2 E req st) ->
  orphans_hashed s ->
  CDirectSend.ProcessTxLockVote (S f1) E vote s = CDirectSend.ProcessTxLockVote (S f2) E vote s.
Proof.
  intros Hreq Hs. cbn [CDirectSend.ProcessTxLockVote].
  destruct (CTxLockVote.IsValid E vote) as [[|] asked]; cbn [negb]; [|reflexivity].
  cbv zeta.
  match goal with |- match ?x with _ => _ end = _ => destruct x as [c|] end; [reflexivity|].
  destruct (negb (count _ _)); [|reflexivity].
  match goal with |- match ?x with _ => _ end = _ => destruct x as [req|] end; [|reflexivity].
  match goal with |- (if ?b then _ else _) = _ => destruct b end; [|reflexivity].
  unfold CDirectSend.ProcessTxLockRequest in Hreq. rewrite Hreq; [reflexivity|].
  unfold orphans_hashed. simpl. apply Forall_forall. intros e He.
  apply In_set in He. destruct He as [->|He]; [reflexivity|].
  assert (forall st, CDirectSend.mapTxLockVotesOrphan
                       (CDirectSend.CreateEmptyTxLockCandidate E (CTxLockVote.GetTxHash vote) st)
                     = CDirectSend.mapTxLockVotesOrphan st) as Hce.
  { intros st. unfold CDirectSend.CreateEmptyTxLockCandidate.
    destruct (find _ (CDirectSend.mapTxLockCandidates st)); reflexivity. }
  rewrite Hce in He. simpl in He. apply (proj1 (Forall_forall _ _) Hs e He).
Qed.

Lemma ProcessTxLockVote_budget fuel vote s :
  orphans_hashed s ->
  CDirectSend.ProcessTxLockVote (S (S fuel)) E vote s = CDirectSend.ProcessTxLockVote 2 E vote s.
Proof.
  intros Hs. apply ProcessTxLockVote_congr; [|exact Hs].
  intros req st Hst. apply ProcessTxLockRequest_budget. exact Hst.
Qed.

(** A budget of two is all that an operation of the engine uses. *)
Lemma run_budget fuel op s :
  orphans_hashed s ->
  CDirectSend.run (S (S fuel)) E op s = CDirectSend.run 2 E op s.
Proof.
  intros Hs. destruct op as [pfrom cmd vote|r|r|r| |h|txHash cb pblock];
    unfold CDirectSend.run; [| |reflexivity..].
  - unfold CDirectSend.ProcessMessage. rewrite ProcessTxLockVote_budget; [reflexivity|].
    exact Hs.
  - rewrite (ProcessTxLockRequest_budget (S fuel) r Hs).
    rewrite (ProcessTxLockRequest_budget 1 r Hs). reflexivity.
Qed.
End Budget.

(** ** One vote per masternode: the statement *)

Section OneVoteCount.
Context {P : Params}.

Lemma NoDup_keys_filter {V} (mn : COutPoint.t) (m : StdMap.t COutPoint.t V) :
  NoDup (keys m) ->
  (List.length (filter (fun e => COutPoint.eqb (fst e) mn) m) <= 1)%nat.
Proof.
  unfold keys. induction m as [|[k v] m IH]; simpl; intros Hnd; [lia|].
  inversion Hnd as [|? ? Hn Hnd']; subst.
  destruct (COutPoint.eqb k mn) eqn:Ek; [|auto].
  apply COutPoint.eqb_eq in Ek. subst k. simpl.
  assert (filter (fun e : COutPoint.t * V => COutPoint.eqb (fst e) mn) m = []) as ->; [|simpl; lia].
  destruct (filter _ m) as [|[k' v'] l] eqn:Hf; [reflexivity|].
  exfalso. apply Hn.
  assert (In (k', v') (filter (fun e : COutPoint.t * V => COutPoint.eqb (fst e) mn) m)) as Hin
    by (rewrite Hf; left; reflexivity).
  apply filter_In in Hin. destruct Hin as [Hin Hk]. simpl in Hk.
  apply COutPoint.eqb_eq in Hk. subst k'. apply in_map_iff. exists (mn, v'). auto.
Qed.

Lemma votes_of_le_1 mn L : lock_ok L -> (votes_of mn L <= 1)%nat.
Proof.
  intros [Hnd Hk]. unfold votes_of.
  rewrite (filter_ext_in _ (fun e => COutPoint.eqb (fst e) mn)).
  - apply NoDup_keys_filter. exact Hnd.
  - intros e He. rewrite (proj1 (Forall_forall _ _) Hk e He). reflexivity.
Qed.

Lemma AddVote_behaviour vote L :
  let mn := CTxLockVote.GetMasternodeOutpoint vote in
  if COutPointLock.HasMasternodeVoted mn L
  then COutPointLock.AddVote vote L = (L, false)
  else exists L',
      COutPointLock.AddVote vote L = (L', true)
      /\ find mn (COutPointLock.mapMasternodeVotes L') = Some vote
      /\ forall mn', mn' <> mn ->
           find mn' (COutPointLock.mapMasternodeVotes L')
           = find mn' (COutPointLock.mapMasternodeVotes L).
Proof.
  intros mn. unfold COutPointLock.HasMasternodeVoted, COutPointLock.AddVote. fold mn.
  destruct (count mn (COutPointLock.mapMasternodeVotes L)) eqn:Hc; [reflexivity|].
  eexists. split; [reflexivity|]. simpl. apply count_false in Hc. split.
  - rewrite find_insert, keqb_refl, Hc. reflexivity.
  - intros mn' Hne. rewrite find_insert.
    assert (keqb mn' mn = false) as -> by (apply keqb_neq; exact Hne). reflexivity.
Qed.
End OneVoteCount.

(** C1. [COutPointLock::AddVote] returns false and leaves the lock as it is
    when the signer already has a vote in it, and otherwise files the vote
    under its signer and returns true.  In the empty engine, and after every
    operation of the engine that completes on a state where it holds, every
    lock of every candidate files its votes under their signers, each signer
    once; so no lock holds more than one vote of a masternode.  The recursion
    budget plays no part: where the orphan votes are filed under their
    hashes, a budget of two gives the result of any larger one. *)
Theorem one_vote_per_masternode {P : Params} :
  (forall vote L,
      let mn := CTxLockVote.GetMasternodeOutpoint vote in
      if COutPointLock.HasMasternodeVoted mn L
      then COutPointLock.AddVote vote L = (L, false)
      else exists L',
          COutPointLock.AddVote vote L = (L', true)
          /\ find mn (COutPointLock.mapMasternodeVotes L') = Some vote
          /\ forall mn', mn' <> mn ->
               find mn' (COutPointLock.mapMasternodeVotes L')
               = find mn' (COutPointLock.mapMasternodeVotes L))
  /\ votes_unique CDirectSend.empty
  /\ (forall fuel E op s s',
         votes_unique s -> CDirectSend.run fuel E op s = Some s' -> votes_unique s')
  /\ (forall fuel E op s,
         orphans_hashed s -> CDirectSend.run (S (S fuel)) E op s = CDirectSend.run 2 E op s)
  /\ (forall s t c o L mn,
         votes_unique s ->
         In (t, c) (CDirectSend.mapTxLockCandidates s) ->
         In (o, L) (CTxLockCandidate.mapOutPointLocks c) ->
         (votes_of mn L <= 1)%nat).
Proof.
  split; [apply AddVote_behaviour|]. split; [constructor|]. split; [|split].
  - intros fuel E op s s'. apply votes_unique_run.
  - intros fuel E op s. apply run_budget.
  - intros s t c o L mn Hs Hc HL. apply votes_of_le_1.
    unfold votes_unique in Hs.
    pose proof (proj1 (Forall_forall _ _) Hs (t, c) Hc) as Hcand. simpl in Hcand.
    apply (proj1 (Forall_forall _ _) Hcand (o, L) HL).
Qed.

Lemma one_vote_per_masternode_witness :
  exists s',
    CDirectSend.run (P := Demo.params) 2 Demo.env
      (CDirectSend.OpProcessMessage {| nVersion := 70208; setAskFor := [] |} "txlvote"
         (Demo.mkvote 12 EquivocationExamples.o EquivocationExamples.mn 1000))
      EquivocationExamples.two = Some s'
    /\ votes_unique s'.
Proof.
  destruct (one_vote_per_masternode (P := Demo.params)) as [_ [_ [Hrun _]]].
  assert (votes_unique EquivocationExamples.two) as H0.
  { repeat constructor; simpl; intuition discriminate. }
  destruct (CDirectSend.run (P := Demo.params) 2 Demo.env
              (CDirectSend.OpProcessMessage {| nVersion := 70208; setAskFor := [] |} "txlvote"
                 (Demo.mkvote 12 EquivocationExamples.o EquivocationExamples.mn 1000))
              EquivocationExamples.two) as [s'|] eqn:Hr.
  - exists s'. split; [reflexivity|]. eapply Hrun; eauto.
  - vm_compute in Hr. discriminate Hr.
Defined.

(** * Further properties of the engine *)

(** ** What the node has seen *)

Section Seen.
Context {P : Params}.

Lemma count_insert {K V} `{OrdKey K} (k k' : K) (v : V) (m : StdMap.t K V) :
  count k' (insert k v m) = keqb k' k || count k' m.
Proof.
  unfold count. rewrite find_insert. destruct (keqb k' k) eqn:E; [|reflexivity].
  apply keqb_eq in E. subst k'. destruct (find k m); reflexivity.
Qed.

Lemma find_insert_first {K V} `{OrdKey K} (k : K) (v : V) (m : StdMap.t K V) :
  find k (insert k v m) = match find k m with Some w => Some w | None => Some v end.
Proof. rewrite find_insert, keqb_refl. reflexivity. Qed.
End Seen.

(** X1. A request handed to [AcceptLockRequest] or [RejectLockRequest] is
    known to [AlreadyHave] under its hash from then on, and what
    [AlreadyHave] says of any other hash is not changed.  The maps keep the
    first request recorded under a hash: a second one with the same hash is
    dropped. *)
Theorem AlreadyHave_recorded_request (r : CTxLockRequest.t) (s : CDirectSend.t) :
  let h := CTxLockRequest.GetHash r in
  CDirectSend.AlreadyHave (CDirectSend.AcceptLockRequest r s) h = true
  /\ CDirectSend.AlreadyHave (CDirectSend.RejectLockRequest r s) h = true
  /\ (forall h', h' <> h ->
        CDirectSend.AlreadyHave (CDirectSend.AcceptLockRequest r s) h'
        = CDirectSend.AlreadyHave s h'
        /\ CDirectSend.AlreadyHave (CDirectSend.RejectLockRequest r s) h'
           = CDirectSend.AlreadyHave s h')
  /\ find h (CDirectSend.mapLockRequestAccepted (CDirectSend.AcceptLockRequest r s))
     = match find h (CDirectSend.mapLockRequestAccepted s) with
       | Some r0 => Some r0
       | None => Some r
       end
  /\ find h (CDirectSend.mapLockRequestRejected (CDirectSend.RejectLockRequest r s))
     = match find h (CDirectSend.mapLockRequestRejected s) with
       | Some r0 => Some r0
       | None => Some r
       end.
Proof.
  intros h. unfold CDirectSend.AlreadyHave, CDirectSend.AcceptLockRequest,
    CDirectSend.RejectLockRequest. simpl. fold h.
  rewrite !count_insert, !keqb_refl. simpl.
  split; [reflexivity|]. split; [rewrite orb_true_r; reflexivity|]. split.
  - intros h' Hne. rewrite !count_insert.
    assert (keqb h' h = false) as -> by (apply keqb_neq; exact Hne).
    split; reflexivity.
  - split; apply find_insert_first.
Qed.

(** ** Queries about a transaction *)

Section Queries.
Context {P : Params}.

Lemma lock_CountVotes_nonneg (L : COutPointLock.t) : 0 <= COutPointLock.CountVotes L.
Proof. unfold COutPointLock.CountVotes, size. lia. Qed.

Lemma fold_CountVotes_ge (locks : list (COutPoint.t * COutPointLock.t)) : forall a,
  a <= fold_left (fun acc e => acc + COutPointLock.CountVotes (snd e)) locks a.
Proof.
  induction locks as [|e locks IH]; simpl; intros a; [lia|].
  pose proof (lock_CountVotes_nonneg (snd e)). specialize (IH (a + COutPointLock.CountVotes (snd e))).
  lia.
Qed.

Lemma CountVotes_nonneg (c : CTxLockCandidate.t) : 0 <= CTxLockCandidate.CountVotes c.
Proof. unfold CTxLockCandidate.CountVotes. apply fold_CountVotes_ge. Qed.

Lemma find_In_keys {K V} `{OrdKey K} (k : K) (m : StdMap.t K V) :
  In k (keys m) -> exists v, find k m = Some v.
Proof.
  intros Hin. destruct (find k m) as [v|] eqn:Hf; [eauto|].
  apply find_None_keys in Hf. contradiction.
Qed.

(** The switches that [IsLockedDirectSendTransaction] tests first. *)
Definition locks_enabled (E : Env) : bool :=
  fEnableDirectSend E && negb (fLargeWorkForkFound E)
  && negb (fLargeWorkInvalidChainFound E) && SPORK_3_DIRECTSEND_BLOCK_FILTERING E.

Lemma IsLocked_spec E s txHash :
  CDirectSend.IsLockedDirectSendTransaction E s txHash = true <->
  locks_enabled E = true
  /\ exists c, find txHash (CDirectSend.mapTxLockCandidates s) = Some c
               /\ CTxLockCandidate.mapOutPointLocks c <> []
               /\ forall o, In o (keys (CTxLockCandidate.mapOutPointLocks c)) ->
                            CDirectSend.GetLockedOutPointTxHash s o = Some txHash.
Proof.
  unfold CDirectSend.IsLockedDirectSendTransaction, locks_enabled.
  destruct (fEnableDirectSend E), (fLargeWorkForkFound E), (fLargeWorkInvalidChainFound E),
    (SPORK_3_DIRECTSEND_BLOCK_FILTERING E); simpl;
    try (split; [intros Hx; discriminate Hx | intros [Hx _]; discriminate Hx]).
  destruct (find txHash (CDirectSend.mapTxLockCandidates s)) as [c|].
  2: { split; [intros Hx; discriminate Hx | intros [_ [c [Hx _]]]; discriminate Hx]. }
  destruct (CTxLockCandidate.mapOutPointLocks c) as [|e locks] eqn:Hl.
  { split; [intros Hx; discriminate Hx|]. intros [_ [c' [[= <-] [N _]]]]. congruence. }
  match goal with
  | |- ?a && forallb ?f ?l = true <-> _ =>
      change (a && forallb f l) with (forallb f (e :: locks))
  end.
  rewrite forallb_forall. split.
  - intros Hall. split; [reflexivity|]. exists c. rewrite Hl.
    split; [reflexivity|]. split; [discriminate|].
    intros o Ho. unfold keys in Ho. apply in_map_iff in Ho. destruct Ho as [x [<- Hx]].
    specialize (Hall x Hx). simpl in Hall.
    destruct (CDirectSend.GetLockedOutPointTxHash s (fst x)) as [hl|]; [|discriminate].
    apply Z.eqb_eq in Hall. congruence.
  - intros [_ [c' [[= <-] [_ Hall]]]] x Hx. rewrite Hl in Hall.
    rewrite (Hall (fst x)); [apply Z.eqb_refl|].
    unfold keys. apply in_map. exact Hx.
Qed.
End Queries.

(** X2. What the queries answer for a transaction that has no lock
    candidate: it has no lock request, it is neither ready to lock nor
    locked nor timed out, it has no confirmations from a lock, and the
    signature count is one of the negative codes.  A locked transaction has a
    candidate, and gets [nDirectSendDepth] confirmations. *)
Theorem queries_without_candidate {P : Params} (E : Env) (nDirectSendDepth : Z)
        (s : CDirectSend.t) (txHash : uint256) :
  (CDirectSend.HasTxLockRequest s txHash = false ->
   CDirectSend.GetTxLockRequest s txHash = None
   /\ CDirectSend.IsDirectSendReadyToLock E s txHash = false
   /\ CDirectSend.IsLockedDirectSendTransaction E s txHash = false
   /\ CDirectSend.GetConfirmations E nDirectSendDepth s txHash = 0
   /\ CDirectSend.IsTxLockCandidateTimedOut E s txHash = false
   /\ -3 <= CDirectSend.GetTransactionLockSignatures E s txHash <= -1)
  /\ (CDirectSend.IsLockedDirectSendTransaction E s txHash = true ->
      CDirectSend.HasTxLockRequest s txHash = true
      /\ CDirectSend.GetConfirmations E nDirectSendDepth s txHash = nDirectSendDepth).
Proof.
  split.
  - unfold CDirectSend.HasTxLockRequest, CDirectSend.GetTxLockRequest,
      CDirectSend.IsDirectSendReadyToLock, CDirectSend.GetConfirmations,
      CDirectSend.IsLockedDirectSendTransaction, CDirectSend.IsTxLockCandidateTimedOut,
      CDirectSend.GetTransactionLockSignatures.
    destruct (find txHash (CDirectSend.mapTxLockCandidates s)); [intros Hx; discriminate Hx|].
    intros _.
    destruct (fEnableDirectSend E), (fLargeWorkForkFound E), (fLargeWorkInvalidChainFound E),
      (SPORK_2_DIRECTSEND_ENABLED E), (SPORK_3_DIRECTSEND_BLOCK_FILTERING E); simpl;
      repeat split; lia.
  - intros Hl. unfold CDirectSend.GetConfirmations. rewrite Hl. split; [|reflexivity].
    apply IsLocked_spec in Hl. destruct Hl as [_ [c [Hc _]]].
    unfold CDirectSend.HasTxLockRequest, CDirectSend.GetTxLockRequest. rewrite Hc. reflexivity.
Qed.

(** X3. [GetTransactionLockSignatures] answers a count, which is not
    negative, exactly when DirectSend is enabled, no large fork is seen,
    spork 2 is active and the transaction has a candidate; otherwise -1, -2 or
    -3, and -1 stands both for DirectSend switched off and for an unknown
    transaction. *)
Theorem GetTransactionLockSignatures_codes (E : Env) (s : CDirectSend.t)
        (txHash : uint256) :
  (0 <= CDirectSend.GetTransactionLockSignatures E s txHash <->
   fEnableDirectSend E = true
   /\ fLargeWorkForkFound E = false /\ fLargeWorkInvalidChainFound E = false
   /\ SPORK_2_DIRECTSEND_ENABLED E = true
   /\ CDirectSend.HasTxLockRequest s txHash = true)
  /\ (CDirectSend.GetTransactionLockSignatures E s txHash = -1 <->
      fEnableDirectSend E = false
      \/ (fLargeWorkForkFound E = false /\ fLargeWorkInvalidChainFound E = false
          /\ SPORK_2_DIRECTSEND_ENABLED E = true
          /\ CDirectSend.HasTxLockRequest s txHash = false))
  /\ (CDirectSend.GetTransactionLockSignatures E s txHash = -2 <->
      fEnableDirectSend E = true
      /\ (fLargeWorkForkFound E = true \/ fLargeWorkInvalidChainFound E = true))
  /\ (CDirectSend.GetTransactionLockSignatures E s txHash = -3 <->
      fEnableDirectSend E = true
      /\ fLargeWorkForkFound E = false /\ fLargeWorkInvalidChainFound E = false
      /\ SPORK_2_DIRECTSEND_ENABLED E = false).
Proof.
  unfold CDirectSend.GetTransactionLockSignatures, CDirectSend.HasTxLockRequest,
    CDirectSend.GetTxLockRequest.
  destruct (find txHash (CDirectSend.mapTxLockCandidates s)) as [c|].
  - pose proof (CountVotes_nonneg c) as Hc.
    destruct (fEnableDirectSend E), (fLargeWorkForkFound E), (fLargeWorkInvalidChainFound E),
      (SPORK_2_DIRECTSEND_ENABLED E); simpl;
      repeat split; intros; intuition (try discriminate; try lia).
  - destruct (fEnableDirectSend E), (fLargeWorkForkFound E), (fLargeWorkInvalidChainFound E),
      (SPORK_2_DIRECTSEND_ENABLED E); simpl;
      repeat split; intros; intuition (try discriminate; try lia).
Qed.

(** ** The count of orphan votes *)

Section OrphanCount.
Context {P : Params}.

Definition matches (txHash : uint256) (o : COutPoint.t) (e : uint256 * CTxLockVote.t) : bool :=
  (CTxLockVote.GetTxHash (snd e) =? txHash) && keqb (CTxLockVote.GetOutpoint (snd e)) o.

Lemma orphan_votes_loop_count txHash o m : forall n,
  CDirectSend.orphan_votes_loop txHash o m n
  = (n + Z.of_nat (List.length (filter (matches txHash o) m))
     >=? Z.max (n + 1) SIGNATURES_REQUIRED).
Proof.
  induction m as [|e m IH]; intros n.
  - simpl.
    destruct (Z.geb_spec (n + 0) (Z.max (n + 1) SIGNATURES_REQUIRED)); [lia | reflexivity].
  - cbn [CDirectSend.orphan_votes_loop filter]. fold (matches txHash o e).
    destruct (matches txHash o e).
    + cbn [List.length]. cbv zeta.
      destruct (Z.geb_spec (n + 1) SIGNATURES_REQUIRED) as [Hge|Hlt].
      * match goal with |- true = (?a >=? ?b) => destruct (Z.geb_spec a b) end;
          [reflexivity | lia].
      * rewrite IH.
        repeat match goal with |- context [?a >=? ?b] => destruct (Z.geb_spec a b) end;
          try reflexivity; lia.
    + apply IH.
Qed.
End OrphanCount.

(** X4. The counting loop of [IsEnoughOrphanVotesForTxAndOutPoint], which
    returns as soon as its counter reaches [SIGNATURES_REQUIRED], answers true
    exactly when the orphan votes for the transaction and the outpoint number
    at least [SIGNATURES_REQUIRED], and at least one: the counter is compared
    only after a matching vote was counted.  [IsEnoughOrphanVotesForTx] asks
    this of every input of the request, and so holds of a request without
    inputs. *)
Theorem IsEnoughOrphanVotes_counts {P : Params} (s : CDirectSend.t) (txHash : uint256)
        (o : COutPoint.t) :
  CDirectSend.IsEnoughOrphanVotesForTxAndOutPoint s txHash o
  = CDirectSend.orphan_votes_loop txHash o (CDirectSend.mapTxLockVotesOrphan s) 0
  /\ (CDirectSend.orphan_votes_loop txHash o (CDirectSend.mapTxLockVotesOrphan s) 0 = true <->
      Z.max 1 SIGNATURES_REQUIRED
      <= Z.of_nat (List.length (filter (matches txHash o) (CDirectSend.mapTxLockVotesOrphan s))))
  /\ forall r,
       CDirectSend.IsEnoughOrphanVotesForTx s r = true <->
       forall txin, In txin (CTxLockRequest.vin r) ->
                    CDirectSend.orphan_votes_loop (CTxLockRequest.GetHash r) (prevout txin)
                      (CDirectSend.mapTxLockVotesOrphan s) 0 = true.
Proof.
  split; [|split].
  - rewrite orphan_votes_loop_count. reflexivity.
  - rewrite orphan_votes_loop_count, Z.add_0_l.
    match goal with |- context [?a >=? ?b] => destruct (Z.geb_spec a b) end;
      split; intros; try lia; try reflexivity; discriminate.
  - intros r. unfold CDirectSend.IsEnoughOrphanVotesForTx. rewrite forallb_forall.
    split; intros H txin Hin; specialize (H txin Hin);
      rewrite orphan_votes_loop_count in *; exact H.
Qed.

(** ** Signing a vote *)

(** X5. A vote that [Sign] returns differs from the one it was given in its
    signature only, so that its hash and its message are the same; the
    signature is the one [SignMessage] made, it verifies against the key of
    the active masternode, and [CheckSignature] accepts the vote when the
    registry holds that key for the signer of the vote.  [Sign] fails when
    [SignMessage] fails or the fresh signature does not verify. *)
Theorem Sign_then_CheckSignature {P : Params} (E : Env) (v : CTxLockVote.t) :
  match CTxLockVote.Sign E v with
  | Some v' =>
      CTxLockVote.GetHash v' = CTxLockVote.GetHash v
      /\ CTxLockVote.strMessage v' = CTxLockVote.strMessage v
      /\ v' = CTxLockVote.mk (CTxLockVote.txHash v) (CTxLockVote.outpoint v)
                (CTxLockVote.outpointMasternode v) (CTxLockVote.vchMasternodeSignature v')
                (CTxLockVote.nConfirmedHeight v) (CTxLockVote.nTimeCreated v)
      /\ SignMessage E (CTxLockVote.strMessage v)
         = Some (CTxLockVote.vchMasternodeSignature v')
      /\ VerifyMessage E (activeMasternode_pubKeyMasternode E)
                       (CTxLockVote.vchMasternodeSignature v') (CTxLockVote.strMessage v')
         = true
      /\ (GetMasternodeInfo E (CTxLockVote.outpointMasternode v)
          = Some (activeMasternode_pubKeyMasternode E) ->
          CTxLockVote.CheckSignature E v' = true)
  | None =>
      match SignMessage E (CTxLockVote.strMessage v) with
      | None => True
      | Some sig =>
          VerifyMessage E (activeMasternode_pubKeyMasternode E) sig
                        (CTxLockVote.strMessage v) = false
      end
  end.
Proof.
  unfold CTxLockVote.Sign.
  destruct (SignMessage E (CTxLockVote.strMessage v)) as [sig|] eqn:Hs; [|exact I].
  destruct (VerifyMessage E (activeMasternode_pubKeyMasternode E) sig
                          (CTxLockVote.strMessage v)) eqn:Hv; [|reflexivity].
  split; [reflexivity|]. split; [reflexivity|]. split; [reflexivity|].
  split; [reflexivity|]. split; [exact Hv|].
  intros Hk. unfold CTxLockVote.CheckSignature. simpl. rewrite Hk. exact Hv.
Qed.

(** ** The sweep, once more *)

Section SweepTwice.
Context {P : Params}.

Lemma filter_all {T} (p : T -> bool) (m : list T) :
  (forall e, In e m -> p e = true) -> filter p m = m.
Proof.
  induction m as [|x m IH]; simpl; intros Hall; [reflexivity|].
  rewrite (Hall x (or_introl eq_refl)). f_equal. apply IH. auto.
Qed.

Lemma set_votes_id f s :
  f (CDirectSend.mapTxLockVotes s) = CDirectSend.mapTxLockVotes s ->
  CDirectSend.set_votes f s = s.
Proof. destruct s. unfold CDirectSend.set_votes. simpl. intros ->. reflexivity. Qed.

Lemma set_mnorphans_id f s :
  f (CDirectSend.mapMasternodeOrphanVotes s) = CDirectSend.mapMasternodeOrphanVotes s ->
  CDirectSend.set_mnorphans f s = s.
Proof. destruct s. unfold CDirectSend.set_mnorphans. simpl. intros ->. reflexivity. Qed.

(** What the loops of the sweep leave alone. *)
Definition untouched (s s' : CDirectSend.t) : Prop :=
  CDirectSend.nCachedBlockHeight s' = CDirectSend.nCachedBlockHeight s
  /\ CDirectSend.nCompleteTXLocks s' = CDirectSend.nCompleteTXLocks s
  /\ CDirectSend.events s' = CDirectSend.events s.

Lemma remove_expired_candidates_untouched cs : forall s,
  untouched s (CDirectSend.remove_expired_candidates cs s)
  /\ CDirectSend.mapMasternodeOrphanVotes (CDirectSend.remove_expired_candidates cs s)
     = CDirectSend.mapMasternodeOrphanVotes s.
Proof.
  induction cs as [|[k c] cs IH]; simpl; intros s; [unfold untouched; auto|].
  destruct (CTxLockCandidate.IsExpired (CDirectSend.nCachedBlockHeight s) c); [|apply IH].
  destruct (IH (CDirectSend.erase_candidate k c s)) as [[H1 [H2 H3]] H4].
  unfold untouched. rewrite H1, H2, H3, H4. simpl. auto.
Qed.

Lemma remove_timed_out_orphans_untouched E os : forall s,
  untouched s (CDirectSend.remove_timed_out_orphans E os s)
  /\ CDirectSend.mapMasternodeOrphanVotes (CDirectSend.remove_timed_out_orphans E os s)
     = CDirectSend.mapMasternodeOrphanVotes s.
Proof.
  induction os as [|[k v] os IH]; simpl; intros s; [unfold untouched; auto|].
  destruct (CTxLockVote.IsTimedOut E v); [|apply IH].
  destruct (IH (CDirectSend.set_orphans (erase k) (CDirectSend.set_votes (erase k) s)))
    as [[H1 [H2 H3]] H4].
  unfold untouched. rewrite H1, H2, H3, H4. simpl. auto.
Qed.

(** The first loop leaves no expired candidate among those it visited. *)
Lemma remove_expired_candidates_clean cs : forall s e,
  In e (CDirectSend.mapTxLockCandidates (CDirectSend.remove_expired_candidates cs s)) ->
  In e cs ->
  CTxLockCandidate.IsExpired (CDirectSend.nCachedBlockHeight s) (snd e) = false.
Proof.
  induction cs as [|[k c] cs IH]; simpl; intros s e He Hin; [contradiction|].
  destruct (CTxLockCandidate.IsExpired (CDirectSend.nCachedBlockHeight s) c) eqn:Hexp.
  - destruct Hin as [<-|Hin].
    + apply remove_expired_candidates_sub in He. simpl in He.
      apply In_erase in He. simpl in He. destruct He as [_ N]. congruence.
    + specialize (IH _ _ He Hin). simpl in IH. exact IH.
  - destruct Hin as [<-|Hin]; [exact Hexp|]. apply (IH _ _ He Hin).
Qed.

Lemma remove_expired_candidates_none cs : forall s,
  (forall e, In e cs ->
             CTxLockCandidate.IsExpired (CDirectSend.nCachedBlockHeight s) (snd e) = false) ->
  CDirectSend.remove_expired_candidates cs s = s.
Proof.
  induction cs as [|[k c] cs IH]; simpl; intros s Hall; [reflexivity|].
  pose proof (Hall (k, c) (or_introl eq_refl)) as Hx. cbn [snd] in Hx. rewrite Hx.
  apply IH. auto.
Qed.

(** The third loop leaves no timed out orphan vote among those it visited. *)
Lemma remove_timed_out_orphans_clean E os : forall s e,
  In e (CDirectSend.mapTxLockVotesOrphan (CDirectSend.remove_timed_out_orphans E os s)) ->
  In e os ->
  CTxLockVote.IsTimedOut E (snd e) = false.
Proof.
  induction os as [|[k v] os IH]; simpl; intros s e He Hin; [contradiction|].
  destruct (CTxLockVote.IsTimedOut E v) eqn:Hto.
  - destruct Hin as [<-|Hin]; [|apply (IH _ _ He Hin)].
    destruct (remove_timed_out_orphans_subview E os
                (CDirectSend.set_orphans (erase k) (CDirectSend.set_votes (erase k) s)))
      as [_ [_ [_ [_ [_ [_ [_ Ho]]]]]]].
    apply Ho in He. simpl in He. apply In_erase in He. simpl in He.
    destruct He as [_ N]. congruence.
  - destruct Hin as [<-|Hin]; [exact Hto|]. apply (IH _ _ He Hin).
Qed.

Lemma remove_timed_out_orphans_none E os : forall s,
  (forall e, In e os -> CTxLockVote.IsTimedOut E (snd e) = false) ->
  CDirectSend.remove_timed_out_orphans E os s = s.
Proof.
  induction os as [|[k v] os IH]; simpl; intros s Hall; [reflexivity|].
  pose proof (Hall (k, v) (or_introl eq_refl)) as Hx. cbn [snd] in Hx. rewrite Hx.
  apply IH. auto.
Qed.

Lemma IsLocked_ext E s s' txHash :
  CDirectSend.mapTxLockCandidates s' = CDirectSend.mapTxLockCandidates s ->
  CDirectSend.mapLockedOutpoints s' = CDirectSend.mapLockedOutpoints s ->
  CDirectSend.IsLockedDirectSendTransaction E s' txHash
  = CDirectSend.IsLockedDirectSendTransaction E s txHash.
Proof.
  intros Hc Hl. unfold CDirectSend.IsLockedDirectSendTransaction,
    CDirectSend.GetLockedOutPointTxHash. rewrite Hc, Hl. reflexivity.
Qed.

Lemma IsFailed_ext E s s' v :
  CDirectSend.mapTxLockCandidates s' = CDirectSend.mapTxLockCandidates s ->
  CDirectSend.mapLockedOutpoints s' = CDirectSend.mapLockedOutpoints s ->
  CDirectSend.IsFailed E s' v = CDirectSend.IsFailed E s v.
Proof.
  intros Hc Hl. unfold CDirectSend.IsFailed. rewrite (IsLocked_ext E s s' _ Hc Hl). reflexivity.
Qed.

(** The state that a sweep leaves has nothing for a sweep to take. *)
Definition swept (E : Env) (s : CDirectSend.t) : Prop :=
  (forall e, In e (CDirectSend.mapTxLockCandidates s) ->
             CTxLockCandidate.IsExpired (CDirectSend.nCachedBlockHeight s) (snd e) = false)
  /\ (forall e, In e (CDirectSend.mapTxLockVotes s) ->
                CTxLockVote.IsExpired (CDirectSend.nCachedBlockHeight s) (snd e) = false
                /\ CDirectSend.IsFailed E s (snd e) = false)
  /\ (forall e, In e (CDirectSend.mapTxLockVotesOrphan s) ->
                CTxLockVote.IsTimedOut E (snd e) = false)
  /\ (forall e, In e (CDirectSend.mapMasternodeOrphanVotes s) -> GetTime E <= snd e).

Lemma CheckAndRemove_swept E s :
  IsMasternodeListSynced E = true -> swept E (CDirectSend.CheckAndRemove E s).
Proof.
  intros Hsync. unfold CDirectSend.CheckAndRemove. rewrite Hsync. cbn [negb].
  set (s1 := CDirectSend.remove_expired_candidates (CDirectSend.mapTxLockCandidates s) s).
  set (s2 := CDirectSend.set_votes _ s1).
  set (s3 := CDirectSend.remove_timed_out_orphans E (CDirectSend.mapTxLockVotesOrphan s2) s2).
  set (s4 := CDirectSend.set_votes _ s3).
  destruct (remove_expired_candidates_untouched (CDirectSend.mapTxLockCandidates s) s)
    as [[Hh1 _] _]. fold s1 in Hh1.
  destruct (remove_timed_out_orphans_untouched E (CDirectSend.mapTxLockVotesOrphan s2) s2)
    as [[Hh3 _] _]. fold s3 in Hh3.
  destruct (remove_timed_out_orphans_frame E (CDirectSend.mapTxLockVotesOrphan s2) s2)
    as [Hc3 [Hl3 _]]. fold s3 in Hc3, Hl3.
  assert (CDirectSend.nCachedBlockHeight s3 = CDirectSend.nCachedBlockHeight s) as Hh
    by (rewrite Hh3; exact Hh1).
  unfold swept. simpl. rewrite Hh.
  split; [|split; [intros e H; split|split]].
  - intros e He. rewrite Hc3 in He. simpl in He.
    apply (remove_expired_candidates_clean _ _ _ He).
    eapply remove_expired_candidates_sub. exact He.
  - apply filter_In in H. destruct H as [H _].
    destruct (remove_timed_out_orphans_subview E (CDirectSend.mapTxLockVotesOrphan s2) s2)
      as [_ [_ [_ [_ [_ [_ [Hv _]]]]]]].
    apply Hv in H. simpl in H. apply filter_In in H. destruct H as [_ H].
    rewrite Hh1 in H. apply negb_true_iff in H. exact H.
  - apply filter_In in H. destruct H as [_ H]. apply negb_true_iff in H.
    rewrite <- H. apply IsFailed_ext; reflexivity.
  - intros e He. apply (remove_timed_out_orphans_clean _ _ _ _ He).
    destruct (remove_timed_out_orphans_subview E (CDirectSend.mapTxLockVotesOrphan s2) s2)
      as [_ [_ [_ [_ [_ [_ [_ Ho]]]]]]].
    apply Ho. exact He.
  - intros e He. apply filter_In in He. destruct He as [_ He].
    apply negb_true_iff in He. apply Z.ltb_ge in He. exact He.
Qed.

Lemma swept_fixed E s : swept E s -> CDirectSend.CheckAndRemove E s = s.
Proof.
  intros [Hc [Hv [Ho Hm]]]. unfold CDirectSend.CheckAndRemove.
  destruct (IsMasternodeListSynced E); cbn [negb]; [|reflexivity].
  rewrite (remove_expired_candidates_none _ _ Hc).
  rewrite (@set_votes_id _ s).
  2: { apply filter_all. intros e He. apply negb_true_iff. apply (Hv e He). }
  rewrite (remove_timed_out_orphans_none _ _ _ Ho).
  rewrite (@set_votes_id _ s).
  2: { apply filter_all. intros e He. apply negb_true_iff. apply (Hv e He). }
  apply set_mnorphans_id. apply filter_all. intros e He.
  apply negb_true_iff. apply Z.ltb_ge. apply (Hm e He).
Qed.
End SweepTwice.

(** X6. [CheckAndRemove] leaves nothing behind that it would take: run
    again at once, with the same clock and tip, it changes nothing. *)
Theorem CheckAndRemove_idempotent {P : Params} (E : Env) (s : CDirectSend.t) :
  CDirectSend.CheckAndRemove E (CDirectSend.CheckAndRemove E s)
  = CDirectSend.CheckAndRemove E s.
Proof.
  destruct (IsMasternodeListSynced E) eqn:Hsync.
  - apply swept_fixed. apply CheckAndRemove_swept. exact Hsync.
  - unfold CDirectSend.CheckAndRemove. rewrite Hsync. reflexivity.
Qed.

(** X7. On a node whose masternode list is synced, [CheckAndRemove] leaves,
    at the cached tip and the current time, no expired candidate, no stored
    vote that is expired or failed, no timed out orphan vote and no deadline of
    the orphan rate limiter that has passed. *)
Theorem CheckAndRemove_leaves_clean {P : Params} (E : Env) (s : CDirectSend.t) :
  IsMasternodeListSynced E = true ->
  let s' := CDirectSend.CheckAndRemove E s in
  (forall k c, In (k, c) (CDirectSend.mapTxLockCandidates s') ->
               CTxLockCandidate.IsExpired (CDirectSend.nCachedBlockHeight s) c = false)
  /\ (forall k v, In (k, v) (CDirectSend.mapTxLockVotes s') ->
                  CTxLockVote.IsExpired (CDirectSend.nCachedBlockHeight s) v = false
                  /\ CDirectSend.IsFailed E s' v = false)
  /\ (forall k v, In (k, v) (CDirectSend.mapTxLockVotesOrphan s') ->
                  CTxLockVote.IsTimedOut E v = false)
  /\ (forall mn t, In (mn, t) (CDirectSend.mapMasternodeOrphanVotes s') -> GetTime E <= t).
Proof.
  intros Hsync s'.
  destruct (@CheckAndRemove_swept _ E s Hsync) as [Hc [Hv [Ho Hm]]]. fold s' in Hc, Hv, Ho, Hm.
  assert (CDirectSend.nCachedBlockHeight s' = CDirectSend.nCachedBlockHeight s) as Hh
    by apply CheckAndRemove_subview.
  rewrite Hh in Hc, Hv.
  split; [intros k c Hin; apply (Hc (k, c) Hin)|].
  split; [intros k v Hin; apply (Hv (k, v) Hin)|].
  split; [intros k v Hin; apply (Ho (k, v) Hin)|].
  intros mn t Hin. apply (Hm (mn, t) Hin).
Qed.

Lemma CheckAndRemove_leaves_clean_witness :
  CDirectSend.mapTxLockCandidates
    (CDirectSend.CheckAndRemove (P := Demo.params) Demo.env
       (CDirectSend.UpdatedBlockTip 100 ExpiryExamples.dropped)) = []
  /\ forall k v,
       In (k, v) (CDirectSend.mapTxLockVotes
                    (CDirectSend.CheckAndRemove (P := Demo.params) Demo.env
                       (CDirectSend.UpdatedBlockTip 100 ExpiryExamples.dropped))) ->
       CTxLockVote.IsExpired (P := Demo.params) 100 v = false.
Proof.
  split; [reflexivity|].
  intros k v Hin.
  destruct (@CheckAndRemove_leaves_clean Demo.params Demo.env
              (CDirectSend.UpdatedBlockTip 100 ExpiryExamples.dropped) eq_refl)
    as [_ [Hv _]].
  apply (Hv k v Hin).
Defined.

Section SweepRemoves.
Context {P : Params}.

Lemma CheckAndRemove_untouched E s :
  untouched s (CDirectSend.CheckAndRemove E s)
  /\ forall e, In e (CDirectSend.mapMasternodeOrphanVotes (CDirectSend.CheckAndRemove E s)) ->
               In e (CDirectSend.mapMasternodeOrphanVotes s).
Proof.
  unfold CDirectSend.CheckAndRemove.
  destruct (IsMasternodeListSynced E); cbn [negb]; [|unfold untouched; auto].
  set (s1 := CDirectSend.remove_expired_candidates (CDirectSend.mapTxLockCandidates s) s).
  set (s2 := CDirectSend.set_votes _ s1).
  set (s3 := CDirectSend.remove_timed_out_orphans E (CDirectSend.mapTxLockVotesOrphan s2) s2).
  destruct (remove_expired_candidates_untouched (CDirectSend.mapTxLockCandidates s) s)
    as [[A1 [A2 A3]] A4]. fold s1 in A1, A2, A3, A4.
  destruct (remove_timed_out_orphans_untouched E (CDirectSend.mapTxLockVotesOrphan s2) s2)
    as [[B1 [B2 B3]] B4]. fold s3 in B1, B2, B3, B4.
  unfold untouched. simpl. rewrite B1, B2, B3, B4. simpl. rewrite A1, A2, A3, A4.
  repeat split. intros e He. apply filter_In in He. tauto.
Qed.

Lemma count_sub {K V} `{OrdKey K} (m m' : StdMap.t K V) k :
  (forall v, find k m' = Some v -> find k m = Some v) -> count k m' = true -> count k m = true.
Proof.
  intros Hs Hc. apply count_find in Hc. destruct Hc as [v Hv]. apply count_find. eauto.
Qed.

Lemma count_sub_In {K V} `{OrdKey K} (m m' : StdMap.t K V) k :
  (forall e, In e m' -> In e m) -> count k m' = true -> count k m = true.
Proof.
  intros Hs Hc. apply count_find in Hc. destruct Hc as [v Hv].
  apply find_In in Hv. apply Hs in Hv. apply count_find. eapply In_find. exact Hv.
Qed.
End SweepRemoves.

(** X8. [CheckAndRemove] only removes.  Whatever the queries find
    afterwards was there before: a hash that [AlreadyHave] knows, a lock
    request, a locked outpoint, a locked transaction, a vote, an orphan vote,
    a deadline of the rate limiter; the cached height, the counter of
    completed locks and the trace of outgoing calls are as they were. *)
Theorem CheckAndRemove_only_removes {P : Params} (E : Env) (s : CDirectSend.t) :
  let s' := CDirectSend.CheckAndRemove E s in
  CDirectSend.events s' = CDirectSend.events s
  /\ CDirectSend.nCachedBlockHeight s' = CDirectSend.nCachedBlockHeight s
  /\ CDirectSend.nCompleteTXLocks s' = CDirectSend.nCompleteTXLocks s
  /\ (forall h, CDirectSend.AlreadyHave s' h = true -> CDirectSend.AlreadyHave s h = true)
  /\ (forall h r, CDirectSend.GetTxLockRequest s' h = Some r ->
                  CDirectSend.GetTxLockRequest s h = Some r)
  /\ (forall o h, CDirectSend.GetLockedOutPointTxHash s' o = Some h ->
                  CDirectSend.GetLockedOutPointTxHash s o = Some h)
  /\ (forall h, CDirectSend.IsLockedDirectSendTransaction E s' h = true ->
                CDirectSend.IsLockedDirectSendTransaction E s h = true)
  /\ (forall h v, CDirectSend.GetTxLockVote s' h = Some v ->
                  In (h, v) (CDirectSend.mapTxLockVotes s))
  /\ (forall e, In e (CDirectSend.mapTxLockVotesOrphan s') ->
                In e (CDirectSend.mapTxLockVotesOrphan s))
  /\ (forall e, In e (CDirectSend.mapMasternodeOrphanVotes s') ->
                In e (CDirectSend.mapMasternodeOrphanVotes s)).
Proof.
  intros s'.
  destruct (CheckAndRemove_untouched E s) as [[U1 [U2 U3]] U4]. fold s' in U1, U2, U3, U4.
  destruct (CheckAndRemove_subview E s) as [_ [Sc [Sl [_ [Sa [Sr [Sv So]]]]]]].
  fold s' in Sc, Sl, Sa, Sr, Sv, So.
  split; [exact U3|]. split; [exact U1|]. split; [exact U2|].
  split.
  { intros h. unfold CDirectSend.AlreadyHave. rewrite !orb_true_iff.
    intros [[Ha|Hr]|Hv].
    - left. left. eapply count_sub; [apply Sa | exact Ha].
    - left. right. eapply count_sub; [apply Sr | exact Hr].
    - right. eapply count_sub_In; [apply Sv | exact Hv]. }
  split.
  { intros h r. unfold CDirectSend.GetTxLockRequest.
    destruct (find h (CDirectSend.mapTxLockCandidates s')) as [c|] eqn:Hc; [|discriminate].
    rewrite (Sc h c Hc). auto. }
  split; [exact Sl|].
  split.
  { intros h Hl. apply IsLocked_spec in Hl. destruct Hl as [Hen [c [Hc [Hne Hall]]]].
    apply IsLocked_spec. split; [exact Hen|]. exists c.
    split; [apply Sc; exact Hc|]. split; [exact Hne|].
    intros o Ho. apply Sl. apply Hall. exact Ho. }
  split.
  { intros h v Hg. apply Sv. apply find_In. exact Hg. }
  split; [exact So | exact U4].
Qed.

(** ** Completed locks *)

(** X9. Two transactions that spend the same outpoint are never both
    locked: where the candidates of two different transactions both hold a
    lock on an outpoint and [IsLockedDirectSendTransaction] holds for one of
    them, it fails for the other. *)
Theorem locked_transactions_disjoint (E : Env) (s : CDirectSend.t)
        (h1 h2 : uint256) (c1 c2 : CTxLockCandidate.t) (o : COutPoint.t) :
  find h1 (CDirectSend.mapTxLockCandidates s) = Some c1 ->
  find h2 (CDirectSend.mapTxLockCandidates s) = Some c2 ->
  In o (keys (CTxLockCandidate.mapOutPointLocks c1)) ->
  In o (keys (CTxLockCandidate.mapOutPointLocks c2)) ->
  h1 <> h2 ->
  CDirectSend.IsLockedDirectSendTransaction E s h1 = true ->
  CDirectSend.IsLockedDirectSendTransaction E s h2 = false.
Proof.
  intros Hc1 Hc2 Ho1 Ho2 Hne Hl1.
  destruct (CDirectSend.IsLockedDirectSendTransaction E s h2) eqn:Hl2; [|reflexivity].
  exfalso. apply IsLocked_spec in Hl1. apply IsLocked_spec in Hl2.
  destruct Hl1 as [_ [c1' [Hc1' [_ Hall1]]]]. destruct Hl2 as [_ [c2' [Hc2' [_ Hall2]]]].
  rewrite Hc1 in Hc1'. rewrite Hc2 in Hc2'.
  injection Hc1' as <-. injection Hc2' as <-.
  specialize (Hall1 o Ho1). specialize (Hall2 o Ho2). congruence.
Qed.

Lemma locked_transactions_disjoint_witness :
  CDirectSend.IsLockedDirectSendTransaction Demo.env ConflictExamples.raced 21 = false.
Proof.
  apply (@locked_transactions_disjoint Demo.env ConflictExamples.raced 22 21
           (ConflictExamples.candidate 22 [ConflictExamples.b])
           (ConflictExamples.candidate 21 [ConflictExamples.a; ConflictExamples.b])
           ConflictExamples.b).
  - reflexivity.
  - reflexivity.
  - simpl. auto.
  - simpl. auto.
  - discriminate.
  - reflexivity.
Defined.

Section Locking.
Context {P : Params}.

Lemma find_fold_insert {K V} `{OrdKey K} (h : V) (outs : list K) : forall (m : StdMap.t K V) o,
  find o (fold_left (fun m o => insert o h m) outs m)
  = match find o m with
    | Some x => Some x
    | None => if existsb (keqb o) outs then Some h else None
    end.
Proof.
  induction outs as [|x outs IH]; intros m o; simpl.
  - destruct (find o m); reflexivity.
  - rewrite IH. rewrite find_insert. destruct (keqb o x) eqn:Eo.
    + apply keqb_eq in Eo. subst x. destruct (find o m); reflexivity.
    + destruct (find o m); reflexivity.
Qed.

Lemma existsb_keys_count {K V} `{OrdKey K} (o : K) (m : StdMap.t K V) :
  existsb (keqb o) (keys m) = count o m.
Proof.
  unfold count, keys. induction m as [|[k v] m IH]; simpl; [reflexivity|].
  destruct (keqb o k); simpl; [reflexivity | exact IH].
Qed.

Lemma count_In_keys {K V} `{OrdKey K} (o : K) (m : StdMap.t K V) :
  count o m = true <-> In o (keys m).
Proof.
  split.
  - intros Hc. destruct (find o m) as [v|] eqn:Hf.
    + apply find_In in Hf. unfold keys. apply in_map_iff. exists (o, v). auto.
    + apply count_false in Hf. congruence.
  - intros Hin. apply find_In_keys in Hin. apply count_find. exact Hin.
Qed.

Lemma LockTransactionInputs_lookup E c s o :
  CDirectSend.GetLockedOutPointTxHash (CDirectSend.LockTransactionInputs E c s) o
  = match CDirectSend.GetLockedOutPointTxHash s o with
    | Some h => Some h
    | None =>
        if SPORK_2_DIRECTSEND_ENABLED E && CTxLockCandidate.IsAllOutPointsReady c
           && count o (CTxLockCandidate.mapOutPointLocks c)
        then Some (CTxLockCandidate.GetHash c) else None
    end.
Proof.
  unfold CDirectSend.LockTransactionInputs, CDirectSend.GetLockedOutPointTxHash.
  destruct (SPORK_2_DIRECTSEND_ENABLED E); cbn [negb andb];
    [|destruct (find o _); reflexivity].
  destruct (CTxLockCandidate.IsAllOutPointsReady c); cbn [negb andb];
    [|destruct (find o _); reflexivity].
  simpl. rewrite find_fold_insert, existsb_keys_count. reflexivity.
Qed.

Lemma LockTransactionInputs_frame E c s :
  CDirectSend.LockTransactionInputs E c s
  = CDirectSend.set_locked
      (fun _ => CDirectSend.mapLockedOutpoints (CDirectSend.LockTransactionInputs E c s)) s.
Proof.
  unfold CDirectSend.LockTransactionInputs.
  destruct (negb (SPORK_2_DIRECTSEND_ENABLED E)); [destruct s; reflexivity|].
  destruct (negb (CTxLockCandidate.IsAllOutPointsReady c)); [destruct s; reflexivity|].
  reflexivity.
Qed.
End Locking.

(** X10. [LockTransactionInputs] never takes a locked outpoint from the
    transaction that holds it: an outpoint that is locked stays locked by the
    same transaction, and an outpoint that is free is locked for the candidate
    exactly when it is one of its outpoints, spork 2 is active and all its
    outpoints are ready.  Nothing but [mapLockedOutpoints] changes. *)
Theorem LockTransactionInputs_first_lock_wins {P : Params} (E : Env)
        (c : CTxLockCandidate.t) (s : CDirectSend.t) :
  (forall o,
      CDirectSend.GetLockedOutPointTxHash (CDirectSend.LockTransactionInputs E c s) o
      = match CDirectSend.GetLockedOutPointTxHash s o with
        | Some h => Some h
        | None =>
            if SPORK_2_DIRECTSEND_ENABLED E && CTxLockCandidate.IsAllOutPointsReady c
               && count o (CTxLockCandidate.mapOutPointLocks c)
            then Some (CTxLockCandidate.GetHash c) else None
        end)
  /\ CDirectSend.LockTransactionInputs E c s
     = CDirectSend.set_locked
         (fun _ => CDirectSend.mapLockedOutpoints (CDirectSend.LockTransactionInputs E c s)) s.
Proof.
  split; [apply LockTransactionInputs_lookup | apply LockTransactionInputs_frame].
Qed.

(** ** Finalization *)

Section Finalize.
Context {P : Params}.

(** [GetTransaction] finds the transaction in a block. *)
Definition in_block (E : Env) (txHash : uint256) : Prop :=
  exists hashBlock, GetTransaction E txHash = Some hashBlock /\ hashBlock <> 0.

Definition unspent (E : Env) (txin : CTxIn) : Prop := GetUTXOCoins E (prevout txin) <> None.

Lemma scan_conflicts_fails E txHash ins : forall s r,
  CDirectSend.scan_conflicts E txHash ins s = Some r ->
  snd r = false /\ CDirectSend.events (fst r) = CDirectSend.events s.
Proof.
  induction ins as [|txin ins IH]; simpl; intros s r Hr; [discriminate|].
  destruct (CDirectSend.GetLockedOutPointTxHash s (prevout txin)) as [hc|].
  - destruct (negb (txHash =? hc)).
    + injection Hr as <-. unfold CDirectSend.drop_both.
      destruct (find txHash (CDirectSend.mapTxLockCandidates s)) as [c1|]; [|auto].
      destruct (find hc (CDirectSend.mapTxLockCandidates s)) as [c2|]; [|auto].
      split; [reflexivity|]. simpl.
      match goal with
      | |- CDirectSend.events (CDirectSend.CheckAndRemove E ?st) = _ =>
          destruct (CheckAndRemove_untouched E st) as [[_ [_ Hev]] _]; rewrite Hev
      end.
      reflexivity.
    + destruct (mapNextTx E (prevout txin)) as [hm|]; [|eauto].
      destruct (txHash =? hm); [eauto|]. injection Hr as <-. auto.
  - destruct (mapNextTx E (prevout txin)) as [hm|]; [|eauto].
    destruct (txHash =? hm); [eauto|]. injection Hr as <-. auto.
Qed.

Lemma scan_conflicts_clear E txHash s ins :
  CDirectSend.scan_conflicts E txHash ins s = None <-> Forall (clear_input E txHash s) ins.
Proof.
  induction ins as [|txin ins IH]; simpl.
  - split; [constructor | reflexivity].
  - unfold CDirectSend.GetLockedOutPointTxHash.
    assert (forall h, (txHash =? h) = true <-> h = txHash) as Heq
      by (intros h; rewrite Z.eqb_eq; split; congruence).
    split.
    + intros Hs. constructor.
      * unfold clear_input.
        destruct (find (prevout txin) (CDirectSend.mapLockedOutpoints s)) as [hc|].
        -- destruct (txHash =? hc) eqn:Ec; simpl in Hs; [|discriminate].
           split; [apply Heq; exact Ec|].
           destruct (mapNextTx E (prevout txin)) as [hm|]; [|exact I].
           destruct (txHash =? hm) eqn:Em; [apply Heq; exact Em | discriminate].
        -- split; [exact I|].
           destruct (mapNextTx E (prevout txin)) as [hm|]; [|exact I].
           destruct (txHash =? hm) eqn:Em; [apply Heq; exact Em | discriminate].
      * apply IH.
        destruct (find (prevout txin) (CDirectSend.mapLockedOutpoints s)) as [hc|].
        -- destruct (txHash =? hc); simpl in Hs; [|discriminate].
           destruct (mapNextTx E (prevout txin)) as [hm|]; [|exact Hs].
           destruct (txHash =? hm); [exact Hs | discriminate].
        -- destruct (mapNextTx E (prevout txin)) as [hm|]; [|exact Hs].
           destruct (txHash =? hm); [exact Hs | discriminate].
    + intros Hall. inversion Hall as [|? ? [Hl Hm] Hrest]; subst.
      apply IH in Hrest.
      destruct (find (prevout txin) (CDirectSend.mapLockedOutpoints s)) as [hc|].
      * subst hc. rewrite Z.eqb_refl. simpl.
        destruct (mapNextTx E (prevout txin)) as [hm|]; [|exact Hrest].
        subst hm. rewrite Z.eqb_refl. exact Hrest.
      * destruct (mapNextTx E (prevout txin)) as [hm|]; [|exact Hrest].
        subst hm. rewrite Z.eqb_refl. exact Hrest.
Qed.

Lemma forallb_unspent E ins :
  forallb (fun txin => match GetUTXOCoins E (prevout txin) with
                       | Some _ => true
                       | None => false
                       end) ins = true
  <-> Forall (unspent E) ins.
Proof.
  rewrite forallb_forall, Forall_forall. unfold unspent.
  split; intros Hall x Hx; specialize (Hall x Hx);
    destruct (GetUTXOCoins E (prevout x)); congruence.
Qed.

Lemma ResolveConflicts_spec E c s :
  snd (CDirectSend.ResolveConflicts E c s) = true <->
  CTxLockCandidate.IsAllOutPointsReady c = true
  /\ Forall (clear_input E (CTxLockCandidate.GetHash c) s)
            (CTxLockRequest.vin (CTxLockCandidate.txLockRequest c))
  /\ (in_block E (CTxLockCandidate.GetHash c)
      \/ Forall (unspent E) (CTxLockRequest.vin (CTxLockCandidate.txLockRequest c))).
Proof.
  unfold CDirectSend.ResolveConflicts.
  destruct (CTxLockCandidate.IsAllOutPointsReady c); cbn [negb].
  2: { simpl. split; [intros Hx; discriminate Hx | intros [Hx _]; discriminate Hx]. }
  destruct (CDirectSend.scan_conflicts E (CTxLockCandidate.GetHash c)
              (CTxLockRequest.vin (CTxLockCandidate.txLockRequest c)) s) as [r|] eqn:Hs.
  - destruct (scan_conflicts_fails _ _ _ _ Hs) as [Hr _]. rewrite Hr.
    split; [intros Hx; discriminate Hx|]. intros [_ [Hall _]].
    apply scan_conflicts_clear in Hall. congruence.
  - apply scan_conflicts_clear in Hs. unfold in_block.
    destruct (GetTransaction E (CTxLockCandidate.GetHash c)) as [hashBlock|].
    + destruct (Z.eqb_spec hashBlock 0) as [Hz|Hnz]; cbn [negb].
      * cbn [snd]. rewrite forallb_unspent. split.
        -- intros Hu. auto.
        -- intros [_ [_ [[hb [[= <-] N]]|Hu]]]; [contradiction | exact Hu].
      * simpl. split; [|reflexivity]. intros _. split; [reflexivity|]. split; [exact Hs|].
        left. eauto.
    + cbn [snd]. rewrite forallb_unspent. split.
      * intros Hu. auto.
      * intros [_ [_ [[hb [Hx _]]|Hu]]]; [discriminate | exact Hu].
Qed.

Lemma ResolveConflicts_state E c s :
  CDirectSend.events (fst (CDirectSend.ResolveConflicts E c s)) = CDirectSend.events s
  /\ (snd (CDirectSend.ResolveConflicts E c s) = true ->
      fst (CDirectSend.ResolveConflicts E c s) = s).
Proof.
  unfold CDirectSend.ResolveConflicts.
  destruct (CTxLockCandidate.IsAllOutPointsReady c); cbn [negb]; [|auto].
  destruct (CDirectSend.scan_conflicts E (CTxLockCandidate.GetHash c)
              (CTxLockRequest.vin (CTxLockCandidate.txLockRequest c)) s) as [r|] eqn:Hs.
  - destruct (scan_conflicts_fails _ _ _ _ Hs) as [Hr He]. rewrite Hr.
    split; [exact He | discriminate].
  - match goal with |- context [if ?b then _ else _] => destruct b end; auto.
Qed.
End Finalize.

(** X11. [ResolveConflicts] answers true exactly when every outpoint lock
    of the candidate is ready, no input is locked by another transaction or
    spent in the mempool by another transaction, and the transaction is in a
    block or all its inputs are unspent.  When it answers true it has changed
    nothing. *)
Theorem ResolveConflicts_succeeds_iff {P : Params} (E : Env) (c : CTxLockCandidate.t)
        (s : CDirectSend.t) :
  (snd (CDirectSend.ResolveConflicts E c s) = true <->
   CTxLockCandidate.IsAllOutPointsReady c = true
   /\ Forall (clear_input E (CTxLockCandidate.GetHash c) s)
             (CTxLockRequest.vin (CTxLockCandidate.txLockRequest c))
   /\ (in_block E (CTxLockCandidate.GetHash c)
       \/ Forall (unspent E) (CTxLockRequest.vin (CTxLockCandidate.txLockRequest c))))
  /\ (snd (CDirectSend.ResolveConflicts E c s) = true ->
      fst (CDirectSend.ResolveConflicts E c s) = s).
Proof.
  split; [apply ResolveConflicts_spec | apply ResolveConflicts_state].
Qed.

Section Finalized.
Context {P : Params}.

(** What [UpdateLockedTransaction] tells the wallet and the listeners. *)
Definition announced (E : Env) (txHash : uint256) : list Event :=
  (if pwalletMain E && UpdatedTransaction E txHash then
     if String.eqb (directsendnotify E) EmptyString then []
     else [EvRunCommand (directsendnotify E) txHash]
   else [])
  ++ [EvNotifyTransactionLock txHash].

Lemma ready_has_locks c :
  CTxLockCandidate.IsAllOutPointsReady c = true -> CTxLockCandidate.mapOutPointLocks c <> [].
Proof.
  unfold CTxLockCandidate.IsAllOutPointsReady.
  destruct (CTxLockCandidate.mapOutPointLocks c); [discriminate | discriminate].
Qed.

Lemma UpdateLockedTransaction_spec E c s :
  let txHash := CTxLockCandidate.GetHash c in
  CDirectSend.mapTxLockCandidates (CDirectSend.UpdateLockedTransaction E c s)
  = CDirectSend.mapTxLockCandidates s
  /\ CDirectSend.mapLockedOutpoints (CDirectSend.UpdateLockedTransaction E c s)
     = CDirectSend.mapLockedOutpoints s
  /\ CDirectSend.events (CDirectSend.UpdateLockedTransaction E c s)
     = CDirectSend.events s
       ++ (if CDirectSend.IsLockedDirectSendTransaction E s txHash
           then announced E txHash else []).
Proof.
  intros txHash. unfold CDirectSend.UpdateLockedTransaction, announced. fold txHash.
  destruct (CDirectSend.IsLockedDirectSendTransaction E s txHash); cbn [negb].
  2: { rewrite app_nil_r. auto. }
  unfold CTxLockCandidate.GetHash in txHash. fold txHash.
  destruct (pwalletMain E && UpdatedTransaction E txHash).
  - destruct (String.eqb (directsendnotify E) EmptyString); simpl;
      repeat split; try reflexivity; rewrite <- ?app_assoc; reflexivity.
  - simpl. auto.
Qed.
End Finalized.

(** X12. A candidate that is stored under its hash, has all its outpoint
    locks ready and passes [ResolveConflicts] becomes locked by
    [TryToFinalizeLockCandidate], provided that none of its outpoints is
    locked by another transaction, spork 2 is active and the switches of
    [IsLockedDirectSendTransaction] are on: afterwards the transaction is
    locked, it counts [nDirectSendDepth] confirmations, and the lock was
    announced once. *)
Theorem ready_candidate_gets_locked {P : Params} (E : Env) (nDirectSendDepth : Z)
        (s : CDirectSend.t) (c : CTxLockCandidate.t) :
  let txHash := CTxLockCandidate.GetHash c in
  SPORK_2_DIRECTSEND_ENABLED E = true ->
  locks_enabled E = true ->
  find txHash (CDirectSend.mapTxLockCandidates s) = Some c ->
  CTxLockCandidate.IsAllOutPointsReady c = true ->
  Forall (clear_input E txHash s) (CTxLockRequest.vin (CTxLockCandidate.txLockRequest c)) ->
  in_block E txHash
  \/ Forall (unspent E) (CTxLockRequest.vin (CTxLockCandidate.txLockRequest c)) ->
  (forall o h, In o (keys (CTxLockCandidate.mapOutPointLocks c)) ->
               CDirectSend.GetLockedOutPointTxHash s o = Some h -> h = txHash) ->
  CDirectSend.IsLockedDirectSendTransaction E s txHash = false ->
  let s' := CDirectSend.TryToFinalizeLockCandidate E c s in
  CDirectSend.IsLockedDirectSendTransaction E s' txHash = true
  /\ CDirectSend.GetConfirmations E nDirectSendDepth s' txHash = nDirectSendDepth
  /\ (forall o, In o (keys (CTxLockCandidate.mapOutPointLocks c)) ->
                CDirectSend.GetLockedOutPointTxHash s' o = Some txHash)
  /\ CDirectSend.events s' = CDirectSend.events s ++ announced E txHash.
Proof.
  intros txHash Hsp Hen Hc Hready Hclear Hres Hfree Hnot s'.
  assert (snd (CDirectSend.ResolveConflicts E c s) = true) as Hok
    by (apply ResolveConflicts_spec; auto).
  pose proof (proj2 (ResolveConflicts_state E c s) Hok) as Hst.
  set (s2 := CDirectSend.LockTransactionInputs E c s).
  assert (forall o, In o (keys (CTxLockCandidate.mapOutPointLocks c)) ->
                    CDirectSend.GetLockedOutPointTxHash s2 o = Some txHash) as Hl2.
  { intros o Ho. unfold s2. rewrite LockTransactionInputs_lookup.
    destruct (CDirectSend.GetLockedOutPointTxHash s o) as [h|] eqn:Hg.
    - rewrite (Hfree o h Ho Hg). reflexivity.
    - rewrite Hsp, Hready. apply count_In_keys in Ho. rewrite Ho. reflexivity. }
  assert (CDirectSend.mapTxLockCandidates s2 = CDirectSend.mapTxLockCandidates s) as Hc2.
  { unfold s2. rewrite LockTransactionInputs_frame. reflexivity. }
  assert (CDirectSend.events s2 = CDirectSend.events s) as He2.
  { unfold s2. rewrite LockTransactionInputs_frame. reflexivity. }
  assert (CDirectSend.IsLockedDirectSendTransaction E s2 txHash = true) as Hlocked2.
  { apply IsLocked_spec. split; [exact Hen|]. exists c. rewrite Hc2.
    split; [exact Hc|]. split; [apply ready_has_locks; exact Hready | exact Hl2]. }
  assert (s' = CDirectSend.UpdateLockedTransaction E c s2) as Hs'.
  { unfold s', CDirectSend.TryToFinalizeLockCandidate. rewrite Hsp. cbn [negb].
    change (CTxLockRequest.GetHash (CTxLockCandidate.txLockRequest c)) with txHash.
    rewrite Hready, Hnot. cbn [negb andb].
    destruct (CDirectSend.ResolveConflicts E c s) as [s1 ok]. simpl in Hok, Hst.
    subst ok s1. reflexivity. }
  destruct (UpdateLockedTransaction_spec E c s2) as [Uc [Ul Ue]]. fold txHash in Ue.
  rewrite Hlocked2 in Ue. rewrite <- Hs' in Uc, Ul, Ue.
  assert (CDirectSend.IsLockedDirectSendTransaction E s' txHash = true) as Hlocked.
  { rewrite (IsLocked_ext E s2 s' txHash Uc Ul). exact Hlocked2. }
  split; [exact Hlocked|].
  split; [unfold CDirectSend.GetConfirmations; rewrite Hlocked; reflexivity|].
  split.
  - intros o Ho. unfold CDirectSend.GetLockedOutPointTxHash. rewrite Ul. apply (Hl2 o Ho).
  - rewrite Ue, He2. reflexivity.
Qed.

Module FinalizeExamples.
Definition a := Demo.op 1 0.

(** Transaction 21 spends [a] and has six votes on it; nothing is locked. *)
Definition ready : CDirectSend.t :=
  CDirectSend.set_candidates (fun _ => [(21, ConflictExamples.candidate 21 [a])])
    CDirectSend.empty.
End FinalizeExamples.

Lemma ready_candidate_gets_locked_witness :
  CDirectSend.IsLockedDirectSendTransaction Demo.env
    (CDirectSend.TryToFinalizeLockCandidate (P := Demo.params) Demo.env
       (ConflictExamples.candidate 21 [FinalizeExamples.a]) FinalizeExamples.ready) 21 = true
  /\ CDirectSend.events
       (CDirectSend.TryToFinalizeLockCandidate (P := Demo.params) Demo.env
          (ConflictExamples.candidate 21 [FinalizeExamples.a]) FinalizeExamples.ready)
     = [EvNotifyTransactionLock 21].
Proof.
  destruct (@ready_candidate_gets_locked Demo.params Demo.env 5 FinalizeExamples.ready
              (ConflictExamples.candidate 21 [FinalizeExamples.a])
              eq_refl eq_refl eq_refl eq_refl) as [Hl [_ [_ He]]].
  - constructor; [|constructor]. split; exact I.
  - right. constructor; [|constructor]. discriminate.
  - intros o h _ Hg. discriminate Hg.
  - reflexivity.
  - split; [exact Hl | exact He].
Defined.

(** X13. [TryToFinalizeLockCandidate] announces a lock at most once: when
    a call has added to the trace of outgoing calls, which it does only by
    announcing the lock, the next call for the same candidate changes
    nothing. *)
Theorem lock_announced_once {P : Params} (E : Env) (c : CTxLockCandidate.t)
        (s : CDirectSend.t) :
  CDirectSend.events (CDirectSend.TryToFinalizeLockCandidate E c s) <> CDirectSend.events s ->
  CDirectSend.events (CDirectSend.TryToFinalizeLockCandidate E c s)
  = CDirectSend.events s ++ announced E (CTxLockCandidate.GetHash c)
  /\ CDirectSend.TryToFinalizeLockCandidate E c (CDirectSend.TryToFinalizeLockCandidate E c s)
     = CDirectSend.TryToFinalizeLockCandidate E c s.
Proof.
  intros Hev.
  assert (forall st,
             CDirectSend.IsLockedDirectSendTransaction E st (CTxLockCandidate.GetHash c) = true ->
             CDirectSend.TryToFinalizeLockCandidate E c st = st) as Hnoop.
  { intros st Hl. unfold CDirectSend.TryToFinalizeLockCandidate.
    destruct (negb (SPORK_2_DIRECTSEND_ENABLED E)); [reflexivity|].
    change (CTxLockRequest.GetHash (CTxLockCandidate.txLockRequest c))
      with (CTxLockCandidate.GetHash c).
    rewrite Hl. rewrite andb_false_r. reflexivity. }
  set (s2 := CDirectSend.LockTransactionInputs E c s).
  assert (CDirectSend.TryToFinalizeLockCandidate E c s
          = CDirectSend.UpdateLockedTransaction E c s2
          \/ CDirectSend.events (CDirectSend.TryToFinalizeLockCandidate E c s)
             = CDirectSend.events s) as [Heq|Heq].
  { unfold CDirectSend.TryToFinalizeLockCandidate.
    destruct (negb (SPORK_2_DIRECTSEND_ENABLED E)); [auto|].
    destruct (CTxLockCandidate.IsAllOutPointsReady c && _); [|auto].
    destruct (ResolveConflicts_state E c s) as [Hre Hrs].
    destruct (CDirectSend.ResolveConflicts E c s) as [s1 ok]. simpl in Hre, Hrs.
    destruct ok; [|auto]. rewrite (Hrs eq_refl). auto. }
  2: contradiction.
  assert (CDirectSend.events s2 = CDirectSend.events s) as He2.
  { unfold s2. rewrite LockTransactionInputs_frame. reflexivity. }
  destruct (UpdateLockedTransaction_spec E c s2) as [Uc [Ul Ue]]. cbv zeta in Ue.
  rewrite He2 in Ue. rewrite Heq in Hev |- *.
  destruct (CDirectSend.IsLockedDirectSendTransaction E s2 (CTxLockCandidate.GetHash c))
    eqn:Hl2.
  - split; [exact Ue|]. apply Hnoop.
    rewrite (IsLocked_ext E s2 _ _ Uc Ul). exact Hl2.
  - rewrite app_nil_r in Ue. contradiction.
Qed.

Lemma lock_announced_once_witness :
  CDirectSend.TryToFinalizeLockCandidate (P := Demo.params) Demo.env
    (ConflictExamples.candidate 21 [FinalizeExamples.a])
    (CDirectSend.TryToFinalizeLockCandidate (P := Demo.params) Demo.env
       (ConflictExamples.candidate 21 [FinalizeExamples.a]) FinalizeExamples.ready)
  = CDirectSend.TryToFinalizeLockCandidate (P := Demo.params) Demo.env
      (ConflictExamples.candidate 21 [FinalizeExamples.a]) FinalizeExamples.ready.
Proof.
  apply (@lock_announced_once Demo.params Demo.env
           (ConflictExamples.candidate 21 [FinalizeExamples.a]) FinalizeExamples.ready).
  vm_compute. discriminate.
Defined.

(** ** Lock candidates *)

Section Candidates.
Context {P : Params}.

Lemma fold_AddOutPointLock (outs : list CTxIn) : forall c o,
  let c' := fold_left (fun c txin => CTxLockCandidate.AddOutPointLock (prevout txin) c) outs c in
  CTxLockCandidate.txLockRequest c' = CTxLockCandidate.txLockRequest c
  /\ CTxLockCandidate.nConfirmedHeight c' = CTxLockCandidate.nConfirmedHeight c
  /\ CTxLockCandidate.nTimeCreated c' = CTxLockCandidate.nTimeCreated c
  /\ find o (CTxLockCandidate.mapOutPointLocks c')
     = match find o (CTxLockCandidate.mapOutPointLocks c) with
       | Some L => Some L
       | None =>
           if existsb (fun txin => keqb o (prevout txin)) outs
           then Some (COutPointLock.create o) else None
       end.
Proof.
  induction outs as [|txin outs IH]; intros c o; cbv zeta; simpl fold_left.
  - simpl. destruct (find o _); auto.
  - destruct (IH (CTxLockCandidate.AddOutPointLock (prevout txin) c) o) as [H1 [H2 [H3 H4]]].
    rewrite H1, H2, H3, H4. simpl. rewrite find_insert.
    repeat split.
    destruct (keqb o (prevout txin)) eqn:Eo; simpl.
    + apply keqb_eq in Eo. rewrite <- Eo.
      assert (COutPoint.eqb o o = true) as -> by (apply COutPoint.eqb_eq; reflexivity).
      destruct (find o (CTxLockCandidate.mapOutPointLocks c)); reflexivity.
    + change (COutPoint.eqb o (prevout txin)) with (keqb o (prevout txin)). rewrite Eo.
      destruct (find o (CTxLockCandidate.mapOutPointLocks c)); reflexivity.
Qed.

Lemma existsb_rev_eq {T} (p : T -> bool) (l : list T) : existsb p (rev l) = existsb p l.
Proof.
  destruct (existsb p l) eqn:Hl.
  - apply existsb_exists in Hl. destruct Hl as [x [Hx Hp]].
    apply existsb_exists. exists x. split; [apply in_rev in Hx; exact Hx | exact Hp].
  - destruct (existsb p (rev l)) eqn:Hr; [|reflexivity].
    apply existsb_exists in Hr. destruct Hr as [x [Hx Hp]].
    assert (existsb p l = true) as Hc
      by (apply existsb_exists; exists x; split; [apply in_rev; exact Hx | exact Hp]).
    congruence.
Qed.

(** Is [o] the outpoint spent by one of the inputs? *)
Definition spends (ins : list CTxIn) (o : COutPoint.t) : bool :=
  existsb (fun txin => keqb o (prevout txin)) ins.

Lemma add_inputs_spec ins c o :
  let c' := CDirectSend.add_inputs ins c in
  CTxLockCandidate.txLockRequest c' = CTxLockCandidate.txLockRequest c
  /\ CTxLockCandidate.nConfirmedHeight c' = CTxLockCandidate.nConfirmedHeight c
  /\ CTxLockCandidate.nTimeCreated c' = CTxLockCandidate.nTimeCreated c
  /\ find o (CTxLockCandidate.mapOutPointLocks c')
     = match find o (CTxLockCandidate.mapOutPointLocks c) with
       | Some L => Some L
       | None => if spends ins o then Some (COutPointLock.create o) else None
       end.
Proof.
  unfold CDirectSend.add_inputs, spends. rewrite <- (existsb_rev_eq _ ins).
  apply fold_AddOutPointLock.
Qed.
End Candidates.

(** X14. A valid lock request for a transaction that has no candidate yet
    makes [CreateTxLockCandidate] return true and store, under the hash of the
    request, a candidate that holds the request and, for each outpoint that an
    input spends and for no other, a lock without votes that is not attacked;
    the other candidates and the rest of the engine are as they were. *)
Theorem CreateTxLockCandidate_new {P : Params} (E : Env) (r : CTxLockRequest.t)
        (s : CDirectSend.t) :
  CTxLockRequest.IsValid E r = true ->
  find (CTxLockRequest.GetHash r) (CDirectSend.mapTxLockCandidates s) = None ->
  exists c,
    CDirectSend.CreateTxLockCandidate E r s
    = (CDirectSend.set_candidates (insert (CTxLockRequest.GetHash r) c) s, true)
    /\ find (CTxLockRequest.GetHash r)
            (insert (CTxLockRequest.GetHash r) c (CDirectSend.mapTxLockCandidates s)) = Some c
    /\ (forall k, k <> CTxLockRequest.GetHash r ->
                  find k (insert (CTxLockRequest.GetHash r) c (CDirectSend.mapTxLockCandidates s))
                  = find k (CDirectSend.mapTxLockCandidates s))
    /\ CTxLockCandidate.txLockRequest c = r
    /\ forall o, find o (CTxLockCandidate.mapOutPointLocks c)
                 = if spends (CTxLockRequest.vin r) o
                   then Some (COutPointLock.mk o [] false) else None.
Proof.
  intros Hv Hn. unfold CDirectSend.CreateTxLockCandidate. rewrite Hv, Hn. cbn [negb].
  eexists. split; [reflexivity|].
  split; [rewrite find_insert, keqb_refl, Hn; reflexivity|].
  split.
  { intros k Hk. rewrite find_insert.
    assert (keqb k (CTxLockRequest.GetHash r) = false) as -> by (apply keqb_neq; exact Hk).
    reflexivity. }
  split.
  - destruct (add_inputs_spec (CTxLockRequest.vin r)
                (CTxLockCandidate.create (GetTime E) r) (COutPoint.mk 0 0)) as [-> _].
    reflexivity.
  - intros o.
    destruct (add_inputs_spec (CTxLockRequest.vin r)
                (CTxLockCandidate.create (GetTime E) r) o) as [_ [_ [_ ->]]].
    reflexivity.
Qed.

Lemma CreateTxLockCandidate_new_witness :
  exists c,
    CDirectSend.CreateTxLockCandidate (P := Demo.params) Demo.env
      (Demo.request 21 [Demo.op 1 0; Demo.op 1 1]) CDirectSend.empty
    = (CDirectSend.set_candidates (fun _ => [(21, c)]) CDirectSend.empty, true)
    /\ keys (CTxLockCandidate.mapOutPointLocks c) = [Demo.op 1 0; Demo.op 1 1].
Proof.
  destruct (@CreateTxLockCandidate_new Demo.params Demo.env
              (Demo.request 21 [Demo.op 1 0; Demo.op 1 1]) CDirectSend.empty
              eq_refl eq_refl) as [c [Hc _]].
  exists c. split; [exact Hc|].
  vm_compute in Hc. injection Hc as <-. reflexivity.
Defined.

(** X15. A lock request that arrives when the empty candidate of its
    transaction has timed out is refused, yet it is written into the
    candidate first, and no outpoint lock is added.  The candidate then has a
    request: the same request, sent again, is answered true and changes
    nothing, so that the candidate is left without the locks of its inputs. *)
Theorem late_request_sticks {P : Params} (E : Env) (r : CTxLockRequest.t)
        (s : CDirectSend.t) (c : CTxLockCandidate.t) :
  let txHash := CTxLockRequest.GetHash r in
  CTxLockRequest.IsValid E r = true ->
  txHash <> hashNullTx ->
  find txHash (CDirectSend.mapTxLockCandidates s) = Some c ->
  CTxLockRequest.is_set (CTxLockCandidate.txLockRequest c) = false ->
  CTxLockCandidate.IsTimedOut E c = true ->
  exists s1,
    CDirectSend.CreateTxLockCandidate E r s = (s1, false)
    /\ find txHash (CDirectSend.mapTxLockCandidates s1)
       = Some (CTxLockCandidate.set_request r c)
    /\ CTxLockCandidate.mapOutPointLocks (CTxLockCandidate.set_request r c)
       = CTxLockCandidate.mapOutPointLocks c
    /\ CDirectSend.GetTxLockRequest s1 txHash = Some r
    /\ CDirectSend.CreateTxLockCandidate E r s1 = (s1, true).
Proof.
  intros txHash Hv Hnn Hc Hunset Hto.
  unfold CDirectSend.CreateTxLockCandidate at 1. fold txHash.
  rewrite Hv, Hc, Hunset, Hto. cbn [negb].
  eexists. split; [reflexivity|].
  assert (find txHash
            (CDirectSend.mapTxLockCandidates
               (CDirectSend.set_candidates
                  (update txHash (CTxLockCandidate.set_request r)) s))
          = Some (CTxLockCandidate.set_request r c)) as Hf.
  { simpl. rewrite find_update, keqb_refl, Hc. reflexivity. }
  split; [exact Hf|]. split; [reflexivity|].
  split; [unfold CDirectSend.GetTxLockRequest; rewrite Hf; reflexivity|].
  unfold CDirectSend.CreateTxLockCandidate. fold txHash. rewrite Hv, Hf. cbn [negb].
  assert (CTxLockRequest.is_set
            (CTxLockCandidate.txLockRequest (CTxLockCandidate.set_request r c)) = true) as ->.
  { simpl. unfold CTxLockRequest.is_set. apply negb_true_iff. apply Z.eqb_neq. exact Hnn. }
  reflexivity.
Qed.

Module LateExamples.
(** An orphan vote made the empty candidate of transaction 21 at time 900. *)
Definition waiting : CDirectSend.t :=
  CDirectSend.set_candidates
    (fun _ => [(21, CTxLockCandidate.create 900 (CTxLockRequest.null (P := Demo.params)))])
    CDirectSend.empty.
End LateExamples.

Lemma late_request_sticks_witness :
  exists s1,
    CDirectSend.CreateTxLockCandidate (P := Demo.params) Demo.env
      (Demo.request 21 [Demo.op 1 0; Demo.op 1 1]) LateExamples.waiting = (s1, false)
    /\ CDirectSend.CreateTxLockCandidate (P := Demo.params) Demo.env
         (Demo.request 21 [Demo.op 1 0; Demo.op 1 1]) s1 = (s1, true)
    /\ CDirectSend.GetTransactionLockSignatures Demo.env s1 21 = 0.
Proof.
  destruct (@late_request_sticks Demo.params Demo.env (Demo.request 21 [Demo.op 1 0; Demo.op 1 1])
              LateExamples.waiting
              (CTxLockCandidate.create 900 (CTxLockRequest.null (P := Demo.params)))
              eq_refl) as [s1 [H1 [_ [_ [_ H2]]]]].
  - discriminate.
  - reflexivity.
  - reflexivity.
  - reflexivity.
  - exists s1. split; [exact H1|]. split; [exact H2|].
    vm_compute in H1. injection H1 as <-. reflexivity.
Defined.

(** ** A vote for a transaction that is not known yet *)

Section OrphanVote.
Context {P : Params}.

(** The rate limiter touches nothing but its own map. *)
Lemma orphan_rate_limit_frame E vote s :
  exists s' b,
    CDirectSend.orphan_rate_limit E vote s = Some (s', b)
    /\ s' = CDirectSend.set_mnorphans (fun _ => CDirectSend.mapMasternodeOrphanVotes s') s.
Proof.
  unfold CDirectSend.orphan_rate_limit.
  assert (exists avg, CDirectSend.GetAverageMasternodeOrphanVoteTime s = Some avg) as [avg ->].
  { unfold CDirectSend.GetAverageMasternodeOrphanVoteTime.
    destruct (CDirectSend.mapMasternodeOrphanVotes s) as [|e m]; [eauto|].
    pose proof (size_cons_pos e m) as Hsz.
    destruct (size (e :: m) =? 0) eqn:Hd; [apply Z.eqb_eq in Hd; lia | eauto]. }
  destruct (find _ (CDirectSend.mapMasternodeOrphanVotes s)) as [prev|].
  - destruct (prev >? GetTime E).
    + destruct (prev >? avg); eexists; eexists; (split; [reflexivity|]);
        destruct s; reflexivity.
    + eexists; eexists; (split; [reflexivity|]); destruct s; reflexivity.
  - eexists; eexists; (split; [reflexivity|]); destruct s; reflexivity.
Qed.

Lemma IsValid_true E vote :
  fst (CTxLockVote.IsValid E vote) = true -> CTxLockVote.IsValid E vote = (true, []).
Proof.
  unfold CTxLockVote.IsValid.
  destruct (negb (mnodeman_Has E _)); [intros Hx; discriminate Hx|].
  destruct (GetUTXOCoins E _); [|intros Hx; discriminate Hx].
  destruct (GetMasternodeRank E _ _ _); [|intros Hx; discriminate Hx].
  destruct (_ >? SIGNATURES_TOTAL); [intros Hx; discriminate Hx|].
  destruct (negb (CTxLockVote.CheckSignature E vote)); [intros Hx; discriminate Hx|].
  reflexivity.
Qed.
End OrphanVote.

(** X16. A valid vote for a transaction that has neither a candidate nor a
    recorded lock request is relayed and kept as an orphan vote, and an empty
    candidate is made for its transaction.  From then on
    [HasTxLockRequest] answers true for the transaction although no request was
    received, [GetTxLockRequest] hands out the default request, and the
    transaction is not ready to lock. *)
Theorem orphan_vote_opens_candidate {P : Params} (fuel : nat) (E : Env)
        (vote : CTxLockVote.t) (s : CDirectSend.t) :
  let txHash := CTxLockVote.GetTxHash vote in
  fst (CTxLockVote.IsValid E vote) = true ->
  CDirectSend.HasTxLockRequest s txHash = false ->
  count (CTxLockVote.GetHash vote) (CDirectSend.mapTxLockVotesOrphan s) = false ->
  find txHash (CDirectSend.mapLockRequestAccepted s) = None ->
  find txHash (CDirectSend.mapLockRequestRejected s) = None ->
  exists s' b,
    CDirectSend.ProcessTxLockVote (S fuel) E vote s = Some (s', b)
    /\ CDirectSend.HasTxLockRequest s' txHash = true
    /\ CDirectSend.GetTxLockRequest s' txHash = Some CTxLockRequest.null
    /\ CDirectSend.IsDirectSendReadyToLock E s' txHash = false
    /\ find (CTxLockVote.GetHash vote) (CDirectSend.mapTxLockVotesOrphan s') = Some vote
    /\ CDirectSend.events s' = CDirectSend.events s ++ [EvRelayVote (CTxLockVote.GetHash vote)].
Proof.
  intros txHash Hvalid Hno Horph Hacc Hrej.
  assert (find txHash (CDirectSend.mapTxLockCandidates s) = None) as Hc.
  { unfold CDirectSend.HasTxLockRequest, CDirectSend.GetTxLockRequest in Hno.
    destruct (find txHash (CDirectSend.mapTxLockCandidates s)); [discriminate | reflexivity]. }
  cbn [CDirectSend.ProcessTxLockVote]. fold txHash.
  rewrite (IsValid_true E vote Hvalid). cbn [negb].
  set (s0 := CDirectSend.emit [EvRelayVote (CTxLockVote.GetHash vote)] s).
  change (CDirectSend.mapTxLockCandidates s0) with (CDirectSend.mapTxLockCandidates s).
  change (CDirectSend.mapTxLockVotesOrphan s0) with (CDirectSend.mapTxLockVotesOrphan s).
  rewrite Hc, Horph. cbn [negb].
  set (s1 := CDirectSend.CreateEmptyTxLockCandidate E txHash s0).
  set (s2 := CDirectSend.set_orphans (set (CTxLockVote.GetHash vote) vote) s1).
  assert (CDirectSend.mapTxLockCandidates s2
          = insert txHash (CTxLockCandidate.create (GetTime E) CTxLockRequest.null)
                   (CDirectSend.mapTxLockCandidates s)) as Hc2.
  { unfold s2, s1, CDirectSend.CreateEmptyTxLockCandidate.
    change (CDirectSend.mapTxLockCandidates s0) with (CDirectSend.mapTxLockCandidates s).
    rewrite Hc. reflexivity. }
  assert (CDirectSend.mapLockRequestAccepted s2 = CDirectSend.mapLockRequestAccepted s
          /\ CDirectSend.mapLockRequestRejected s2 = CDirectSend.mapLockRequestRejected s
          /\ CDirectSend.events s2 = CDirectSend.events s0) as [Ha2 [Hr2 He2]].
  { unfold s2, s1, CDirectSend.CreateEmptyTxLockCandidate.
    destruct (find txHash (CDirectSend.mapTxLockCandidates s0)); auto. }
  rewrite Ha2, Hr2, Hacc, Hrej.
  destruct (orphan_rate_limit_frame E vote s2) as [s' [b [Hrl Hfr]]].
  exists s', b. split; [exact Hrl|].
  assert (CDirectSend.mapTxLockCandidates s' = CDirectSend.mapTxLockCandidates s2
          /\ CDirectSend.mapTxLockVotesOrphan s' = CDirectSend.mapTxLockVotesOrphan s2
          /\ CDirectSend.events s' = CDirectSend.events s2) as [Hcs [Hos Hes]]
    by (rewrite Hfr; auto).
  assert (find txHash (CDirectSend.mapTxLockCandidates s')
          = Some (CTxLockCandidate.create (GetTime E) CTxLockRequest.null)) as Hf.
  { rewrite Hcs, Hc2. rewrite find_insert, keqb_refl, Hc. reflexivity. }
  unfold CDirectSend.HasTxLockRequest, CDirectSend.GetTxLockRequest,
    CDirectSend.IsDirectSendReadyToLock. rewrite Hf.
  split; [reflexivity|]. split; [reflexivity|].
  split; [destruct (_ || _); reflexivity|].
  split.
  - rewrite Hos. unfold s2. simpl. rewrite find_set, keqb_refl. reflexivity.
  - rewrite Hes, He2. reflexivity.
Qed.

Lemma orphan_vote_opens_candidate_witness :
  exists s' b,
    CDirectSend.ProcessTxLockVote (P := Demo.params) 1 Demo.env
      (Demo.mkvote 31 (Demo.op 1 0) (Demo.op 7 1) 1000) CDirectSend.empty = Some (s', b)
    /\ CDirectSend.HasTxLockRequest s' 31 = true
    /\ CDirectSend.GetTxLockRequest s' 31 = Some (CTxLockRequest.null (P := Demo.params)).
Proof.
  destruct (@orphan_vote_opens_candidate Demo.params 0 Demo.env
              (Demo.mkvote 31 (Demo.op 1 0) (Demo.op 7 1) 1000) CDirectSend.empty
              eq_refl eq_refl eq_refl eq_refl eq_refl) as [s' [b [H1 [H2 [H3 _]]]]].
  exists s', b. auto.
Defined.

(** ** Chain notifications *)

Section Notified.
Context {P : Params}.

Lemma fold_left_keeps {A B T} (proj : A -> T) (g : A -> B -> A) (l : list B) :
  (forall a b, proj (g a b) = proj a) -> forall a, proj (fold_left g l a) = proj a.
Proof.
  intros Hg. induction l as [|b l IH]; intros a; simpl; [reflexivity|].
  rewrite IH. apply Hg.
Qed.

Lemma fold_left_grows {A B} (ok : A -> Prop) (g : A -> B -> A) (l : list B) :
  (forall a b, ok a -> ok (g a b)) -> forall a, ok a -> ok (fold_left g l a).
Proof.
  intros Hg. induction l as [|b l IH]; intros a Ha; simpl; [exact Ha|].
  apply IH. apply Hg. exact Ha.
Qed.

(** [s'] differs from [s] in candidates and stored votes at most. *)
Definition heights_only (s s' : CDirectSend.t) : Prop :=
  CDirectSend.mapLockRequestAccepted s' = CDirectSend.mapLockRequestAccepted s
  /\ CDirectSend.mapLockRequestRejected s' = CDirectSend.mapLockRequestRejected s
  /\ CDirectSend.mapTxLockVotesOrphan s' = CDirectSend.mapTxLockVotesOrphan s
  /\ CDirectSend.mapVotedOutpoints s' = CDirectSend.mapVotedOutpoints s
  /\ CDirectSend.mapLockedOutpoints s' = CDirectSend.mapLockedOutpoints s
  /\ CDirectSend.mapMasternodeOrphanVotes s' = CDirectSend.mapMasternodeOrphanVotes s
  /\ CDirectSend.nCachedBlockHeight s' = CDirectSend.nCachedBlockHeight s
  /\ CDirectSend.nCompleteTXLocks s' = CDirectSend.nCompleteTXLocks s
  /\ CDirectSend.events s' = CDirectSend.events s.

Lemma heights_only_refl s : heights_only s s.
Proof. unfold heights_only. repeat split. Qed.

Lemma heights_only_trans s1 s2 s3 :
  heights_only s1 s2 -> heights_only s2 s3 -> heights_only s1 s3.
Proof.
  unfold heights_only.
  intros [A1 [A2 [A3 [A4 [A5 [A6 [A7 [A8 A9]]]]]]]] [B1 [B2 [B3 [B4 [B5 [B6 [B7 [B8 B9]]]]]]]].
  repeat split; congruence.
Qed.

Lemma heights_only_fold {B} (g : CDirectSend.t -> B -> CDirectSend.t) (l : list B) :
  (forall a b, heights_only a (g a b)) -> forall a, heights_only a (fold_left g l a).
Proof.
  intros Hg. induction l as [|b l IH]; intros a; simpl; [apply heights_only_refl|].
  eapply heights_only_trans; [apply Hg | apply IH].
Qed.
End Notified.

(** X17. [SyncTransaction] changes the candidate of the synced transaction
    and the stored votes, and nothing else: the recorded requests, the orphan
    votes, the voted and the locked outpoints, the rate limiter, the cached
    height, the counter and the trace are as they were; the candidates are
    the same transactions, and only the one of the synced transaction may
    differ; no stored vote is dropped.  For a coinbase transaction and for a
    block that is not in the block index the engine is left as it is. *)
Theorem SyncTransaction_frame {P : Params} (E : Env) (txHash : uint256) (IsCoinBase : bool)
        (pblock : option uint256) (s : CDirectSend.t) :
  let s' := CDirectSend.SyncTransaction E txHash IsCoinBase pblock s in
  heights_only s s'
  /\ keys (CDirectSend.mapTxLockCandidates s') = keys (CDirectSend.mapTxLockCandidates s)
  /\ (forall k, k <> txHash ->
                find k (CDirectSend.mapTxLockCandidates s')
                = find k (CDirectSend.mapTxLockCandidates s))
  /\ (forall k, count k (CDirectSend.mapTxLockVotes s) = true ->
                count k (CDirectSend.mapTxLockVotes s') = true)
  /\ (IsCoinBase = true -> s' = s)
  /\ (forall blockHash, pblock = Some blockHash -> mapBlockIndex E blockHash = None -> s' = s).
Proof.
  intros s'. unfold s', CDirectSend.SyncTransaction.
  destruct IsCoinBase.
  { repeat split; auto using heights_only_refl. }
  destruct (match pblock with
            | Some blockHash => mapBlockIndex E blockHash
            | None => Some (-1)
            end) as [h|] eqn:Hh.
  2: { repeat split; auto using heights_only_refl. }
  set (s1 := match find txHash (CDirectSend.mapTxLockCandidates s) with
             | Some _ => _
             | None => s
             end).
  assert (heights_only s s1
          /\ keys (CDirectSend.mapTxLockCandidates s1) = keys (CDirectSend.mapTxLockCandidates s)
          /\ (forall k, k <> txHash ->
                        find k (CDirectSend.mapTxLockCandidates s1)
                        = find k (CDirectSend.mapTxLockCandidates s))
          /\ (forall k, count k (CDirectSend.mapTxLockVotes s) = true ->
                        count k (CDirectSend.mapTxLockVotes s1) = true)) as [F1 [K1 [O1 V1]]].
  { unfold s1. destruct (find txHash (CDirectSend.mapTxLockCandidates s)) as [c0|];
      [|repeat split; auto using heights_only_refl].
    set (sc := CDirectSend.set_candidates _ s).
    assert (keys (CDirectSend.mapTxLockCandidates sc) = keys (CDirectSend.mapTxLockCandidates s)
            /\ forall k, k <> txHash ->
                         find k (CDirectSend.mapTxLockCandidates sc)
                         = find k (CDirectSend.mapTxLockCandidates s)) as [Kc Oc].
    { unfold sc. simpl. split; [apply keys_update|].
      intros k Hk. rewrite find_update.
      assert (keqb k txHash = false) as -> by (apply keqb_neq; exact Hk). reflexivity. }
    destruct (find txHash (CDirectSend.mapTxLockCandidates sc)) as [c'|].
    2: { split; [unfold heights_only, sc; simpl; repeat split|]. auto. }
    split; [|split; [|split]].
    - eapply heights_only_trans; [|apply heights_only_fold].
      + unfold heights_only, sc. simpl. repeat split.
      + intros a b. unfold heights_only. simpl. repeat split.
    - rewrite (fold_left_keeps CDirectSend.mapTxLockCandidates); [exact Kc|].
      intros a b. reflexivity.
    - intros k Hk. rewrite (fold_left_keeps CDirectSend.mapTxLockCandidates); [apply Oc; exact Hk|].
      intros a b. reflexivity.
    - intros k Hk.
      apply (fold_left_grows (fun st => count k (CDirectSend.mapTxLockVotes st) = true)).
      + intros a b Ha. simpl. rewrite count_update. exact Ha.
      + exact Hk. }
  split; [|split; [|split; [|split; [|split]]]].
  - eapply heights_only_trans; [exact F1|]. apply heights_only_fold.
    intros a b. destruct (_ =? txHash); [|apply heights_only_refl].
    unfold heights_only. simpl. repeat split.
  - rewrite (fold_left_keeps CDirectSend.mapTxLockCandidates); [exact K1|].
    intros a b. destruct (_ =? txHash); reflexivity.
  - intros k Hk. rewrite (fold_left_keeps CDirectSend.mapTxLockCandidates); [apply O1; exact Hk|].
    intros a b. destruct (_ =? txHash); reflexivity.
  - intros k Hk.
    apply (fold_left_grows (fun st => count k (CDirectSend.mapTxLockVotes st) = true)).
    + intros a b Ha. destruct (_ =? txHash); [|exact Ha].
      simpl. rewrite count_update, count_insert, Ha. apply orb_true_r.
    + apply V1. exact Hk.
  - discriminate.
  - intros blockHash -> Hb. rewrite Hb in Hh. discriminate.
Qed.

(** ** The rate limiter on orphan votes *)

Section RateLimit.
Context {P : Params}.

Lemma sum_deadlines_ge (prev : Z) (m : StdMap.t COutPoint.t Z) :
  Forall (fun e => prev <= snd e) m -> size m * prev <= sum_deadlines m.
Proof.
  unfold size. induction 1 as [|e m He _ IH]; simpl sum_deadlines; [simpl; lia|].
  change (List.length (e :: m)) with (S (List.length m)). lia.
Qed.

Lemma average_exact s :
  CDirectSend.mapMasternodeOrphanVotes s <> [] ->
  Forall (fun e => 0 <= snd e) (CDirectSend.mapMasternodeOrphanVotes s) ->
  sum_deadlines (CDirectSend.mapMasternodeOrphanVotes s) < 2 ^ 63 ->
  CDirectSend.GetAverageMasternodeOrphanVoteTime s
  = Some (sum_deadlines (CDirectSend.mapMasternodeOrphanVotes s)
          / size (CDirectSend.mapMasternodeOrphanVotes s)).
Proof.
  unfold CDirectSend.GetAverageMasternodeOrphanVoteTime.
  destruct (CDirectSend.mapMasternodeOrphanVotes s) as [|e m]; [intros N; contradiction|].
  intros _ Hall Hsum.
  pose proof (size_cons_pos e m) as Hsz.
  destruct (size (e :: m) =? 0) eqn:Hd; [apply Z.eqb_eq in Hd; lia|].
  pose proof (sum_deadlines_nonneg Hall) as Hs.
  rewrite (fold_total_exact (m := e :: m)) by (assumption || lia).
  rewrite Z.add_0_l. rewrite to_uint64_small by lia.
  f_equal. apply to_int64_small.
  assert (0 <= sum_deadlines (e :: m) / size (e :: m) <= sum_deadlines (e :: m)).
  { split; [apply Z.div_pos; lia|].
    apply Z.div_le_upper_bound; [lia|]. nia. }
  lia.
Qed.
Lemma orphan_rate_limit_earliest (E : Env) (vote : CTxLockVote.t)
        (s : CDirectSend.t) (prev : Z) :
  let mn := CTxLockVote.GetMasternodeOutpoint vote in
  find mn (CDirectSend.mapMasternodeOrphanVotes s) = Some prev ->
  Forall (fun e => 0 <= snd e) (CDirectSend.mapMasternodeOrphanVotes s) ->
  sum_deadlines (CDirectSend.mapMasternodeOrphanVotes s) < 2 ^ 63 ->
  Forall (fun e => prev <= snd e) (CDirectSend.mapMasternodeOrphanVotes s) ->
  CDirectSend.orphan_rate_limit E vote s
  = Some (CDirectSend.set_mnorphans (set mn (to_int32 (GetTime E + 60 * 10))) s, true).
Proof.
  intros mn Hf Hpos Hsum Hmin.
  assert (CDirectSend.mapMasternodeOrphanVotes s <> []) as Hne.
  { intros Hnil. rewrite Hnil in Hf. discriminate Hf. }
  unfold CDirectSend.orphan_rate_limit. fold mn. rewrite Hf.
  rewrite (average_exact s Hne Hpos Hsum).
  assert ((prev >? sum_deadlines (CDirectSend.mapMasternodeOrphanVotes s)
                   / size (CDirectSend.mapMasternodeOrphanVotes s)) = false) as Havg.
  { pose proof (sum_deadlines_ge Hmin) as Hge.
    assert (0 < size (CDirectSend.mapMasternodeOrphanVotes s)) as Hsz.
    { destruct (CDirectSend.mapMasternodeOrphanVotes s) as [|e m]; [contradiction|].
      pose proof (size_cons_pos e m). lia. }
    match goal with |- (?a >? ?b) = false => destruct (Z.gtb_spec a b) as [Hgt|]; [|reflexivity] end.
    exfalso.
    assert (prev <= sum_deadlines (CDirectSend.mapMasternodeOrphanVotes s)
                    / size (CDirectSend.mapMasternodeOrphanVotes s))
      by (apply Z.div_le_lower_bound; lia).
    lia. }
  rewrite Havg. destruct (prev >? GetTime E); reflexivity.
Qed.
End RateLimit.

(** X18. The rate limiter on orphan votes never refuses the masternode
    whose recorded deadline is the earliest: where the recorded deadlines are
    timestamps whose sum fits [int64_t] and none is earlier than that of the
    signer, the vote passes and the deadline of the signer is set anew, to ten
    minutes from now as an [int]. *)
Theorem rate_limit_admits_earliest (E : Env) (vote : CTxLockVote.t)
        (s : CDirectSend.t) (prev : Z) :
  let mn := CTxLockVote.GetMasternodeOutpoint vote in
  find mn (CDirectSend.mapMasternodeOrphanVotes s) = Some prev ->
  Forall (fun e => 0 <= snd e) (CDirectSend.mapMasternodeOrphanVotes s) ->
  sum_deadlines (CDirectSend.mapMasternodeOrphanVotes s) < 2 ^ 63 ->
  Forall (fun e => prev <= snd e) (CDirectSend.mapMasternodeOrphanVotes s) ->
  exists s',
    CDirectSend.orphan_rate_limit E vote s = Some (s', true)
    /\ find mn (CDirectSend.mapMasternodeOrphanVotes s') = Some (to_int32 (GetTime E + 60 * 10))
    /\ forall mn', mn' <> mn ->
         find mn' (CDirectSend.mapMasternodeOrphanVotes s')
         = find mn' (CDirectSend.mapMasternodeOrphanVotes s).
Proof.
  intros mn Hf Hpos Hsum Hmin.
  exists (CDirectSend.set_mnorphans (set mn (to_int32 (GetTime E + 60 * 10))) s).
  split; [apply orphan_rate_limit_earliest with (prev := prev); assumption|].
  simpl. split; [rewrite find_set, keqb_refl; reflexivity|].
  intros mn' Hne'. rewrite find_set.
  assert (keqb mn' mn = false) as -> by (apply keqb_neq; exact Hne'). reflexivity.
Qed.

Lemma rate_limit_admits_earliest_witness :
  exists s',
    CDirectSend.orphan_rate_limit Demo.env
      (Demo.mkvote 31 (Demo.op 1 0) (Demo.op 7 1) 1000)
      (CDirectSend.set_mnorphans
         (fun _ => [(Demo.op 7 1, 1600); (Demo.op 7 2, 1603); (Demo.op 7 3, 1700)])
         CDirectSend.empty)
    = Some (s', true).
Proof.
  destruct (@rate_limit_admits_earliest Demo.env
              (Demo.mkvote 31 (Demo.op 1 0) (Demo.op 7 1) 1000)
              (CDirectSend.set_mnorphans
                 (fun _ => [(Demo.op 7 1, 1600); (Demo.op 7 2, 1603); (Demo.op 7 3, 1700)])
                 CDirectSend.empty) 1600 eq_refl) as [s' [H _]].
  - simpl. repeat constructor; simpl; lia.
  - simpl. lia.
  - simpl. repeat constructor; simpl; lia.
  - exists s'. exact H.
Defined.

(** ** Counting the votes of a candidate *)

Section CountingVotes.

Definition sum_votes (locks : StdMap.t COutPoint.t COutPointLock.t) : Z :=
  fold_right (fun e acc => COutPointLock.CountVotes (snd e) + acc) 0 locks.

Lemma fold_CountVotes_sum (locks : StdMap.t COutPoint.t COutPointLock.t) : forall a,
  fold_left (fun acc e => acc + COutPointLock.CountVotes (snd e)) locks a = a + sum_votes locks.
Proof.
  induction locks as [|e locks IH]; intros a; simpl; [lia|]. rewrite IH. lia.
Qed.

Lemma CountVotes_sum c :
  CTxLockCandidate.CountVotes c = sum_votes (CTxLockCandidate.mapOutPointLocks c).
Proof. unfold CTxLockCandidate.CountVotes. rewrite fold_CountVotes_sum. lia. Qed.

Lemma size_put {K V} `{OrdKey K} (k : K) (v : V) (m : StdMap.t K V) :
  size (put k v m) = size m + 1.
Proof.
  unfold size. induction m as [|[k0 v0] m IH]; simpl put; [reflexivity|].
  destruct (kltb k k0).
  - change (List.length ((k, v) :: (k0, v0) :: m)) with (S (List.length ((k0, v0) :: m))). lia.
  - change (List.length ((k0, v0) :: put k v m)) with (S (List.length (put k v m))).
    change (List.length ((k0, v0) :: m)) with (S (List.length m)). lia.
Qed.

Lemma update_absent {K V} `{OrdKey K} (k : K) (f : V -> V) (m : StdMap.t K V) :
  find k m = None -> update k f m = m.
Proof.
  induction m as [|[k0 v0] m IH]; simpl; [reflexivity|].
  destruct (keqb k k0); [discriminate|]. intros Hf. rewrite (IH Hf). reflexivity.
Qed.

Lemma update_found {K V} `{OrdKey K} (k : K) (f : V -> V) (m : StdMap.t K V) (v : V) :
  NoDup (keys m) -> find k m = Some v -> f v = v -> update k f m = m.
Proof.
  unfold keys. induction m as [|[k0 v0] m IH]; simpl; [reflexivity|].
  intros Hnd Hf Hv. inversion Hnd as [|? ? Hn Hnd']; subst.
  destruct (keqb k k0) eqn:Ek.
  - injection Hf as ->. apply keqb_eq in Ek. subst k0. rewrite Hv.
    rewrite update_absent; [reflexivity|]. apply find_None_keys. exact Hn.
  - rewrite (IH Hnd' Hf Hv). reflexivity.
Qed.

Lemma sum_votes_update o L L' (locks : StdMap.t COutPoint.t COutPointLock.t) :
  NoDup (keys locks) ->
  find o locks = Some L ->
  sum_votes (update o (fun _ => L') locks)
  = sum_votes locks - COutPointLock.CountVotes L + COutPointLock.CountVotes L'.
Proof.
  unfold keys. induction locks as [|[k0 v0] locks IH]; simpl; [discriminate|].
  intros Hnd Hf. inversion Hnd as [|? ? Hn Hnd']; subst.
  destruct (COutPoint.eqb o k0) eqn:Ek.
  - injection Hf as ->. apply COutPoint.eqb_eq in Ek. subst k0. simpl.
    rewrite update_absent; [lia|]. apply find_None_keys. exact Hn.
  - simpl. rewrite (IH Hnd' Hf). lia.
Qed.

Lemma set_locks_same c : CTxLockCandidate.set_locks c (CTxLockCandidate.mapOutPointLocks c) = c.
Proof. destruct c. reflexivity. Qed.
Lemma candidate_AddVote_parts (vote : CTxLockVote.t) (c : CTxLockCandidate.t) :
  NoDup (keys (CTxLockCandidate.mapOutPointLocks c)) ->
  let o := CTxLockVote.GetOutpoint vote in
  let mn := CTxLockVote.GetMasternodeOutpoint vote in
  let c' := fst (CTxLockCandidate.AddVote vote c) in
  if snd (CTxLockCandidate.AddVote vote c) then
    CTxLockCandidate.CountVotes c' = CTxLockCandidate.CountVotes c + 1
    /\ CTxLockCandidate.HasMasternodeVoted o mn c = false
    /\ CTxLockCandidate.HasMasternodeVoted o mn c' = true
    /\ keys (CTxLockCandidate.mapOutPointLocks c') = keys (CTxLockCandidate.mapOutPointLocks c)
  else
    c' = c
    /\ (count o (CTxLockCandidate.mapOutPointLocks c) = false
        \/ CTxLockCandidate.HasMasternodeVoted o mn c = true).
Proof.
  intros Hnd o mn. unfold CTxLockCandidate.AddVote. fold o.
  destruct (find o (CTxLockCandidate.mapOutPointLocks c)) as [L|] eqn:HL.
  2: { simpl. split; [reflexivity|]. left. apply count_false. exact HL. }
  unfold COutPointLock.AddVote. fold mn.
  destruct (count mn (COutPointLock.mapMasternodeVotes L)) eqn:Hc; simpl.
  - split.
    + rewrite update_found with (v := L);
        [apply set_locks_same | exact Hnd | exact HL | reflexivity].
    + right. unfold CTxLockCandidate.HasMasternodeVoted. rewrite HL. exact Hc.
  - split; [|split; [|split]].
    + rewrite !CountVotes_sum. simpl.
      rewrite sum_votes_update with (L := L); [|exact Hnd | exact HL].
      unfold COutPointLock.CountVotes. simpl.
      unfold insert. rewrite Hc. rewrite size_put. lia.
    + unfold CTxLockCandidate.HasMasternodeVoted. rewrite HL. exact Hc.
    + unfold CTxLockCandidate.HasMasternodeVoted. simpl.
      rewrite find_update, keqb_refl, HL. simpl.
      unfold COutPointLock.HasMasternodeVoted. simpl.
      rewrite count_insert, keqb_refl. reflexivity.
    + apply keys_update.
Qed.
End CountingVotes.

(** X19. [CTxLockCandidate::AddVote] counts a vote once.  When it answers
    true, the signer had no vote on the outpoint of the vote and has one now,
    and [CountVotes] is one more than before.  When it answers false, the
    candidate is as it was, and either it has no lock on the outpoint of the
    vote or the signer has a vote there already. *)
Theorem candidate_AddVote_counts (vote : CTxLockVote.t) (c : CTxLockCandidate.t) :
  NoDup (keys (CTxLockCandidate.mapOutPointLocks c)) ->
  let o := CTxLockVote.GetOutpoint vote in
  let mn := CTxLockVote.GetMasternodeOutpoint vote in
  let c' := fst (CTxLockCandidate.AddVote vote c) in
  if snd (CTxLockCandidate.AddVote vote c) then
    CTxLockCandidate.CountVotes c' = CTxLockCandidate.CountVotes c + 1
    /\ CTxLockCandidate.HasMasternodeVoted o mn c = false
    /\ CTxLockCandidate.HasMasternodeVoted o mn c' = true
    /\ keys (CTxLockCandidate.mapOutPointLocks c') = keys (CTxLockCandidate.mapOutPointLocks c)
  else
    c' = c
    /\ (count o (CTxLockCandidate.mapOutPointLocks c) = false
        \/ CTxLockCandidate.HasMasternodeVoted o mn c = true).
Proof.
  intros Hnd. apply candidate_AddVote_parts. exact Hnd.
Qed.

Lemma candidate_AddVote_counts_witness :
  CTxLockCandidate.CountVotes
    (fst (CTxLockCandidate.AddVote (Demo.mkvote 21 (Demo.op 1 0) (Demo.op 7 9) 1000)
            (ConflictExamples.candidate 21 [Demo.op 1 0; Demo.op 1 1])))
  = 13.
Proof.
  assert (NoDup (keys (CTxLockCandidate.mapOutPointLocks
                         (ConflictExamples.candidate 21 [Demo.op 1 0; Demo.op 1 1])))) as Hnd.
  { simpl. repeat constructor; simpl; intuition discriminate. }
  pose proof (@candidate_AddVote_counts (Demo.mkvote 21 (Demo.op 1 0) (Demo.op 7 9) 1000)
                (ConflictExamples.candidate 21 [Demo.op 1 0; Demo.op 1 1]) Hnd) as H.
  cbv zeta in H.
  assert (snd (CTxLockCandidate.AddVote (Demo.mkvote 21 (Demo.op 1 0) (Demo.op 7 9) 1000)
                 (ConflictExamples.candidate 21 [Demo.op 1 0; Demo.op 1 1])) = true) as Hok
    by (vm_compute; reflexivity).
  rewrite Hok in H. destruct H as [H _]. rewrite H. vm_compute. reflexivity.
Defined.

(** ** A first lock request on an ordinary node *)

Section FirstRequest.
Context {P : Params}.

Lemma fold_AddOutPointLock_fresh (outs : list CTxIn) : forall c,
  Forall (fun e => snd e = COutPointLock.create (fst e)) (CTxLockCandidate.mapOutPointLocks c) ->
  Forall (fun e => snd e = COutPointLock.create (fst e))
         (CTxLockCandidate.mapOutPointLocks
            (fold_left (fun c txin => CTxLockCandidate.AddOutPointLock (prevout txin) c) outs c)).
Proof.
  induction outs as [|txin outs IH]; intros c Hc; simpl fold_left; [exact Hc|].
  apply IH. simpl. apply Forall_forall. intros e He.
  apply In_insert in He. destruct He as [->|He]; [reflexivity|].
  apply (proj1 (Forall_forall _ _) Hc e He).
Qed.

Lemma new_candidate_not_ready now r :
  0 < SIGNATURES_REQUIRED ->
  CTxLockCandidate.IsAllOutPointsReady
    (CDirectSend.add_inputs (CTxLockRequest.vin r) (CTxLockCandidate.create now r)) = false
  /\ CTxLockCandidate.CountVotes
       (CDirectSend.add_inputs (CTxLockRequest.vin r) (CTxLockCandidate.create now r)) = 0.
Proof.
  intros Hreq. unfold CDirectSend.add_inputs.
  pose proof (fold_AddOutPointLock_fresh (rev (CTxLockRequest.vin r))
                (CTxLockCandidate.create now r) (Forall_nil _)) as Hall.
  set (c := fold_left _ _ _) in *.
  rewrite CountVotes_sum. unfold CTxLockCandidate.IsAllOutPointsReady.
  destruct (CTxLockCandidate.mapOutPointLocks c) as [|e locks]; [auto|].
  split.
  - inversion Hall as [|? ? He _]; subst. simpl. rewrite He.
    unfold COutPointLock.IsReady, COutPointLock.CountVotes. simpl.
    match goal with
    | |- context [?a >=? ?b] => destruct (Z.geb_spec a b) as [Hge|Hlt]
    end; [unfold size in Hge; simpl in Hge; lia | reflexivity].
  - clear -Hall. induction Hall as [|e' l He _ IH]; simpl; [reflexivity|].
    rewrite He, IH. reflexivity.
Qed.
End FirstRequest.

(** X20. On a node that is not a masternode and holds no orphan votes, a
    valid lock request for a transaction without candidate makes
    [ProcessTxLockRequest] answer true and record the candidate, whatever the
    recursion budget: the candidate holds the request and no vote, the
    transaction is not ready to lock, and nothing else in the engine changes;
    in particular nothing is relayed and nothing is locked. *)
Theorem first_request_records_candidate {P : Params} (fuel : nat) (E : Env)
        (r : CTxLockRequest.t) (s : CDirectSend.t) :
  fMasterNode E = false ->
  0 < SIGNATURES_REQUIRED ->
  CTxLockRequest.IsValid E r = true ->
  find (CTxLockRequest.GetHash r) (CDirectSend.mapTxLockCandidates s) = None ->
  CDirectSend.mapTxLockVotesOrphan s = [] ->
  exists c,
    CDirectSend.ProcessTxLockRequest fuel E r s
    = Some (CDirectSend.set_candidates (insert (CTxLockRequest.GetHash r) c) s, true)
    /\ CDirectSend.GetTxLockRequest
         (CDirectSend.set_candidates (insert (CTxLockRequest.GetHash r) c) s)
         (CTxLockRequest.GetHash r) = Some r
    /\ CTxLockCandidate.CountVotes c = 0
    /\ CDirectSend.IsDirectSendReadyToLock E
         (CDirectSend.set_candidates (insert (CTxLockRequest.GetHash r) c) s)
         (CTxLockRequest.GetHash r) = false.
Proof.
  intros Hmn Hreq Hv Hn Ho.
  destruct (new_candidate_not_ready (GetTime E) r Hreq) as [Hnr Hcount].
  set (c := CDirectSend.add_inputs (CTxLockRequest.vin r)
              (CTxLockCandidate.create (GetTime E) r)) in *.
  exists c.
  assert (find (CTxLockRequest.GetHash r)
            (insert (CTxLockRequest.GetHash r) c (CDirectSend.mapTxLockCandidates s)) = Some c)
    as Hf by (rewrite find_insert, keqb_refl, Hn; reflexivity).
  assert (CTxLockCandidate.txLockRequest c = r) as Hr.
  { unfold c.
    destruct (add_inputs_spec (CTxLockRequest.vin r)
                (CTxLockCandidate.create (GetTime E) r) (COutPoint.mk 0 0)) as [-> _].
    reflexivity. }
  split; [|split; [|split; [exact Hcount|]]].
  - unfold CDirectSend.ProcessTxLockRequest, CDirectSend.ProcessTxLockRequest_with,
      CDirectSend.CreateTxLockCandidate.
    rewrite Hv, Hn. cbn [negb]. fold c.
    unfold CDirectSend.Vote. rewrite Hmn. cbn [negb].
    unfold CDirectSend.ProcessOrphanTxLockVotes_with.
    change (CDirectSend.mapTxLockVotesOrphan
              (CDirectSend.set_candidates (insert (CTxLockRequest.GetHash r) c) s))
      with (CDirectSend.mapTxLockVotesOrphan s).
    rewrite Ho. cbn [keys map CDirectSend.process_orphans].
    change (CDirectSend.mapTxLockCandidates
              (CDirectSend.set_candidates (insert (CTxLockRequest.GetHash r) c) s))
      with (insert (CTxLockRequest.GetHash r) c (CDirectSend.mapTxLockCandidates s)).
    rewrite Hf. unfold CDirectSend.TryToFinalizeLockCandidate.
    rewrite Hnr. destruct (negb (SPORK_2_DIRECTSEND_ENABLED E)); reflexivity.
  - unfold CDirectSend.GetTxLockRequest. simpl CDirectSend.mapTxLockCandidates.
    rewrite Hf, Hr. reflexivity.
  - unfold CDirectSend.IsDirectSendReadyToLock. simpl CDirectSend.mapTxLockCandidates.
    rewrite Hf, Hnr. destruct (_ || _); reflexivity.
Qed.

Lemma first_request_records_candidate_witness :
  exists c,
    CDirectSend.ProcessTxLockRequest (P := Demo.params) 0 Demo.env
      (Demo.request 21 [Demo.op 1 0; Demo.op 1 1]) CDirectSend.empty
    = Some (CDirectSend.set_candidates (fun _ => [(21, c)]) CDirectSend.empty, true)
    /\ CTxLockCandidate.CountVotes c = 0.
Proof.
  destruct (@first_request_records_candidate Demo.params 0 Demo.env
              (Demo.request 21 [Demo.op 1 0; Demo.op 1 1]) CDirectSend.empty
              eq_refl eq_refl eq_refl eq_refl eq_refl) as [c [H1 [_ [H2 _]]]].
  exists c. split; [exact H1 | exact H2].
Defined.

(** ** The votes of this node *)

Section OwnVotes.
Context {P : Params}.

(** What [Vote] leaves alone, and what it only adds to. *)
Definition vote_frame (s s' : CDirectSend.t) : Prop :=
  CDirectSend.mapLockRequestAccepted s' = CDirectSend.mapLockRequestAccepted s
  /\ CDirectSend.mapLockRequestRejected s' = CDirectSend.mapLockRequestRejected s
  /\ CDirectSend.mapTxLockVotesOrphan s' = CDirectSend.mapTxLockVotesOrphan s
  /\ CDirectSend.mapLockedOutpoints s' = CDirectSend.mapLockedOutpoints s
  /\ CDirectSend.mapMasternodeOrphanVotes s' = CDirectSend.mapMasternodeOrphanVotes s
  /\ CDirectSend.nCachedBlockHeight s' = CDirectSend.nCachedBlockHeight s
  /\ CDirectSend.nCompleteTXLocks s' = CDirectSend.nCompleteTXLocks s
  /\ keys (CDirectSend.mapTxLockCandidates s') = keys (CDirectSend.mapTxLockCandidates s)
  /\ forall h, count h (CDirectSend.mapTxLockVotes s) = true ->
               count h (CDirectSend.mapTxLockVotes s') = true.

Lemma vote_frame_refl s : vote_frame s s.
Proof. unfold vote_frame. repeat split; auto. Qed.

Lemma vote_frame_trans s1 s2 s3 : vote_frame s1 s2 -> vote_frame s2 s3 -> vote_frame s1 s3.
Proof.
  unfold vote_frame.
  intros [A1 [A2 [A3 [A4 [A5 [A6 [A7 [A8 A9]]]]]]]] [B1 [B2 [B3 [B4 [B5 [B6 [B7 [B8 B9]]]]]]]].
  repeat split; try congruence. auto.
Qed.

Lemma Sign_hash E v v' :
  CTxLockVote.Sign E v = Some v' -> CTxLockVote.GetHash v' = CTxLockVote.GetHash v.
Proof.
  unfold CTxLockVote.Sign. destruct (SignMessage E _) as [sig|]; [|discriminate].
  destruct (VerifyMessage E _ sig _); [|discriminate]. intros [= <-]. reflexivity.
Qed.

(** The events that announce votes of this masternode for [txHash] on
    outpoints of [outs], all of them stored in [s']. *)
Definition own_votes (E : Env) (txHash : uint256) (outs : list COutPoint.t)
           (s' : CDirectSend.t) (evs : list Event) : Prop :=
  Forall (fun ev =>
            exists o, In o outs
                      /\ ev = EvRelayVote (SerializeHash3 txHash o (activeMasternode_outpoint E))
                      /\ CDirectSend.GetTxLockVote s'
                           (SerializeHash3 txHash o (activeMasternode_outpoint E)) <> None
                      /\ CDirectSend.AlreadyHave s'
                           (SerializeHash3 txHash o (activeMasternode_outpoint E)) = true)
         evs.

Lemma own_votes_more E txHash o outs s' evs :
  own_votes E txHash outs s' evs -> own_votes E txHash (o :: outs) s' evs.
Proof.
  unfold own_votes. intros H. eapply Forall_impl; [|exact H].
  intros ev [o' [Hin Hev]]. exists o'. split; [right; exact Hin | exact Hev].
Qed.

Lemma vote_outpoints_relays E key txHash outs : forall s s',
  CDirectSend.vote_outpoints E key txHash outs s = Some s' ->
  vote_frame s s'
  /\ exists evs, CDirectSend.events s' = CDirectSend.events s ++ evs
                 /\ own_votes E txHash outs s' evs.
Proof.
  induction outs as [|o rest IH]; simpl; intros s s' Hv.
  - injection Hv as <-. split; [apply vote_frame_refl|]. exists []. rewrite app_nil_r.
    split; [reflexivity | constructor].
  - assert (forall st, CDirectSend.vote_outpoints E key txHash rest st = Some s' ->
                       vote_frame s st -> CDirectSend.events st = CDirectSend.events s ->
                       vote_frame s s'
                       /\ exists evs, CDirectSend.events s' = CDirectSend.events s ++ evs
                                      /\ own_votes E txHash (o :: rest) s' evs) as Hnext.
    { intros st Hst Hfr Hev. destruct (IH _ _ Hst) as [Hfr' [evs [He Ho]]].
      split; [eapply vote_frame_trans; eauto|].
      exists evs. rewrite He, Hev. split; [reflexivity | apply own_votes_more; exact Ho]. }
    assert (vote_frame s s
            /\ exists evs, CDirectSend.events s = CDirectSend.events s ++ evs
                           /\ own_votes E txHash (o :: rest) s evs) as Hstop.
    { split; [apply vote_frame_refl|]. exists []. rewrite app_nil_r.
      split; [reflexivity | constructor]. }
    destruct (GetUTXOHeight E o =? -1); [injection Hv as <-; exact Hstop|].
    destruct (GetMasternodeRank E _ _ _) as [nRank|];
      [|apply (Hnext s Hv (vote_frame_refl s) eq_refl)].
    destruct (nRank >? SIGNATURES_TOTAL); [apply (Hnext s Hv (vote_frame_refl s) eq_refl)|].
    match type of Hv with match ?x with _ => _ end = _ => destruct x as [[|]|] end;
      [apply (Hnext s Hv (vote_frame_refl s) eq_refl) | | discriminate].
    destruct (CTxLockVote.Sign E _) as [vote|] eqn:Hsign; [|injection Hv as <-; exact Hstop].
    destruct (negb (CTxLockVote.CheckSignature E vote)); [injection Hv as <-; exact Hstop|].
    apply Sign_hash in Hsign.
    change (CTxLockVote.GetHash vote = SerializeHash3 txHash o (activeMasternode_outpoint E))
      in Hsign.
    simpl in Hv.
    destruct (find key (CDirectSend.mapTxLockCandidates s)) as [c|] eqn:Hc; [|discriminate].
    destruct (CTxLockCandidate.AddVote vote c) as [c' ok].
    set (s2 := CDirectSend.set_candidates (update key (fun _ => c'))
                 (CDirectSend.set_votes (insert (CTxLockVote.GetHash vote) vote) s)) in *.
    assert (vote_frame s s2) as F2.
    { unfold vote_frame, s2. simpl. repeat split; [apply keys_update|].
      intros h Hh. rewrite count_insert, Hh. apply orb_true_r. }
    assert (count (CTxLockVote.GetHash vote) (CDirectSend.mapTxLockVotes s2) = true) as Hstored.
    { unfold s2. simpl. rewrite count_insert, keqb_refl. reflexivity. }
    destruct ok.
    + set (s3 := CDirectSend.emit _ _) in Hv.
      assert (vote_frame s2 s3) as F3.
      { unfold s3, CDirectSend.add_voted.
        destruct (find o (CDirectSend.mapVotedOutpoints s2)); unfold vote_frame; simpl;
          repeat split; auto. }
      destruct (IH _ _ Hv) as [Hfr' [evs [He Ho]]].
      split; [eapply vote_frame_trans; [exact F2|]; eapply vote_frame_trans; eauto|].
      exists (EvRelayVote (CTxLockVote.GetHash vote) :: evs). split.
      * rewrite He. unfold s3, CDirectSend.add_voted.
        destruct (find o (CDirectSend.mapVotedOutpoints s2)); simpl;
          rewrite <- app_assoc; reflexivity.
      * constructor; [|apply own_votes_more; exact Ho].
        exists o. split; [left; reflexivity|]. rewrite <- Hsign. split; [reflexivity|].
        assert (count (CTxLockVote.GetHash vote) (CDirectSend.mapTxLockVotes s') = true) as Hk.
        { destruct Hfr' as [_ [_ [_ [_ [_ [_ [_ [_ Hm]]]]]]]]. apply Hm.
          destruct F3 as [_ [_ [_ [_ [_ [_ [_ [_ Hm3]]]]]]]]. apply Hm3. exact Hstored. }
        split.
        -- unfold CDirectSend.GetTxLockVote. apply count_find in Hk.
           destruct Hk as [v0 ->]. discriminate.
        -- unfold CDirectSend.AlreadyHave. rewrite Hk. apply orb_true_r.
    + apply (Hnext s2 Hv F2). reflexivity.
Qed.
End OwnVotes.

(** X21. [Vote] relays nothing but votes of this masternode for the
    transaction of the candidate, on outpoints of the candidate, each of them
    found by [GetTxLockVote] and known to [AlreadyHave] afterwards.  It drops
    no stored vote, keeps the candidates the same transactions, and leaves the
    recorded requests, the orphan votes, the locked outpoints, the rate
    limiter, the cached height and the counter as they are.  Off a masternode,
    or with spork 2 off, it does nothing. *)
Theorem Vote_relays_own_votes {P : Params} (E : Env) (key : uint256)
        (s s' : CDirectSend.t) (c : CTxLockCandidate.t) :
  CDirectSend.Vote E key s = Some s' ->
  find key (CDirectSend.mapTxLockCandidates s) = Some c ->
  vote_frame s s'
  /\ (exists evs,
         CDirectSend.events s' = CDirectSend.events s ++ evs
         /\ own_votes E (CTxLockCandidate.GetHash c)
                      (keys (CTxLockCandidate.mapOutPointLocks c)) s' evs)
  /\ (fMasterNode E = false \/ SPORK_2_DIRECTSEND_ENABLED E = false -> s' = s).
Proof.
  intros Hv Hc. unfold CDirectSend.Vote in Hv.
  assert (vote_frame s s
          /\ exists evs, CDirectSend.events s = CDirectSend.events s ++ evs
                         /\ own_votes E (CTxLockCandidate.GetHash c)
                                      (keys (CTxLockCandidate.mapOutPointLocks c)) s evs)
    as [Hs1 Hs2].
  { split; [apply vote_frame_refl|]. exists []. rewrite app_nil_r.
    split; [reflexivity | constructor]. }
  destruct (fMasterNode E); cbn [negb] in Hv.
  2: { injection Hv as <-. auto. }
  destruct (SPORK_2_DIRECTSEND_ENABLED E); cbn [negb] in Hv.
  2: { injection Hv as <-. auto. }
  rewrite Hc in Hv. destruct (vote_outpoints_relays _ _ _ _ _ Hv) as [Hf He].
  split; [exact Hf|]. split; [exact He|]. intros [Hx|Hx]; discriminate Hx.
Qed.

Module VoteExamples.
(** The node is the masternode with collateral (0, 0). *)
Definition env : Env := {|
    fLiteMode := false;
    fMasterNode := true;
    fEnableDirectSend := true;
    fLargeWorkForkFound := false;
    fLargeWorkInvalidChainFound := false;
    fDIP0001ActiveAtTip := false;
    SPORK_2_DIRECTSEND_ENABLED := true;
    SPORK_3_DIRECTSEND_BLOCK_FILTERING := true;
    SPORK_5_DIRECTSEND_MAX_VALUE := 1000;
    IsMasternodeListSynced := true;
    GetTime := 1000;
    chainActive_Height := 100;
    GetUTXOCoins := fun _ => Some {| coin_nHeight := 50; coin_nValue := 1001000 |};
    mapNextTx := fun _ => None;
    GetTransaction := fun _ => None;
    mapBlockIndex := fun _ => None;
    CheckFinalTx := fun _ => true;
    mnodeman_Has := fun _ => true;
    GetMasternodeRank := fun _ _ _ => Some 1;
    GetMasternodeInfo := fun _ => Some [];
    VerifyMessage := fun _ _ _ => true;
    activeMasternode_outpoint := COutPoint.mk 0 0;
    activeMasternode_pubKeyMasternode := [];
    SignMessage := fun _ => Some [];
    pwalletMain := false;
    UpdatedTransaction := fun _ => false;
    directsendnotify := EmptyString
  |}.

(** Transaction 21 spends two outpoints and has no votes yet. *)
Definition fresh_candidate : CTxLockCandidate.t :=
  CTxLockCandidate.mk (Demo.request 21 [Demo.op 1 0; Demo.op 1 1])
                      [(Demo.op 1 0, COutPointLock.create (Demo.op 1 0));
                       (Demo.op 1 1, COutPointLock.create (Demo.op 1 1))] (-1) 1000.

Definition asked : CDirectSend.t :=
  CDirectSend.set_candidates (fun _ => [(21, fresh_candidate)]) CDirectSend.empty.
End VoteExamples.

Lemma Vote_relays_own_votes_witness :
  exists s',
    CDirectSend.Vote (P := Demo.params) VoteExamples.env 21 VoteExamples.asked = Some s'
    /\ List.length (CDirectSend.events s') = 2%nat
    /\ vote_frame VoteExamples.asked s'.
Proof.
  destruct (CDirectSend.Vote (P := Demo.params) VoteExamples.env 21 VoteExamples.asked)
    as [s'|] eqn:Hv; [|vm_compute in Hv; discriminate Hv].
  exists s'. split; [reflexivity|].
  destruct (@Vote_relays_own_votes Demo.params VoteExamples.env 21 VoteExamples.asked s'
              VoteExamples.fresh_candidate Hv eq_refl) as [Hf _].
  split; [|exact Hf].
  vm_compute in Hv. injection Hv as <-. reflexivity.
Defined.

Section SecondVote.
Context {P : Params}.
Variable E : Env.

Lemma already_voted_found o hashes s h2 c2 b :
  CDirectSend.already_voted E o hashes s = Some b ->
  In h2 hashes ->
  find h2 (CDirectSend.mapTxLockCandidates s) = Some c2 ->
  CTxLockCandidate.HasMasternodeVoted o (activeMasternode_outpoint E) c2 = true ->
  b = true.
Proof.
  induction hashes as [|h hashes IH]; simpl; intros Hb Hin Hc2 Hvoted; [contradiction|].
  destruct (find h (CDirectSend.mapTxLockCandidates s)) as [c|] eqn:Hc; [|discriminate].
  destruct (CTxLockCandidate.HasMasternodeVoted o (activeMasternode_outpoint E) c) eqn:Hh.
  - congruence.
  - destruct Hin as [->|Hin]; [congruence | auto].
Qed.

Lemma AddVote_other_outpoint vote c o mn :
  CTxLockVote.GetOutpoint vote <> o ->
  CTxLockCandidate.HasMasternodeVoted o mn (fst (CTxLockCandidate.AddVote vote c))
  = CTxLockCandidate.HasMasternodeVoted o mn c.
Proof.
  intros Hne. unfold CTxLockCandidate.AddVote.
  destruct (find (CTxLockVote.GetOutpoint vote) (CTxLockCandidate.mapOutPointLocks c));
    [|reflexivity].
  destruct (COutPointLock.AddVote vote _) as [L' ok]. simpl.
  unfold CTxLockCandidate.HasMasternodeVoted. simpl. rewrite find_update.
  assert (keqb o (CTxLockVote.GetOutpoint vote) = false) as ->
    by (apply keqb_neq; congruence).
  reflexivity.
Qed.

Lemma Sign_outpoint v v' :
  CTxLockVote.Sign E v = Some v' -> CTxLockVote.GetOutpoint v' = CTxLockVote.GetOutpoint v.
Proof.
  unfold CTxLockVote.Sign. destruct (SignMessage E _) as [sig|]; [|discriminate].
  destruct (VerifyMessage E _ sig _); [|discriminate]. intros [= <-]. reflexivity.
Qed.

(** This masternode has a vote on [o] in the candidate of [h2], another
    transaction than [key], which [mapVotedOutpoints] lists for [o]; [v] is
    whether it has one in the candidate of [key]. *)
Definition committed (key : uint256) (o : COutPoint.t) (h2 : uint256) (v : bool)
           (s : CDirectSend.t) : Prop :=
  (exists hashes, find o (CDirectSend.mapVotedOutpoints s) = Some hashes /\ In h2 hashes)
  /\ (exists c2, find h2 (CDirectSend.mapTxLockCandidates s) = Some c2
                 /\ CTxLockCandidate.HasMasternodeVoted o (activeMasternode_outpoint E) c2 = true)
  /\ (exists c, find key (CDirectSend.mapTxLockCandidates s) = Some c
                /\ CTxLockCandidate.HasMasternodeVoted o (activeMasternode_outpoint E) c = v).

Lemma vote_outpoints_committed key txHash o h2 v outs : forall s s',
  h2 <> key ->
  committed key o h2 v s ->
  CDirectSend.vote_outpoints E key txHash outs s = Some s' ->
  committed key o h2 v s'.
Proof.
  induction outs as [|o' rest IH]; simpl; intros s s' Hne Hs Hv.
  - injection Hv as <-. exact Hs.
  - destruct (GetUTXOHeight E o' =? -1); [injection Hv as <-; exact Hs|].
    destruct (GetMasternodeRank E _ _ _) as [nRank|]; [|eapply IH; eauto].
    destruct (nRank >? SIGNATURES_TOTAL); [eapply IH; eauto|].
    destruct (match find o' (CDirectSend.mapVotedOutpoints s) with
              | Some hashes => CDirectSend.already_voted E o' hashes s
              | None => Some false
              end) as [[|]|] eqn:Hav; [eapply IH; eauto | | discriminate].
    assert (o' <> o) as Hoo.
    { intros ->. destruct Hs as [[hashes [Hh Hin]] [[c2 [Hc2 Hv2]] _]].
      rewrite Hh in Hav.
      pose proof (@already_voted_found o hashes s h2 c2 false Hav Hin Hc2 Hv2) as Hx.
      discriminate Hx. }
    destruct (CTxLockVote.Sign E _) as [vote|] eqn:Hsign; [|injection Hv as <-; exact Hs].
    destruct (negb (CTxLockVote.CheckSignature E vote)); [injection Hv as <-; exact Hs|].
    apply Sign_outpoint in Hsign.
    change (CTxLockVote.GetOutpoint vote = o') in Hsign.
    simpl in Hv.
    destruct (find key (CDirectSend.mapTxLockCandidates s)) as [c|] eqn:Hc; [|discriminate].
    assert (CTxLockVote.GetOutpoint vote <> o) as Hvo by (rewrite Hsign; exact Hoo).
    pose proof (@AddVote_other_outpoint vote c o (activeMasternode_outpoint E) Hvo) as Hsame.
    destruct (CTxLockCandidate.AddVote vote c) as [c' ok]. simpl in Hsame.
    set (s2 := CDirectSend.set_candidates (update key (fun _ => c'))
                 (CDirectSend.set_votes (insert (CTxLockVote.GetHash vote) vote) s)) in *.
    assert (committed key o h2 v s2) as H2.
    { destruct Hs as [Hlist [[c2 [Hc2 Hv2]] [c0 [Hc0 Hv0]]]].
      split; [exact Hlist|]. split.
      - exists c2. unfold s2. simpl. rewrite find_update.
        assert (keqb h2 key = false) as -> by (apply keqb_neq; exact Hne).
        auto.
      - exists c'. unfold s2. simpl. rewrite find_update, keqb_refl, Hc. simpl.
        split; [reflexivity|]. rewrite Hsame. congruence. }
    destruct ok; [|eapply IH; eauto].
    eapply IH; [exact Hne | | exact Hv].
    destruct H2 as [[hashes [Hh Hin]] [Hc2 Hc0]].
    assert (CDirectSend.mapTxLockCandidates
              (CDirectSend.emit [EvRelayVote (CTxLockVote.GetHash vote)]
                 (CDirectSend.add_voted o' txHash s2))
            = CDirectSend.mapTxLockCandidates s2) as Hcs
      by (unfold CDirectSend.add_voted;
          destruct (find o' (CDirectSend.mapVotedOutpoints s2)); reflexivity).
    split; [|split; rewrite Hcs; assumption].
    exists hashes. split; [|exact Hin].
    unfold CDirectSend.add_voted.
    destruct (find o' (CDirectSend.mapVotedOutpoints s2)); simpl.
    + rewrite find_update.
      assert (keqb o o' = false) as -> by (apply keqb_neq; congruence). exact Hh.
    + rewrite find_insert.
      assert (keqb o o' = false) as -> by (apply keqb_neq; congruence). exact Hh.
Qed.
End SecondVote.

(** X22. A masternode does not vote for two transactions on one outpoint.
    Where [mapVotedOutpoints] lists, for an outpoint, another transaction in
    whose candidate this masternode has a vote on that outpoint, [Vote] on a
    candidate leaves the lock of the candidate on that outpoint without a new
    vote of this masternode; the commitment to the other transaction stands. *)
Theorem Vote_refuses_second_vote {P : Params} (E : Env) (key h2 : uint256) (o : COutPoint.t)
        (hashes : list uint256) (c c2 : CTxLockCandidate.t) (s s' : CDirectSend.t) :
  h2 <> key ->
  find o (CDirectSend.mapVotedOutpoints s) = Some hashes ->
  In h2 hashes ->
  find h2 (CDirectSend.mapTxLockCandidates s) = Some c2 ->
  CTxLockCandidate.HasMasternodeVoted o (activeMasternode_outpoint E) c2 = true ->
  find key (CDirectSend.mapTxLockCandidates s) = Some c ->
  CDirectSend.Vote E key s = Some s' ->
  exists c',
    find key (CDirectSend.mapTxLockCandidates s') = Some c'
    /\ CTxLockCandidate.HasMasternodeVoted o (activeMasternode_outpoint E) c'
       = CTxLockCandidate.HasMasternodeVoted o (activeMasternode_outpoint E) c.
Proof.
  intros Hne Hh Hin Hc2 Hv2 Hc Hv.
  assert (committed E key o h2
            (CTxLockCandidate.HasMasternodeVoted o (activeMasternode_outpoint E) c) s) as Hs.
  { split; [eauto|]. split; eauto. }
  unfold CDirectSend.Vote in Hv.
  destruct (negb (fMasterNode E)); [injection Hv as <-; eauto|].
  destruct (negb (SPORK_2_DIRECTSEND_ENABLED E)); [injection Hv as <-; eauto|].
  rewrite Hc in Hv.
  pose proof (@vote_outpoints_committed P E key _ o h2 _ _ s s' Hne Hs Hv) as [_ [_ Hc']].
  exact Hc'.
Qed.

Module SecondVoteExamples.
(** This masternode voted for transaction 22 on (1, 1); transaction 21
    spends (1, 0) and (1, 1). *)
Definition pledged : CDirectSend.t :=
  CDirectSend.set_candidates
    (fun _ => [(21, VoteExamples.fresh_candidate);
               (22, CTxLockCandidate.mk (Demo.request 22 [Demo.op 1 1])
                      [(Demo.op 1 1, Demo.lock_of 22 (Demo.op 1 1) [Demo.op 0 0] 1000)]
                      (-1) 1000)])
    (CDirectSend.set_voted (fun _ => [(Demo.op 1 1, [22])]) CDirectSend.empty).
End SecondVoteExamples.

Lemma Vote_refuses_second_vote_witness :
  exists s' c',
    CDirectSend.Vote (P := Demo.params) VoteExamples.env 21 SecondVoteExamples.pledged
    = Some s'
    /\ find 21 (CDirectSend.mapTxLockCandidates s') = Some c'
    /\ CTxLockCandidate.HasMasternodeVoted (Demo.op 1 1) (Demo.op 0 0) c' = false
    /\ CTxLockCandidate.HasMasternodeVoted (Demo.op 1 0) (Demo.op 0 0) c' = true.
Proof.
  destruct (CDirectSend.Vote (P := Demo.params) VoteExamples.env 21
              SecondVoteExamples.pledged) as [s'|] eqn:Hv;
    [|vm_compute in Hv; discriminate Hv].
  destruct (@Vote_refuses_second_vote Demo.params VoteExamples.env 21 22 (Demo.op 1 1) [22]
              VoteExamples.fresh_candidate
              (CTxLockCandidate.mk (Demo.request 22 [Demo.op 1 1])
                 [(Demo.op 1 1, Demo.lock_of 22 (Demo.op 1 1) [Demo.op 0 0] 1000)] (-1) 1000)
              SecondVoteExamples.pledged s') as [c' [Hc' Hsame]];
    try reflexivity; try exact Hv.
  - discriminate.
  - simpl. auto.
  - exists s', c'. split; [reflexivity|]. split; [exact Hc'|]. split; [exact Hsame|].
    vm_compute in Hv. injection Hv as <-. vm_compute in Hc'. injection Hc' as <-.
    reflexivity.
Defined.

(** ** A vote that comes too late *)

(** X23. A valid vote for a transaction whose candidate holds its lock
    request is relayed and then refused, [ProcessTxLockVote] answering false
    and the engine being as it was but for the relay, when the candidate has
    timed out, and so whenever [IsTxLockCandidateTimedOut] holds of the
    transaction.  With DirectSend enabled, [IsTxLockCandidateTimedOut] holds
    exactly when the candidate has timed out and its outpoints are not all
    ready. *)
Theorem late_vote_refused {P : Params} (fuel : nat) (E : Env) (vote : CTxLockVote.t)
        (s : CDirectSend.t) (c : CTxLockCandidate.t) :
  let txHash := CTxLockVote.GetTxHash vote in
  fst (CTxLockVote.IsValid E vote) = true ->
  find txHash (CDirectSend.mapTxLockCandidates s) = Some c ->
  CTxLockRequest.is_set (CTxLockCandidate.txLockRequest c) = true ->
  (CTxLockCandidate.IsTimedOut E c = true ->
   CDirectSend.ProcessTxLockVote (S fuel) E vote s
   = Some (CDirectSend.emit [EvRelayVote (CTxLockVote.GetHash vote)] s, false))
  /\ (CDirectSend.IsTxLockCandidateTimedOut E s txHash = true ->
      CDirectSend.ProcessTxLockVote (S fuel) E vote s
      = Some (CDirectSend.emit [EvRelayVote (CTxLockVote.GetHash vote)] s, false))
  /\ (fEnableDirectSend E = true ->
      (CDirectSend.IsTxLockCandidateTimedOut E s txHash = true
       <-> CTxLockCandidate.IsTimedOut E c = true
           /\ CTxLockCandidate.IsAllOutPointsReady c = false)).
Proof.
  intros txHash Hvalid Hc Hset.
  assert (CTxLockCandidate.IsTimedOut E c = true ->
          CDirectSend.ProcessTxLockVote (S fuel) E vote s
          = Some (CDirectSend.emit [EvRelayVote (CTxLockVote.GetHash vote)] s, false)) as Hlate.
  { intros Hto. cbn [CDirectSend.ProcessTxLockVote]. fold txHash.
    rewrite (IsValid_true E vote Hvalid). cbn [negb].
    change (CDirectSend.mapTxLockCandidates
              (CDirectSend.emit [EvRelayVote (CTxLockVote.GetHash vote)] s))
      with (CDirectSend.mapTxLockCandidates s).
    rewrite Hc, Hset, Hto. reflexivity. }
  split; [exact Hlate|]. split.
  - intros Hq. apply Hlate. unfold CDirectSend.IsTxLockCandidateTimedOut in Hq.
    destruct (negb (fEnableDirectSend E)); [discriminate Hq|].
    rewrite Hc in Hq. apply andb_true_iff in Hq. tauto.
  - intros Hen. unfold CDirectSend.IsTxLockCandidateTimedOut. rewrite Hen, Hc. cbn [negb].
    rewrite andb_true_iff, negb_true_iff. tauto.
Qed.

Lemma late_vote_refused_witness :
  CDirectSend.IsTxLockCandidateTimedOut (P := Demo.params)
    (Demo.mkenv (fun _ => None) false true 2000 (fun _ => None) (fun _ => true))
    VoteExamples.asked 21 = true
  /\ CDirectSend.ProcessTxLockVote (P := Demo.params) 1
       (Demo.mkenv (fun _ => None) false true 2000 (fun _ => None) (fun _ => true))
       (Demo.mkvote 21 (Demo.op 1 0) (Demo.op 7 1) 1990) VoteExamples.asked
     = Some (CDirectSend.emit
               [EvRelayVote (CTxLockVote.GetHash (P := Demo.params)
                               (Demo.mkvote 21 (Demo.op 1 0) (Demo.op 7 1) 1990))]
               VoteExamples.asked, false).
Proof.
  split; [reflexivity|].
  apply (@late_vote_refused Demo.params 0
           (Demo.mkenv (fun _ => None) false true 2000 (fun _ => None) (fun _ => true))
           (Demo.mkvote 21 (Demo.op 1 0) (Demo.op 7 1) 1990) VoteExamples.asked
           VoteExamples.fresh_candidate); reflexivity.
Defined.

(** ** A vote in time *)

Section InTime.
Context {P : Params}.

Lemma mark_conflicts_same vote txHash hashes : forall s,
  Forall (fun h => h = txHash) hashes ->
  CDirectSend.mark_conflicts vote txHash hashes s = s.
Proof.
  induction hashes as [|h hashes IH]; intros s Hall; simpl; [reflexivity|].
  inversion Hall as [|? ? Hh Hrest]; subst. rewrite Z.eqb_refl. simpl. apply IH. exact Hrest.
Qed.

Lemma In_set_insert h l : In h (set_insert h l).
Proof.
  induction l as [|x l IH]; simpl; [auto|].
  destruct (Z.eqb_spec h x) as [->|Hne]; [simpl; auto|].
  destruct (h <? x); simpl; auto.
Qed.
End InTime.

(** X24. A valid vote that comes in time for a candidate holding its lock
    request, on an outpoint of the candidate where its signer has not voted
    and for which no other transaction is recorded in [mapVotedOutpoints], is
    relayed and counted: [ProcessTxLockVote] answers true, the candidate has
    one vote more, and the transaction is recorded for the outpoint.  (The
    candidate is taken not to be complete with this vote; a complete one goes
    on to finalization.) *)
Theorem in_time_vote_counted {P : Params} (fuel : nat) (E : Env) (vote : CTxLockVote.t)
        (s : CDirectSend.t) (c : CTxLockCandidate.t) :
  let txHash := CTxLockVote.GetTxHash vote in
  let o := CTxLockVote.GetOutpoint vote in
  let mn := CTxLockVote.GetMasternodeOutpoint vote in
  let c' := fst (CTxLockCandidate.AddVote vote c) in
  fst (CTxLockVote.IsValid E vote) = true ->
  find txHash (CDirectSend.mapTxLockCandidates s) = Some c ->
  CTxLockRequest.is_set (CTxLockCandidate.txLockRequest c) = true ->
  CTxLockCandidate.IsTimedOut E c = false ->
  NoDup (keys (CTxLockCandidate.mapOutPointLocks c)) ->
  count o (CTxLockCandidate.mapOutPointLocks c) = true ->
  CTxLockCandidate.HasMasternodeVoted o mn c = false ->
  (forall hashes, find o (CDirectSend.mapVotedOutpoints s) = Some hashes ->
                  Forall (fun h => h = txHash) hashes) ->
  CTxLockCandidate.IsAllOutPointsReady c' = false ->
  exists s',
    CDirectSend.ProcessTxLockVote (S fuel) E vote s = Some (s', true)
    /\ find txHash (CDirectSend.mapTxLockCandidates s') = Some c'
    /\ CTxLockCandidate.CountVotes c' = CTxLockCandidate.CountVotes c + 1
    /\ CTxLockCandidate.HasMasternodeVoted o mn c' = true
    /\ (exists hashes, find o (CDirectSend.mapVotedOutpoints s') = Some hashes
                       /\ In txHash hashes)
    /\ CDirectSend.events s' = CDirectSend.events s ++ [EvRelayVote (CTxLockVote.GetHash vote)].
Proof.
  intros txHash o mn c' Hvalid Hc Hset Hto Hnd Hlock Hnew Hvoted Hnr.
  pose proof (@candidate_AddVote_parts vote c Hnd) as Hadd. cbv zeta in Hadd.
  fold o mn c' in Hadd.
  assert (snd (CTxLockCandidate.AddVote vote c) = true) as Hok.
  { destruct (snd (CTxLockCandidate.AddVote vote c)); [reflexivity|].
    destruct Hadd as [_ [Hx|Hx]]; congruence. }
  rewrite Hok in Hadd. destruct Hadd as [Hcount [_ [Hhas _]]].
  cbn [CDirectSend.ProcessTxLockVote]. fold txHash.
  rewrite (IsValid_true E vote Hvalid). cbn [negb].
  set (s0 := CDirectSend.emit [EvRelayVote (CTxLockVote.GetHash vote)] s).
  change (CDirectSend.mapTxLockCandidates s0) with (CDirectSend.mapTxLockCandidates s).
  rewrite Hc, Hset, Hto.
  unfold CDirectSend.attach_vote. fold o.
  change (CDirectSend.mapVotedOutpoints s0) with (CDirectSend.mapVotedOutpoints s).
  set (s1 := match find o (CDirectSend.mapVotedOutpoints s) with
             | Some hashes => _
             | None => _
             end).
  assert (CDirectSend.mapTxLockCandidates s1 = CDirectSend.mapTxLockCandidates s
          /\ CDirectSend.events s1 = CDirectSend.events s0
          /\ exists hashes, find o (CDirectSend.mapVotedOutpoints s1) = Some hashes
                            /\ In txHash hashes) as [Hc1 [He1 Hv1]].
  { unfold s1. destruct (find o (CDirectSend.mapVotedOutpoints s)) as [hashes|] eqn:Hvo.
    - rewrite (mark_conflicts_same vote s0 (Hvoted hashes eq_refl)).
      split; [reflexivity|]. split; [reflexivity|].
      exists (set_insert txHash hashes). simpl. rewrite find_update, keqb_refl, Hvo.
      split; [reflexivity | apply In_set_insert].
    - split; [reflexivity|]. split; [reflexivity|].
      exists [txHash]. simpl. rewrite find_insert, keqb_refl, Hvo. split; [reflexivity|].
      left. reflexivity. }
  rewrite Hc1, Hc.
  destruct (CTxLockCandidate.AddVote vote c) as [c1 ok] eqn:Hav. simpl in Hok. subst ok.
  change c' with c1 in *. cbn [negb].
  set (s2 := CDirectSend.set_candidates (update txHash (fun _ => c1)) s1).
  assert (find txHash (CDirectSend.mapTxLockCandidates s2) = Some c1) as Hc2.
  { unfold s2. simpl. rewrite find_update, keqb_refl, Hc1, Hc. reflexivity. }
  rewrite Hc2.
  assert (CDirectSend.TryToFinalizeLockCandidate E c1 s2 = s2) as ->.
  { unfold CDirectSend.TryToFinalizeLockCandidate. rewrite Hnr.
    destruct (negb (SPORK_2_DIRECTSEND_ENABLED E)); reflexivity. }
  exists s2. split; [reflexivity|]. split; [exact Hc2|]. split; [exact Hcount|].
  split; [exact Hhas|]. split; [exact Hv1|].
  unfold s2. simpl. rewrite He1. reflexivity.
Qed.

Lemma in_time_vote_counted_witness :
  exists s',
    CDirectSend.ProcessTxLockVote (P := Demo.params) 1 Demo.env
      (Demo.mkvote 21 (Demo.op 1 0) (Demo.op 7 1) 1000) VoteExamples.asked = Some (s', true)
    /\ CDirectSend.GetTransactionLockSignatures Demo.env s' 21 = 1.
Proof.
  destruct (@in_time_vote_counted Demo.params 0 Demo.env
              (Demo.mkvote 21 (Demo.op 1 0) (Demo.op 7 1) 1000) VoteExamples.asked
              VoteExamples.fresh_candidate eq_refl eq_refl eq_refl eq_refl)
    as [s' [H1 [H2 [H3 _]]]].
  - simpl. repeat constructor; simpl; intuition discriminate.
  - reflexivity.
  - reflexivity.
  - intros hashes Hx. discriminate Hx.
  - reflexivity.
  - exists s'. split; [exact H1|].
    change (CTxLockVote.GetTxHash (Demo.mkvote 21 (Demo.op 1 0) (Demo.op 7 1) 1000))
      with 21 in H2.
    unfold CDirectSend.GetTransactionLockSignatures. rewrite H2.
    cbv zeta in H3. rewrite H3. reflexivity.
Defined.

(** ** An orphan vote that is looked at again *)

Section OrphansAgain.
Context {P : Params}.

(** No candidate of the transaction of [vote] holds a request: [vote] is
    still an orphan. *)
Definition still_orphan (s : CDirectSend.t) (vote : CTxLockVote.t) : Prop :=
  match find (CTxLockVote.GetTxHash vote) (CDirectSend.mapTxLockCandidates s) with
  | Some c => CTxLockRequest.is_set (CTxLockCandidate.txLockRequest c) = false
  | None => True
  end.

(** Every orphan vote of [s] is filed under its hash, valid at [E] and still
    an orphan. *)
Definition orphans_waiting (E : Env) (s : CDirectSend.t) : Prop :=
  Forall (fun e => fst e = CTxLockVote.GetHash (snd e)
                   /\ fst (CTxLockVote.IsValid E (snd e)) = true
                   /\ still_orphan s (snd e))
         (CDirectSend.mapTxLockVotesOrphan s).

(** What [ProcessTxLockVote] comes to on an orphan vote that is looked at
    again: the relay and the rate limiter. *)
Definition relay_and_limit : CDirectSend.VoteProcessor :=
  fun E vote s =>
    CDirectSend.orphan_rate_limit E vote
      (CDirectSend.emit [EvRelayVote (CTxLockVote.GetHash vote)] s).

(** The rate limiter has no deadline in the future for the signer of
    [vote]. *)
Definition signer_at_rest (E : Env) (s : CDirectSend.t) (vote : CTxLockVote.t) : Prop :=
  match find (CTxLockVote.GetMasternodeOutpoint vote) (CDirectSend.mapMasternodeOrphanVotes s) with
  | Some nPrevOrphanVote => nPrevOrphanVote <= GetTime E
  | None => True
  end.

Lemma waiting_vote_rate_limited fuel E vote s :
  fst (CTxLockVote.IsValid E vote) = true ->
  still_orphan s vote ->
  count (CTxLockVote.GetHash vote) (CDirectSend.mapTxLockVotesOrphan s) = true ->
  CDirectSend.ProcessTxLockVote (S fuel) E vote s = relay_and_limit E vote s.
Proof.
  intros Hvalid Hcand Hcount. unfold relay_and_limit.
  cbn [CDirectSend.ProcessTxLockVote].
  rewrite (IsValid_true E vote Hvalid). cbn [negb].
  set (s0 := CDirectSend.emit [EvRelayVote (CTxLockVote.GetHash vote)] s).
  change (CDirectSend.mapTxLockCandidates s0) with (CDirectSend.mapTxLockCandidates s).
  change (CDirectSend.mapTxLockVotesOrphan s0) with (CDirectSend.mapTxLockVotesOrphan s).
  assert (match find (CTxLockVote.GetTxHash vote) (CDirectSend.mapTxLockCandidates s) with
          | Some c =>
              if CTxLockRequest.is_set (CTxLockCandidate.txLockRequest c)
              then Some c else None
          | None => None
          end = None) as ->.
  { unfold still_orphan in Hcand.
    destruct (find (CTxLockVote.GetTxHash vote) (CDirectSend.mapTxLockCandidates s));
      [|reflexivity].
    rewrite Hcand. reflexivity. }
  rewrite Hcount. reflexivity.
Qed.

Lemma orphan_rate_limit_cases E vote s :
  CDirectSend.orphan_rate_limit E vote s = Some (s, false)
  \/ CDirectSend.orphan_rate_limit E vote s
     = Some (CDirectSend.set_mnorphans
               (set (CTxLockVote.GetMasternodeOutpoint vote) (to_int32 (GetTime E + 60 * 10))) s,
             true).
Proof.
  destruct (orphan_rate_limit_frame E vote s) as [s' [b [Hr _]]].
  unfold CDirectSend.orphan_rate_limit in *.
  destruct (find _ (CDirectSend.mapMasternodeOrphanVotes s)) as [prev|]; [|auto].
  destruct (prev >? GetTime E); [|auto].
  destruct (CDirectSend.GetAverageMasternodeOrphanVoteTime s) as [avg|]; [|discriminate].
  destruct (prev >? avg); auto.
Qed.

Lemma orphan_rate_limit_at_rest E vote s :
  signer_at_rest E s vote ->
  CDirectSend.orphan_rate_limit E vote s
  = Some (CDirectSend.set_mnorphans
            (set (CTxLockVote.GetMasternodeOutpoint vote) (to_int32 (GetTime E + 60 * 10))) s,
          true).
Proof.
  unfold signer_at_rest, CDirectSend.orphan_rate_limit.
  destruct (find _ (CDirectSend.mapMasternodeOrphanVotes s)) as [prev|]; [|reflexivity].
  intros Hle. destruct (Z.gtb_spec prev (GetTime E)); [lia | reflexivity].
Qed.

(** One turn of the loop on [k], for the state [st] it produced: the
    candidates and the stored votes are those of [s], no orphan vote was
    added, and the trace grew. *)
Definition turned (s st : CDirectSend.t) : Prop :=
  CDirectSend.mapTxLockCandidates st = CDirectSend.mapTxLockCandidates s
  /\ CDirectSend.mapTxLockVotes st = CDirectSend.mapTxLockVotes s
  /\ (forall e, In e (CDirectSend.mapTxLockVotesOrphan st) ->
                In e (CDirectSend.mapTxLockVotesOrphan s))
  /\ (forall k v, find k (CDirectSend.mapTxLockVotesOrphan st) = Some v ->
                  find k (CDirectSend.mapTxLockVotesOrphan s) = Some v)
  /\ exists evs, CDirectSend.events st = CDirectSend.events s ++ evs.

Lemma turned_refl s : turned s s.
Proof.
  unfold turned. repeat split; auto. exists []. rewrite app_nil_r. reflexivity.
Qed.

Lemma turned_trans s1 s2 s3 : turned s1 s2 -> turned s2 s3 -> turned s1 s3.
Proof.
  intros [A1 [A2 [A3 [A4 [ea A5]]]]] [B1 [B2 [B3 [B4 [eb B5]]]]].
  unfold turned. repeat split; try congruence; auto.
  exists (ea ++ eb). rewrite B5, A5, app_assoc. reflexivity.
Qed.

Lemma orphans_waiting_turned E s st :
  orphans_waiting E s -> turned s st -> orphans_waiting E st.
Proof.
  unfold orphans_waiting. intros Hw [Hc [_ [Hin _]]].
  rewrite Forall_forall in *. intros e He. specialize (Hw e (Hin e He)).
  unfold still_orphan in *. rewrite Hc. exact Hw.
Qed.

(** The step of the loop on a waiting vote. *)
Lemma relay_and_limit_turn E k vote s :
  find k (CDirectSend.mapTxLockVotesOrphan s) = Some vote ->
  exists s1 ok,
    relay_and_limit E vote s = Some (s1, ok)
    /\ find k (CDirectSend.mapTxLockVotesOrphan s1) = Some vote
    /\ turned s (if ok then CDirectSend.set_orphans (erase k) s1 else s1)
    /\ CDirectSend.mapMasternodeOrphanVotes
         (if ok then CDirectSend.set_orphans (erase k) s1 else s1)
       = (if ok
          then set (CTxLockVote.GetMasternodeOutpoint vote) (to_int32 (GetTime E + 60 * 10))
                   (CDirectSend.mapMasternodeOrphanVotes s)
          else CDirectSend.mapMasternodeOrphanVotes s)
    /\ CDirectSend.mapTxLockVotesOrphan
         (if ok then CDirectSend.set_orphans (erase k) s1 else s1)
       = (if ok then erase k (CDirectSend.mapTxLockVotesOrphan s)
          else CDirectSend.mapTxLockVotesOrphan s)
    /\ (ok = false -> s1 = CDirectSend.emit [EvRelayVote (CTxLockVote.GetHash vote)] s).
Proof.
  intros Hf. unfold relay_and_limit.
  destruct (orphan_rate_limit_cases E vote
              (CDirectSend.emit [EvRelayVote (CTxLockVote.GetHash vote)] s)) as [Hr|Hr];
    rewrite Hr; eexists; eexists; (split; [reflexivity|]); (split; [exact Hf|]);
    (split; [|split; [reflexivity|split; [reflexivity|]]]);
    try (intros Hx; first [reflexivity | discriminate Hx]).
  - unfold turned. simpl. repeat split; auto. eexists. reflexivity.
  - unfold turned. simpl. repeat split; auto.
    + intros e He. apply In_erase in He. tauto.
    + intros k' v Hk. rewrite find_erase in Hk. destruct (keqb k' k); [discriminate | exact Hk].
    + eexists. reflexivity.
Qed.

(** On waiting orphan votes the loop is the loop of the relay and the rate
    limiter, and it ends. *)
Lemma process_orphans_waiting fuel E ks : forall s,
  orphans_waiting E s ->
  CDirectSend.process_orphans (CDirectSend.ProcessTxLockVote (S fuel)) E ks s
  = CDirectSend.process_orphans relay_and_limit E ks s
  /\ exists s', CDirectSend.process_orphans relay_and_limit E ks s = Some s' /\ turned s s'.
Proof.
  induction ks as [|k rest IH]; intros s Hw; cbn [CDirectSend.process_orphans].
  - split; [reflexivity|]. exists s. split; [reflexivity | apply turned_refl].
  - destruct (find k (CDirectSend.mapTxLockVotesOrphan s)) as [vote|] eqn:Hf; [|apply IH; exact Hw].
    pose proof Hw as Hw'. unfold orphans_waiting in Hw'. rewrite Forall_forall in Hw'.
    destruct (Hw' (k, vote) (find_In _ _ Hf)) as [Hk [Hvalid Hcand]]. simpl in Hk, Hvalid, Hcand.
    rewrite (@waiting_vote_rate_limited fuel E vote s Hvalid Hcand)
      by (apply count_find; exists vote; rewrite <- Hk; exact Hf).
    destruct (@relay_and_limit_turn E k vote s Hf) as [s1 [ok [Hr [Hf1 [Ht _]]]]].
    rewrite Hr, Hf1.
    destruct (IH _ (orphans_waiting_turned Hw Ht)) as [Heq [s' [Hs' Ht']]].
    split; [exact Heq|]. exists s'. split; [exact Hs'|].
    eapply turned_trans; eauto.
Qed.

(** Once an orphan vote is gone, the loop does not bring it back. *)
Lemma process_orphans_gone E ks k0 s s' :
  orphans_waiting E s ->
  find k0 (CDirectSend.mapTxLockVotesOrphan s) = None ->
  CDirectSend.process_orphans relay_and_limit E ks s = Some s' ->
  find k0 (CDirectSend.mapTxLockVotesOrphan s') = None.
Proof.
  intros Hw Hnone Hs'.
  destruct (@process_orphans_waiting 0 E ks s Hw) as [_ [s'' [Hs'' [_ [_ [_ [Hsub _]]]]]]].
  rewrite Hs' in Hs''. injection Hs'' as <-.
  destruct (find k0 (CDirectSend.mapTxLockVotesOrphan s')) as [v|] eqn:Hx; [|reflexivity].
  apply Hsub in Hx. congruence.
Qed.

(** The vote under [k0], the only orphan vote of its signer, is erased at
    its turn when the rate limiter has no deadline in the future for the
    signer. *)
Lemma process_orphans_at_rest E k0 v0 ks : forall s s',
  orphans_waiting E s ->
  find k0 (CDirectSend.mapTxLockVotesOrphan s) = Some v0 ->
  signer_at_rest E s v0 ->
  (forall k v, In (k, v) (CDirectSend.mapTxLockVotesOrphan s) ->
               CTxLockVote.GetMasternodeOutpoint v = CTxLockVote.GetMasternodeOutpoint v0 ->
               k = k0) ->
  In k0 ks ->
  CDirectSend.process_orphans relay_and_limit E ks s = Some s' ->
  find k0 (CDirectSend.mapTxLockVotesOrphan s') = None.
Proof.
  induction ks as [|k rest IH]; intros s s' Hw Hf0 Hrest Honly Hin Hs'; [contradiction|].
  cbn [CDirectSend.process_orphans] in Hs'.
  destruct (keqb k k0) eqn:Ek.
  - apply keqb_eq in Ek. subst k. rewrite Hf0 in Hs'.
    unfold relay_and_limit in Hs' at 1.
    rewrite orphan_rate_limit_at_rest in Hs' by exact Hrest.
    change (CDirectSend.mapTxLockVotesOrphan
              (CDirectSend.set_mnorphans
                 (set (CTxLockVote.GetMasternodeOutpoint v0) (to_int32 (GetTime E + 60 * 10)))
                 (CDirectSend.emit [EvRelayVote (CTxLockVote.GetHash v0)] s)))
      with (CDirectSend.mapTxLockVotesOrphan s) in Hs'.
    rewrite Hf0 in Hs'.
    eapply process_orphans_gone; [| |exact Hs'].
    + eapply orphans_waiting_turned; [exact Hw|].
      unfold turned. simpl. repeat split; auto.
      * intros e He. apply In_erase in He. tauto.
      * intros k' v Hk. rewrite find_erase in Hk.
        destruct (keqb k' k0); [discriminate | exact Hk].
      * eexists. reflexivity.
    + simpl. rewrite find_erase, keqb_refl. reflexivity.
  - assert (In k0 rest) as Hin'.
    { destruct Hin as [->|Hin]; [rewrite keqb_refl in Ek; discriminate | exact Hin]. }
    destruct (find k (CDirectSend.mapTxLockVotesOrphan s)) as [vote|] eqn:Hf;
      [|eapply IH; eauto].
    destruct (@relay_and_limit_turn E k vote s Hf) as [s1 [ok [Hr [Hf1 [Ht [Hmn [Horph _]]]]]]].
    rewrite Hr, Hf1 in Hs'.
    assert (CTxLockVote.GetMasternodeOutpoint vote <> CTxLockVote.GetMasternodeOutpoint v0)
      as Hother.
    { intros Heq. apply keqb_neq in Ek. apply Ek.
      apply (Honly k vote); [apply find_In; exact Hf | exact Heq]. }
    eapply (IH (if ok then CDirectSend.set_orphans (erase k) s1 else s1) s');
      [| | | |exact Hin'|exact Hs'].
    + eapply orphans_waiting_turned; eauto.
    + rewrite Horph. destruct ok; [|exact Hf0].
      rewrite find_erase. rewrite keqb_sym, Ek. exact Hf0.
    + unfold signer_at_rest. rewrite Hmn. destruct ok; [|exact Hrest].
      rewrite find_set.
      assert (keqb (CTxLockVote.GetMasternodeOutpoint v0)
                   (CTxLockVote.GetMasternodeOutpoint vote) = false) as ->
        by (apply keqb_neq; congruence).
      exact Hrest.
    + intros k' v Hin2 Hsig. apply (Honly k' v); [|exact Hsig].
      destruct Ht as [_ [_ [Hsub _]]]. apply Hsub. exact Hin2.
Qed.
(** An orphan vote that is there after the loop was refused at its turn:
    [ProcessTxLockVote] answered false for it. *)
Lemma process_orphans_remaining fuel E ks : forall s s' k v,
  orphans_waiting E s ->
  CDirectSend.process_orphans relay_and_limit E ks s = Some s' ->
  In k ks ->
  find k (CDirectSend.mapTxLockVotesOrphan s') = Some v ->
  exists st,
    turned s st
    /\ find k (CDirectSend.mapTxLockVotesOrphan st) = Some v
    /\ CDirectSend.ProcessTxLockVote (S fuel) E v st
       = Some (CDirectSend.emit [EvRelayVote (CTxLockVote.GetHash v)] st, false).
Proof.
  induction ks as [|k1 rest IH]; intros s s' k v Hw Hs' Hin Hleft; [contradiction|].
  cbn [CDirectSend.process_orphans] in Hs'.
  destruct (find k1 (CDirectSend.mapTxLockVotesOrphan s)) as [vote|] eqn:Hf.
  - destruct (@relay_and_limit_turn E k1 vote s Hf)
      as [s1 [ok [Hr [Hf1 [Ht [_ [Horph Hsame]]]]]]].
    rewrite Hr, Hf1 in Hs'.
    pose proof (orphans_waiting_turned Hw Ht) as Hw2.
    destruct (keqb k k1) eqn:Ek.
    + apply keqb_eq in Ek. subst k1. destruct ok.
      * assert (find k (CDirectSend.mapTxLockVotesOrphan s') = None) as Hnone.
        { eapply process_orphans_gone; [exact Hw2| |exact Hs'].
          rewrite Horph, find_erase, keqb_refl. reflexivity. }
        congruence.
      * destruct (@process_orphans_waiting 0 E rest s1 Hw2)
          as [_ [s'' [Hs'' [_ [_ [_ [Hsub _]]]]]]].
        rewrite Hs' in Hs''. injection Hs'' as <-.
        apply Hsub in Hleft. rewrite Horph, Hf in Hleft. injection Hleft as <-.
        exists s. split; [apply turned_refl|]. split; [exact Hf|].
        unfold orphans_waiting in Hw. rewrite Forall_forall in Hw.
        destruct (Hw (k, vote) (find_In _ _ Hf)) as [Hk [Hvalid Hcand]].
        simpl in Hk, Hvalid, Hcand.
        rewrite (@waiting_vote_rate_limited fuel E vote s Hvalid Hcand)
          by (apply count_find; exists vote; rewrite <- Hk; exact Hf).
        rewrite Hr, (Hsame eq_refl). reflexivity.
    + assert (In k rest) as Hin'.
      { destruct Hin as [->|Hin]; [rewrite keqb_refl in Ek; discriminate | exact Hin]. }
      destruct (IH _ _ _ _ Hw2 Hs' Hin' Hleft) as [st [Hst Hrest]].
      exists st. split; [eapply turned_trans; eauto | exact Hrest].
  - destruct (keqb k k1) eqn:Ek.
    + apply keqb_eq in Ek. subst k1.
      assert (find k (CDirectSend.mapTxLockVotesOrphan s') = None) as Hnone
        by (eapply process_orphans_gone; eauto).
      congruence.
    + assert (In k rest) as Hin'.
      { destruct Hin as [->|Hin]; [rewrite keqb_refl in Ek; discriminate | exact Hin]. }
      eapply IH; eauto.
Qed.
End OrphansAgain.

(** X25. For a valid vote that is in [mapTxLockVotesOrphan] and still an
    orphan, the answer of [ProcessTxLockVote] is that of the rate limiter,
    after the relay.  So when every orphan vote is filed under its hash, valid
    and still an orphan, [ProcessOrphanTxLockVotes] is the loop that relays
    each vote, asks the rate limiter, and erases the vote when the answer is
    true: it returns, the candidates and the stored votes are as they were,
    no orphan vote is added, and an orphan vote that is left is one for which
    [ProcessTxLockVote] answered false at its turn.  The first orphan vote leaves
    [mapTxLockVotesOrphan] when the rate limiter passes its signer, and so does
    any orphan vote that is the only one of its signer when the rate limiter
    holds no deadline in the future for the signer, although neither was
    attached to a candidate. *)
Theorem waiting_orphan_vote_dropped {P : Params} (fuel : nat) (E : Env) (s : CDirectSend.t) :
  orphans_waiting E s ->
  (forall vote st,
      fst (CTxLockVote.IsValid E vote) = true ->
      still_orphan st vote ->
      count (CTxLockVote.GetHash vote) (CDirectSend.mapTxLockVotesOrphan st) = true ->
      CDirectSend.ProcessTxLockVote (S fuel) E vote st
      = CDirectSend.orphan_rate_limit E vote
          (CDirectSend.emit [EvRelayVote (CTxLockVote.GetHash vote)] st))
  /\ CDirectSend.ProcessOrphanTxLockVotes (S fuel) E s
     = CDirectSend.ProcessOrphanTxLockVotes_with relay_and_limit E s
  /\ exists s',
       CDirectSend.ProcessOrphanTxLockVotes (S fuel) E s = Some s'
       /\ CDirectSend.mapTxLockCandidates s' = CDirectSend.mapTxLockCandidates s
       /\ CDirectSend.mapTxLockVotes s' = CDirectSend.mapTxLockVotes s
       /\ (forall k v, find k (CDirectSend.mapTxLockVotesOrphan s') = Some v ->
                       find k (CDirectSend.mapTxLockVotesOrphan s) = Some v)
       /\ (forall k v,
             find k (CDirectSend.mapTxLockVotesOrphan s') = Some v ->
             exists st,
               turned s st
               /\ find k (CDirectSend.mapTxLockVotesOrphan st) = Some v
               /\ CDirectSend.ProcessTxLockVote (S fuel) E v st
                  = Some (CDirectSend.emit [EvRelayVote (CTxLockVote.GetHash v)] st, false))
       /\ (forall k vote rest st,
             CDirectSend.mapTxLockVotesOrphan s = (k, vote) :: rest ->
             CDirectSend.orphan_rate_limit E vote
               (CDirectSend.emit [EvRelayVote (CTxLockVote.GetHash vote)] s) = Some (st, true) ->
             find k (CDirectSend.mapTxLockVotesOrphan s') = None)
       /\ (forall k vote,
             find k (CDirectSend.mapTxLockVotesOrphan s) = Some vote ->
             signer_at_rest E s vote ->
             (forall k2 v2, In (k2, v2) (CDirectSend.mapTxLockVotesOrphan s) ->
                            CTxLockVote.GetMasternodeOutpoint v2
                            = CTxLockVote.GetMasternodeOutpoint vote ->
                            k2 = k) ->
             find k (CDirectSend.mapTxLockVotesOrphan s') = None).
Proof.
  intros Hw. split.
  { intros vote st Hvalid Hcand Hcount.
    apply (@waiting_vote_rate_limited P fuel E vote st Hvalid Hcand Hcount). }
  unfold CDirectSend.ProcessOrphanTxLockVotes, CDirectSend.ProcessOrphanTxLockVotes_with.
  destruct (@process_orphans_waiting P fuel E (keys (CDirectSend.mapTxLockVotesOrphan s)) s Hw)
    as [Heq [s' [Hs' [Hc [Hv [_ [Hsub _]]]]]]].
  split; [exact Heq|].
  exists s'. rewrite Heq. split; [exact Hs'|]. split; [exact Hc|]. split; [exact Hv|].
  split; [exact Hsub|]. split.
  { intros k v Hleft.
    apply (@process_orphans_remaining P fuel E (keys (CDirectSend.mapTxLockVotesOrphan s))
             s s' k v Hw Hs'); [|exact Hleft].
    apply Hsub in Hleft. apply find_In in Hleft. apply (in_map fst) in Hleft. exact Hleft. }
  split.
  - intros k vote rest st Ho Hpass.
    rewrite Ho in Hs'. cbn [keys map fst CDirectSend.process_orphans] in Hs'.
    assert (find k (CDirectSend.mapTxLockVotesOrphan s) = Some vote) as Hf
      by (rewrite Ho; cbn [find]; rewrite keqb_refl; reflexivity).
    rewrite Hf in Hs'. unfold relay_and_limit in Hs' at 1. rewrite Hpass in Hs'.
    destruct (@relay_and_limit_turn P E k vote s Hf) as [s1 [ok [Hr [Hf1 [Ht [_ [Horph _]]]]]]].
    unfold relay_and_limit in Hr. rewrite Hpass in Hr. injection Hr as <- <-.
    rewrite Hf1 in Hs'.
    eapply process_orphans_gone; [| |exact Hs'].
    + eapply orphans_waiting_turned; eauto.
    + rewrite Horph. rewrite find_erase, keqb_refl. reflexivity.
  - intros k vote Hf Hrest Honly.
    eapply (@process_orphans_at_rest P E k vote); eauto.
    apply find_In in Hf. apply (in_map fst) in Hf. exact Hf.
Qed.

Module OrphanExamples.
Definition v := Demo.mkvote 31 (Demo.op 1 0) (Demo.op 7 1) 1000.

(** The vote [v] for the unknown transaction 31 waits as an orphan; its
    signer is the only masternode that the rate limiter tracks. *)
Definition waiting : CDirectSend.t :=
  CDirectSend.set_orphans (fun _ => [(CTxLockVote.GetHash (P := Demo.params) v, v)])
    (CDirectSend.set_candidates
       (fun _ => [(31, CTxLockCandidate.create 1000 (CTxLockRequest.null (P := Demo.params)))])
       (CDirectSend.set_mnorphans (fun _ => [(Demo.op 7 1, 1600)]) CDirectSend.empty)).
End OrphanExamples.

Lemma waiting_orphan_vote_dropped_witness :
  exists s',
    CDirectSend.ProcessOrphanTxLockVotes (P := Demo.params) 1 Demo.env OrphanExamples.waiting
    = Some s'
    /\ CDirectSend.mapTxLockVotesOrphan s' = []
    /\ CDirectSend.GetTransactionLockSignatures Demo.env s' 31 = 0.
Proof.
  destruct (@waiting_orphan_vote_dropped Demo.params 0 Demo.env OrphanExamples.waiting)
    as [_ [_ [s' [H1 [H2 [_ [Hsub [_ [Hfirst _]]]]]]]]].
  - unfold orphans_waiting. simpl. repeat constructor.
  - exists s'. split; [exact H1|]. split.
    + specialize (Hfirst _ _ _ _ eq_refl eq_refl).
      destruct (CDirectSend.mapTxLockVotesOrphan s') as [|[k x] m] eqn:Hm; [reflexivity|].
      assert (find k ((k, x) :: m) = Some x) as Hk
        by (cbn [find]; rewrite keqb_refl; reflexivity).
      apply Hsub in Hk. simpl in Hk.
      destruct (k =? 1311172) eqn:Ek; [|discriminate Hk].
      apply Z.eqb_eq in Ek. subst k. cbn [find] in Hfirst.
      rewrite keqb_refl in Hfirst. discriminate Hfirst.
    + unfold CDirectSend.GetTransactionLockSignatures. rewrite H2. reflexivity.
Defined.

(** ** A masternode that is asked to vote *)

Section Voting.
Context {P : Params}.
Variable E : Env.

Lemma Sign_signer v v' :
  CTxLockVote.Sign E v = Some v' ->
  CTxLockVote.GetMasternodeOutpoint v' = CTxLockVote.GetMasternodeOutpoint v.
Proof.
  unfold CTxLockVote.Sign. destruct (SignMessage E _) as [sig|]; [|discriminate].
  destruct (VerifyMessage E _ sig _); [|discriminate]. intros [= <-]. reflexivity.
Qed.

(** The node can vote on [o] for [txHash]: the coin is there, the node ranks
    high enough at its height, and signing works. *)
Definition can_vote (txHash : uint256) (o : COutPoint.t) : Prop :=
  GetUTXOHeight E o <> -1
  /\ (exists nRank,
         GetMasternodeRank E (activeMasternode_outpoint E) (GetUTXOHeight E o + 4)
                           MIN_DIRECTSEND_PROTO_VERSION = Some nRank
         /\ nRank <= SIGNATURES_TOTAL)
  /\ exists vote,
       CTxLockVote.Sign E (CTxLockVote.create (GetTime E) txHash o (activeMasternode_outpoint E))
       = Some vote
       /\ CTxLockVote.CheckSignature E vote = true.

(** The candidate at [key] has the locks [ks]; on the outpoints [outs] this
    node has not voted and no transaction is recorded. *)
Definition unvoted (key : uint256) (ks outs : list COutPoint.t) (s : CDirectSend.t) : Prop :=
  exists c,
    find key (CDirectSend.mapTxLockCandidates s) = Some c
    /\ keys (CTxLockCandidate.mapOutPointLocks c) = ks
    /\ forall o, In o outs ->
                 find o (CDirectSend.mapVotedOutpoints s) = None
                 /\ CTxLockCandidate.HasMasternodeVoted o (activeMasternode_outpoint E) c = false.

Lemma vote_outpoints_votes key txHash ks outs : forall s,
  NoDup ks ->
  NoDup outs ->
  incl outs ks ->
  Forall (can_vote txHash) outs ->
  unvoted key ks outs s ->
  exists s' c',
    CDirectSend.vote_outpoints E key txHash outs s = Some s'
    /\ find key (CDirectSend.mapTxLockCandidates s') = Some c'
    /\ keys (CTxLockCandidate.mapOutPointLocks c') = ks
    /\ (forall o, In o outs ->
                  CTxLockCandidate.HasMasternodeVoted o (activeMasternode_outpoint E) c' = true
                  /\ find o (CDirectSend.mapVotedOutpoints s') = Some [txHash])
    /\ (forall o c, ~ In o outs ->
                    find key (CDirectSend.mapTxLockCandidates s) = Some c ->
                    CTxLockCandidate.HasMasternodeVoted o (activeMasternode_outpoint E) c'
                    = CTxLockCandidate.HasMasternodeVoted o (activeMasternode_outpoint E) c
                    /\ find o (CDirectSend.mapVotedOutpoints s')
                       = find o (CDirectSend.mapVotedOutpoints s)).
Proof.
  induction outs as [|o rest IH]; intros s Hks Hnd Hincl Hcan Hun.
  - destruct Hun as [c [Hc [Hk _]]]. exists s, c. cbn [CDirectSend.vote_outpoints].
    split; [reflexivity|]. split; [exact Hc|]. split; [exact Hk|].
    split; [intros o []|]. intros o c0 _ Hc0. rewrite Hc in Hc0. injection Hc0 as <-. auto.
  - inversion Hnd as [|? ? Hnotin Hnd']; subst.
    inversion Hcan as [|? ? [Hcoin [[nRank [Hrank Hle]] [vote [Hsign Hcheck]]]] Hcan']; subst.
    destruct Hun as [c [Hc [Hk Hfree]]].
    destruct (Hfree o (or_introl eq_refl)) as [Hvo Hnv].
    pose proof (Sign_outpoint E _ Hsign) as Hout.
    pose proof (Sign_signer _ Hsign) as Hmn.
    change (CTxLockVote.GetOutpoint vote = o) in Hout.
    change (CTxLockVote.GetMasternodeOutpoint vote = activeMasternode_outpoint E) in Hmn.
    assert (NoDup (keys (CTxLockCandidate.mapOutPointLocks c))) as Hndc by (rewrite Hk; exact Hks).
    pose proof (@candidate_AddVote_parts vote c Hndc) as Hadd. cbv zeta in Hadd.
    rewrite Hout, Hmn in Hadd.
    assert (count o (CTxLockCandidate.mapOutPointLocks c) = true) as Hlock.
    { apply count_In_keys. rewrite Hk. apply Hincl. left. reflexivity. }
    assert (snd (CTxLockCandidate.AddVote vote c) = true) as Hok.
    { destruct (snd (CTxLockCandidate.AddVote vote c)); [reflexivity|].
      destruct Hadd as [_ [Hx|Hx]]; congruence. }
    rewrite Hok in Hadd. destruct Hadd as [_ [_ [Hhas Hkeys]]].
    assert (forall o', o' <> o ->
              CTxLockCandidate.HasMasternodeVoted o' (activeMasternode_outpoint E)
                (fst (CTxLockCandidate.AddVote vote c))
              = CTxLockCandidate.HasMasternodeVoted o' (activeMasternode_outpoint E) c) as Hoth.
    { intros o' Hne. apply AddVote_other_outpoint. rewrite Hout. congruence. }
    cbn [CDirectSend.vote_outpoints].
    destruct (Z.eqb_spec (GetUTXOHeight E o) (-1)) as [Heq|_]; [contradiction|].
    rewrite Hrank.
    destruct (Z.gtb_spec nRank SIGNATURES_TOTAL) as [Hgt|_]; [lia|].
    rewrite Hvo, Hsign, Hcheck. cbn [negb].
    change (CDirectSend.mapTxLockCandidates
              (CDirectSend.set_votes (insert (CTxLockVote.GetHash vote) vote) s))
      with (CDirectSend.mapTxLockCandidates s).
    rewrite Hc.
    destruct (CTxLockCandidate.AddVote vote c) as [c1 ok]. simpl in Hok, Hhas, Hkeys, Hoth.
    subst ok.
    set (s2 := CDirectSend.set_candidates (update key (fun _ => c1))
                 (CDirectSend.set_votes (insert (CTxLockVote.GetHash vote) vote) s)).
    set (s3 := CDirectSend.emit [EvRelayVote (CTxLockVote.GetHash vote)]
                 (CDirectSend.add_voted o txHash s2)).
    assert (CDirectSend.mapTxLockCandidates s3
            = update key (fun _ => c1) (CDirectSend.mapTxLockCandidates s)
            /\ CDirectSend.mapVotedOutpoints s3
               = insert o [txHash] (CDirectSend.mapVotedOutpoints s)) as [Hc3 Hv3].
    { unfold s3, CDirectSend.add_voted.
      change (CDirectSend.mapVotedOutpoints s2) with (CDirectSend.mapVotedOutpoints s).
      rewrite Hvo. auto. }
    assert (find key (CDirectSend.mapTxLockCandidates s3) = Some c1) as Hf3.
    { rewrite Hc3, find_update, keqb_refl, Hc. reflexivity. }
    assert (unvoted key ks rest s3) as Hun3.
    { exists c1. split; [exact Hf3|]. split; [rewrite Hkeys; exact Hk|].
      intros o' Ho'. assert (o' <> o) as Hne by (intros ->; contradiction).
      destruct (Hfree o' (or_intror Ho')) as [Hvo' Hnv']. split.
      - rewrite Hv3, find_insert.
        assert (keqb o' o = false) as -> by (apply keqb_neq; exact Hne). exact Hvo'.
      - rewrite (Hoth o' Hne). exact Hnv'. }
    destruct (IH s3 Hks Hnd' (fun x Hx => Hincl x (or_intror Hx)) Hcan' Hun3)
      as [s' [c' [Hrun [Hc' [Hk' [Hdone Hframe]]]]]].
    exists s', c'. split; [exact Hrun|]. split; [exact Hc'|]. split; [exact Hk'|]. split.
    + intros o' [<-|Ho']; [|apply Hdone; exact Ho'].
      destruct (Hframe o c1 Hnotin Hf3) as [Hh Hv]. rewrite Hh, Hv. split; [exact Hhas|].
      rewrite Hv3, find_insert, keqb_refl, Hvo. reflexivity.
    + intros o' c0 Hno Hc0. injection Hc0 as <-.
      assert (o' <> o) as Hne by (intros ->; apply Hno; left; reflexivity).
      assert (~ In o' rest) as Hnr by (intros Hx; apply Hno; right; exact Hx).
      destruct (Hframe o' c1 Hnr Hf3) as [Hh Hv]. rewrite Hh, Hv. split.
      * apply Hoth. exact Hne.
      * rewrite Hv3, find_insert.
        assert (keqb o' o = false) as -> by (apply keqb_neq; exact Hne). reflexivity.
Qed.
End Voting.

(** X26. A masternode votes on every outpoint of a candidate when it can:
    where, for each outpoint of the candidate, the coin is unspent, the node
    ranks within [SIGNATURES_TOTAL] at the height of the coin plus four,
    signing and the check of the signature succeed, no transaction is
    recorded for the outpoint and the node has no vote on it, [Vote] leaves
    the candidate with a vote of the node on each of its outpoints, and
    records the transaction, and it alone, for each of them. *)
Theorem Vote_votes_on_every_outpoint {P : Params} (E : Env) (key : uint256)
        (s : CDirectSend.t) (c : CTxLockCandidate.t) :
  let txHash := CTxLockCandidate.GetHash c in
  fMasterNode E = true ->
  SPORK_2_DIRECTSEND_ENABLED E = true ->
  find key (CDirectSend.mapTxLockCandidates s) = Some c ->
  NoDup (keys (CTxLockCandidate.mapOutPointLocks c)) ->
  Forall (can_vote E txHash) (keys (CTxLockCandidate.mapOutPointLocks c)) ->
  (forall o, In o (keys (CTxLockCandidate.mapOutPointLocks c)) ->
             find o (CDirectSend.mapVotedOutpoints s) = None
             /\ CTxLockCandidate.HasMasternodeVoted o (activeMasternode_outpoint E) c = false) ->
  exists s' c',
    CDirectSend.Vote E key s = Some s'
    /\ find key (CDirectSend.mapTxLockCandidates s') = Some c'
    /\ forall o, In o (keys (CTxLockCandidate.mapOutPointLocks c)) ->
                 CTxLockCandidate.HasMasternodeVoted o (activeMasternode_outpoint E) c' = true
                 /\ find o (CDirectSend.mapVotedOutpoints s') = Some [txHash].
Proof.
  intros txHash Hmn Hsp Hc Hnd Hcan Hfree.
  unfold CDirectSend.Vote. rewrite Hmn, Hsp, Hc. cbn [negb]. fold txHash.
  destruct (@vote_outpoints_votes P E key txHash
              (keys (CTxLockCandidate.mapOutPointLocks c))
              (keys (CTxLockCandidate.mapOutPointLocks c)) s Hnd Hnd
              (fun x Hx => Hx) Hcan)
    as [s' [c' [Hrun [Hc' [_ [Hdone _]]]]]].
  { exists c. auto. }
  exists s', c'. auto.
Qed.

Lemma Vote_votes_on_every_outpoint_witness :
  exists s' c',
    CDirectSend.Vote (P := Demo.params) VoteExamples.env 21 VoteExamples.asked = Some s'
    /\ find 21 (CDirectSend.mapTxLockCandidates s') = Some c'
    /\ CTxLockCandidate.CountVotes c' = 2.
Proof.
  destruct (@Vote_votes_on_every_outpoint Demo.params VoteExamples.env 21 VoteExamples.asked
              VoteExamples.fresh_candidate eq_refl eq_refl eq_refl)
    as [s' [c' [H1 [H2 _]]]].
  - simpl. repeat constructor; simpl; intuition discriminate.
  - simpl. repeat constructor; try discriminate;
      try (exists 1; split; [reflexivity | simpl; lia]);
      eexists; split; reflexivity.
  - simpl. intros o [<-|[<-|[]]]; split; reflexivity.
  - exists s', c'. split; [exact H1|]. split; [exact H2|].
    vm_compute in H1. injection H1 as <-. vm_compute in H2. injection H2 as <-. reflexivity.
Defined.
